(** * Kiro account management console: account statistics, the REST client,
      the cached account page, the import modal and the OAuth polling timers.

    A shallow embedding of
      - [src/utils/kiro/stats.ts]              (modules [Stats], [StatsView]),
      - [src/services/api/kiro.ts]             (modules [KiroApi], [KiroApiRead]),
      - [src/pages/KiroPage.tsx]               (modules [KiroPage],
                                                [KiroPageHandlers]),
      - [src/components/kiro/KiroAccountList.tsx] (module [AccountList]),
      - [src/components/kiro/KiroImportModal.tsx] (modules [ImportModal],
                                                [ImportFlow]),
      - [src/pages/OAuthPage.tsx]              (modules [OAuthPage],
                                                [OAuthCleanup]),
    and of what the account card and the statistics header compute
    (in [StatsView]).

    Conventions.
      - A JavaScript string is a [string] (a byte string; the non-ASCII
        literals of the source are kept in UTF-8). The primitives that
        depend on the Unicode tables ([toLowerCase], [trim]) are given on
        the ASCII range.
      - A finite JavaScript number is a canonical rational [Qc]; an optional
        property ([x?: T]) is an [option].
      - A rejected promise / a thrown exception is [None], or the [inl] of a
        sum, in the result of the operation. *)

From Stdlib Require Import QArith Qcanon Qround ZArith String Ascii List Lia Bool.
From Stdlib Require Import DecimalString Permutation.
From stdpp Require Import gmap strings list.
From Equations Require Import Equations.

Local Open Scope string_scope.
Local Open Scope list_scope.

(** ** JavaScript string primitives used by the sources *)

Module JsString.

(** [s.startsWith(p)] *)
Fixpoint startsWith (s p : string) : bool :=
  match p, s with
  | EmptyString, _ => true
  | String c p', String d s' => if Ascii.eqb c d then startsWith s' p' else false
  | String _ _, EmptyString => false
  end.

(** [s.includes(p)] *)
Fixpoint includes (s p : string) : bool :=
  startsWith s p ||
  match s with
  | EmptyString => false
  | String _ s' => includes s' p
  end.

(** [s.endsWith(p)] *)
Definition endsWith (s p : string) : bool :=
  let ls := String.length s in
  let lp := String.length p in
  (lp <=? ls)%nat && String.eqb (substring (ls - lp) lp s) p.

(** ASCII letters only: [toLowerCase] leaves every other byte as it is. *)
Definition lower_ascii (c : ascii) : ascii :=
  let n := nat_of_ascii c in
  if ((65 <=? n) && (n <=? 90))%nat then ascii_of_nat (n + 32) else c.

Fixpoint toLowerCase (s : string) : string :=
  match s with
  | EmptyString => EmptyString
  | String c s' => String (lower_ascii c) (toLowerCase s')
  end.

(** [s.substring(n)] *)
Fixpoint skip (n : nat) (s : string) : string :=
  match n, s with
  | O, _ => s
  | S n', String _ s' => skip n' s'
  | S _, EmptyString => EmptyString
  end.

(** [s.replace(p, r)] with a string pattern: only the first occurrence of
    [p] is replaced. *)
Fixpoint replace (s p r : string) : string :=
  if startsWith s p then r +:+ skip (String.length p) s
  else match s with
       | EmptyString => EmptyString
       | String c s' => String c (replace s' p r)
       end.

(** [s.split(sep)] for a one-character separator. *)
Fixpoint split (sep : ascii) (s : string) : list string :=
  match s with
  | EmptyString => [EmptyString]
  | String c s' =>
      if Ascii.eqb c sep then EmptyString :: split sep s'
      else match split sep s' with
           | [] => [String c EmptyString]
           | w :: ws => String c w :: ws
           end
  end.

(** [parts.join(sep)] *)
Fixpoint join (sep : string) (parts : list string) : string :=
  match parts with
  | [] => EmptyString
  | [w] => w
  | w :: ws => w +:+ sep +:+ join sep ws
  end.

(** White space removed by [trim]: space, tab, LF, VT, FF, CR. *)
Definition is_space (c : ascii) : bool :=
  let n := nat_of_ascii c in
  ((n =? 32) || ((9 <=? n) && (n <=? 13)))%nat.

Fixpoint trimStart (s : string) : string :=
  match s with
  | EmptyString => EmptyString
  | String c s' => if is_space c then trimStart s' else s
  end.

(** [!s.trim()]: the string is empty once its white space is removed.
    Trimming at the end cannot empty a string that starts with a
    non-space character, so this is decided by [trimStart]. *)
Definition blank (s : string) : bool :=
  match trimStart s with
  | EmptyString => true
  | String _ _ => false
  end.

(** Truthiness of a string: the empty string is falsy. *)
Definition truthy (s : string) : bool :=
  match s with EmptyString => false | String _ _ => true end.

End JsString.

(** ** Records of [src/types] *)

Abbreviation number := Qc.

Record FreeTrialInfo := {
  ft_currentUsage : option number;
  ft_usageLimit : option number
}.

Record Bonus := {
  bonus_displayName : string;
  bonus_currentUsage : option number;
  bonus_usageLimit : option number
}.

Record KiroUsageBreakdown := {
  currentUsage : option number;
  usageLimit : option number;
  bd_nextDateReset : option number;
  overageRate : option number;
  freeTrialInfo : option FreeTrialInfo;
  bonuses : option (list Bonus)
}.

Record KiroSubscriptionInfo := {
  sub_type : string;
  subscriptionTitle : string;
  overageCapability : option string;
  upgradeCapability : option string
}.

Record KiroUserInfo := {
  ui_email : option string;
  ui_userId : option string
}.

Record KiroUsageData := {
  usageBreakdownList : option (list KiroUsageBreakdown);
  usageBreakdown : option KiroUsageBreakdown;
  subscriptionInfo : option KiroSubscriptionInfo;
  userInfo : option KiroUserInfo;
  overageConfiguration : option string;
  daysUntilReset : option number;
  nextDateReset : option number
}.

Record KiroAccountItem := {
  id : string;
  email : string;
  label : option string;
  provider : string;
  authMethod : string;
  status : string;
  accessToken : option string;
  refreshToken : option string;
  profileArn : option string;
  expiresAt : option string;
  clientId : option string;
  clientSecret : option string;
  clientIdHash : option string;
  region : option string;
  startUrl : option string;
  usageData : option KiroUsageData;
  createdAt : option string;
  updatedAt : option string;
  lastRefreshedAt : option string;
  fileName : option string;
  filePath : option string
}.

Record KiroAccountStats := {
  total : nat;
  active : nat;
  banned : nat;
  expired : nat;
  proPlus : nat;
  pro : nat;
  free : nat;
  totalQuota : Z;
  totalUsed : Z;
  usagePercent : number;
  remaining : Z
}.

(** ** [src/utils/kiro/stats.ts] *)

Module Stats.
Import JsString.
Local Open Scope Qc_scope.

Definition KIRO_STATUS_ACTIVE : list string := ["active"; "正常"; "有效"]%string.

(** [a ?? 0] *)
Definition nullish0 (a : option number) : number := default 0 a.

(** [Math.min(a, b)] *)
Definition Math_min (a b : number) : number := if decide (a ≤ b) then a else b.

(** [Math.round(x)]: the integer nearest to [x], ties towards +infinity. *)
Definition Math_round (x : number) : Z := Qfloor (x + Q2Qc (1 # 2)).

(** [a / b] on finite numbers: the quotient is a finite number only when
    the divisor is not zero ([x / 0] is [Infinity] or [NaN]). *)
Definition js_div (a b : number) : option number :=
  if decide (b = 0) then None else Some (a / b).

Definition hundred : number := Q2Qc 100.

Definition getBreakdown (account : KiroAccountItem) : option KiroUsageBreakdown :=
  match usageData account with
  | None => None
  | Some ud =>
      match usageBreakdownList ud with
      | Some (b :: _) => Some b
      | _ => usageBreakdown ud
      end
  end.

(** [a || 0]: a missing number and the number 0 are falsy. *)
Definition falsy0 (a : option number) : number := default 0 a.

(** [bonuses?.reduce((sum, b) => sum + (f(b) || 0), 0) ?? 0] *)
Definition bonus_total (f : Bonus -> option number) (bs : option (list Bonus)) : number :=
  match bs with
  | None => 0
  | Some l => fold_left (fun sum b => sum + falsy0 (f b)) l 0
  end.

Definition minus_one : number := Q2Qc (-1).

Definition getQuota (account : KiroAccountItem) : number :=
  match getBreakdown account with
  | None => minus_one
  | Some breakdown =>
      let main := nullish0 (usageLimit breakdown) in
      let freeTrial :=
        nullish0 (ft ← freeTrialInfo breakdown; ft_usageLimit ft) in
      let bonus := bonus_total bonus_usageLimit (bonuses breakdown) in
      main + freeTrial + bonus
  end.

Definition getUsed (account : KiroAccountItem) : number :=
  match getBreakdown account with
  | None => minus_one
  | Some breakdown =>
      let main := nullish0 (currentUsage breakdown) in
      let freeTrial :=
        nullish0 (ft ← freeTrialInfo breakdown; ft_currentUsage ft) in
      let bonus := bonus_total bonus_currentUsage (bonuses breakdown) in
      main + freeTrial + bonus
  end.

Definition getSubType (account : KiroAccountItem) : string :=
  default "" (ud ← usageData account; si ← subscriptionInfo ud; Some (sub_type si)).

Definition getSubPlan (account : KiroAccountItem) : string :=
  default "" (ud ← usageData account; si ← subscriptionInfo ud; Some (subscriptionTitle si)).

(** The result is [None] exactly when a division by zero would be
    evaluated. *)
Definition getUsagePercent (used quota : number) : option number :=
  if decide (quota = 0) then Some 0
  else q ← js_div used quota; Some (Math_min hundred (q * hundred)).

Definition isProPlus (account : KiroAccountItem) : bool :=
  let subType := getSubType account in
  let subPlan := getSubPlan account in
  includes subType "PRO_PLUS" || includes subType "PRO+" ||
  includes subPlan "PRO+" || includes (toLowerCase subPlan) "pro plus".

Definition isPro (account : KiroAccountItem) : bool :=
  if isProPlus account then false
  else
    let subType := getSubType account in
    let subPlan := getSubPlan account in
    includes subType "PRO" || includes subPlan "PRO".

Definition isFree (account : KiroAccountItem) : bool :=
  let subType := getSubType account in
  let subPlan := getSubPlan account in
  if negb (truthy subType) && negb (truthy subPlan) then true
  else includes subType "FREE" || includes (toLowerCase subPlan) "free".

Definition isAccountActive (account : KiroAccountItem) : bool :=
  bool_decide (status account ∈ KIRO_STATUS_ACTIVE).

Definition isAccountExpired (account : KiroAccountItem) : bool :=
  String.eqb (status account) "expired".

Definition isAccountBanned (account : KiroAccountItem) : bool :=
  String.eqb (status account) "banned".

(** [x >= 0] *)
Definition nonneg (x : number) : bool := bool_decide (0 ≤ x).

(** [Number(x.toFixed(1))] for [x >= 0], read on exact decimals. *)
Definition toFixed1 (x : number) : number :=
  Q2Qc (inject_Z (Qfloor (x * Q2Qc 10 + Q2Qc (1 # 2))) / 10).

Definition calcAccountStats (accounts : list KiroAccountItem) : KiroAccountStats :=
  let total := length accounts in
  let active := length (List.filter isAccountActive accounts) in
  let banned := length (List.filter isAccountBanned accounts) in
  let expired := length (List.filter isAccountExpired accounts) in
  let proPlus := length (List.filter isProPlus accounts) in
  let pro := length (List.filter isPro accounts) in
  let free := length (List.filter isFree accounts) in
  let accountsWithUsage := List.filter (fun a => nonneg (getQuota a)) accounts in
  let totalQuota :=
    Math_round (fold_left (fun sum a => sum + getQuota a) accountsWithUsage 0) in
  let totalUsed :=
    Math_round (fold_left (fun sum a =>
                             let used := getUsed a in
                             sum + (if nonneg used then used else 0))
                          accountsWithUsage 0) in
  let usagePercent :=
    if (0 <? totalQuota)%Z
    then toFixed1 (Q2Qc (inject_Z totalUsed) / Q2Qc (inject_Z totalQuota) * hundred)
    else 0 in
  let remaining := (totalQuota - totalUsed)%Z in
  {| total := total; active := active; banned := banned; expired := expired;
     proPlus := proPlus; pro := pro; free := free;
     totalQuota := totalQuota; totalUsed := totalUsed;
     usagePercent := usagePercent; remaining := remaining |}.

End Stats.

(** ** The REST client: requests against the backend

    [apiClient] ([src/services/api/client]) is not among the modelled
    sources. A request is a state transformer over the backend's state that either
    resolves with a response or rejects with an error; every request is
    recorded in a log, in the order in which it is issued. *)

Inductive Request :=
| GET (url : string)
| DELETE (url : string).

Record Client (World : Type) := {
  world : World;
  log : list Request
}.
Arguments world {World} _.
Arguments log {World} _.

(** An asynchronous computation that threads the backend and may reject. *)
Definition Async (World Err A : Type) : Type :=
  Client World -> (Err + A) * Client World.

Module AsyncM.
Section Ops.
Context {World Err : Type}.
Local Abbreviation M := (Async World Err).

Definition ret {A} (a : A) : M A := fun c => (inr a, c).

Definition throw {A} (e : Err) : M A := fun c => (inl e, c).

(** [await m; k] *)
Definition bind {A B} (m : M A) (k : A -> M B) : M B :=
  fun c =>
    match m c with
    | (inl e, c') => (inl e, c')
    | (inr a, c') => k a c'
    end.

(** [try { m } catch (e) { h(e) }] *)
Definition try_catch {A} (m : M A) (h : Err -> M A) : M A :=
  fun c =>
    match m c with
    | (inl e, c') => h e c'
    | (inr a, c') => (inr a, c')
    end.
End Ops.
End AsyncM.

Declare Scope async_scope.
Delimit Scope async_scope with async.
Notation "'let*' x ':=' m 'in' k" := (AsyncM.bind m (fun x => k))
  (at level 10, x name, m at level 100, k at level 200) : async_scope.

(** Modelled from the spec: the type of an entry of
    [AuthFilesResponse.files] ([src/types/authFile]) is missing. An entry is
    a credential record stored as a file on the backend; it is given by the
    properties that [getAccounts] reads. *)
Record AuthFileItem := {
  af_name : string;
  af_email : option string;
  af_label : option string;
  af_status : option string
}.

(** The [metadata] object of an auth file. *)
Record ContentMetadata := {
  md_email : option string;
  md_label : option string;
  md_profileArn : option string;
  md_region : option string;
  md_startUrl : option string;
  md_createdAt : option string;
  md_updatedAt : option string
}.

(** The body of an auth file ([Record<string, any>]), as the typed view of
    the properties that [parseKiroAuthFile] reads. *)
Record Content := {
  c_accessToken : option string;
  c_access_token : option string;
  c_expiresAt : option string;
  c_expires_at : option string;
  c_usageData : option KiroUsageData;
  c_usage : option KiroUsageData;
  c_email : option string;
  c_label : option string;
  c_metadata : option ContentMetadata;
  c_refreshToken : option string;
  c_refresh_token : option string;
  c_profileArn : option string;
  c_clientId : option string;
  c_client_id : option string;
  c_clientSecret : option string;
  c_client_secret : option string;
  c_clientIdHash : option string;
  c_region : option string;
  c_startUrl : option string;
  c_createdAt : option string;
  c_updatedAt : option string;
  c_lastRefreshedAt : option string;
  c_last_refresh : option string;
  c_filePath : option string
}.

(** [{}] *)
Definition empty_content : Content :=
  {| c_accessToken := None; c_access_token := None; c_expiresAt := None;
     c_expires_at := None; c_usageData := None; c_usage := None;
     c_email := None; c_label := None; c_metadata := None;
     c_refreshToken := None; c_refresh_token := None; c_profileArn := None;
     c_clientId := None; c_client_id := None; c_clientSecret := None;
     c_client_secret := None; c_clientIdHash := None; c_region := None;
     c_startUrl := None; c_createdAt := None; c_updatedAt := None;
     c_lastRefreshedAt := None; c_last_refresh := None; c_filePath := None |}.

Record KiroRefreshResponse := {
  rr_success : bool;
  rr_account : option KiroAccountItem;
  rr_error : option string
}.

Record DeleteAccountsResult := {
  da_success : bool;
  da_deleted : list string;
  da_errors : list string
}.

Record RefreshAllResult := {
  ra_success : nat;
  ra_failed : nat;
  ra_accounts : list KiroAccountItem
}.

(** ** [src/services/api/kiro.ts] *)

Module KiroApi.
Import JsString.

Definition KIRO_FILE_PREFIXES : list string := ["kiro-"; "amazonq-"].

(** [a || b] on optional strings: the first operand when it is truthy. *)
Definition js_or (a b : option string) : option string :=
  match a with
  | Some s => if truthy s then a else b
  | None => b
  end.

(** Truthiness of an optional string. *)
Definition truthy_opt (a : option string) : bool :=
  match a with
  | Some s => truthy s
  | None => false
  end.

Definition extractIdFromFileName (fileName : string) : string :=
  let baseName := replace fileName ".json" "" in
  let parts := split "-"%char baseName in
  if (3 <=? length parts)%nat then join "-" (List.skipn 2 parts)
  else baseName.

Definition isKiroAuthFile (fileName : string) : bool :=
  existsb (fun prefix => startsWith (toLowerCase fileName) prefix) KIRO_FILE_PREFIXES.

(** The account that [getAccounts] pushes for a listed file. *)
Definition account_of_file (file : AuthFileItem) : KiroAccountItem :=
  let lowerName := toLowerCase (af_name file) in
  let '(provider, authMethod) :=
    if startsWith lowerName "kiro-builderid-" || startsWith lowerName "amazonq-"
    then ("BuilderId", "builder-id")
    else if startsWith lowerName "kiro-google-" then ("Google", "social")
    else if startsWith lowerName "kiro-github-" then ("Github", "social")
    else if includes lowerName "idc" then ("Enterprise", "idc")
    else ("Unknown", "social") in
  {| id := replace (af_name file) ".json" "";
     email := default (extractIdFromFileName (af_name file))
                      (js_or (af_email file) None);
     label := af_label file;
     provider := provider;
     authMethod := authMethod;
     status := default "unknown" (js_or (af_status file) None);
     accessToken := None; refreshToken := None; profileArn := None;
     expiresAt := None; clientId := None; clientSecret := None;
     clientIdHash := None; region := None; startUrl := None;
     usageData := None; createdAt := None; updatedAt := None;
     lastRefreshedAt := None;
     fileName := Some (af_name file);
     filePath := None |}.

(** The loop of [getAccounts] over the listed files. *)
Definition collect_accounts (files : list AuthFileItem) : list KiroAccountItem :=
  fold_left
    (fun accounts file =>
       if negb (isKiroAuthFile (af_name file)) then accounts
       else accounts ++ [account_of_file file])
    files [].

(** [id.endsWith('.json') ? id : `${id}.json`] *)
Definition fileName_of_id (id : string) : string :=
  if endsWith id ".json" then id else id +:+ ".json".

Section Backend.
Context {World Response Err : Type}.
Local Abbreviation M := (Async World Err).
Local Open Scope async_scope.

(** The backend behind [apiClient.get] and [apiClient.delete]. *)
Variable backend_get : string -> World -> (Err + Response) * World.
Variable backend_delete : string -> World -> (Err + Response) * World.
(** [encodeURIComponent] *)
Variable encodeURIComponent : string -> string.
(** [response?.files], when it is truthy. *)
Variable files_of : Response -> option (list AuthFileItem).
(** The response body as an auth file; [None] when it is falsy. *)
Variable content_of : Response -> option Content.
(** [String(e)] *)
Variable string_of_error : Err -> string.
(** [new Date(s).getTime()]; [None] is an invalid date. *)
Variable Date_parse : string -> option Z.
(** [new Date().getTime()] *)
Variable clock : World -> Z.

Definition apiClient_get (url : string) : M Response :=
  fun c =>
    let '(r, w) := backend_get url (world c) in
    (r, {| world := w; log := log c ++ [GET url] |}).

Definition apiClient_delete (url : string) : M Response :=
  fun c =>
    let '(r, w) := backend_delete url (world c) in
    (r, {| world := w; log := log c ++ [DELETE url] |}).

Definition auth_file_url (fileName : string) : string :=
  "/auth-files?name=" +:+ encodeURIComponent fileName.

Definition parseKiroAuthFile (now : Z) (fileName : string) (content : Content)
  : option KiroAccountItem :=
  let '(provider, authMethod) :=
    if startsWith fileName "kiro-aws-" || startsWith fileName "amazonq-"
    then ("BuilderId", "builder-id")
    else if startsWith fileName "kiro-google-" then ("Google", "social")
    else if startsWith fileName "kiro-github-" then ("Github", "social")
    else if includes fileName "idc" || truthy_opt (c_startUrl content)
    then ("Enterprise", "idc")
    else ("Unknown", "social") in
  let accessToken := js_or (c_accessToken content) (c_access_token content) in
  let expiresAtStr := js_or (c_expiresAt content) (c_expires_at content) in
  let status :=
    if truthy_opt accessToken then
      match expiresAtStr with
      | Some s =>
          if truthy s then
            match Date_parse s with
            | Some expiresAt => if (now <? expiresAt)%Z then "active" else "expired"
            | None => "expired"
            end
          else "active"
      | None => "active"
      end
    else "unknown" in
  let usageData :=
    match c_usageData content with
    | Some u => Some u
    | None => c_usage content
    end in
  let md {A} (f : ContentMetadata -> option A) : option A :=
    m ← c_metadata content; f m in
  Some
    {| id := replace fileName ".json" "";
       email := default (extractIdFromFileName fileName)
                        (js_or (js_or (c_email content) (md md_email)) None);
       label := js_or (c_label content) (md md_label);
       provider := provider;
       authMethod := authMethod;
       status := status;
       accessToken := accessToken;
       refreshToken := js_or (c_refreshToken content) (c_refresh_token content);
       profileArn := js_or (c_profileArn content) (md md_profileArn);
       expiresAt := expiresAtStr;
       clientId := js_or (c_clientId content) (c_client_id content);
       clientSecret := js_or (c_clientSecret content) (c_client_secret content);
       clientIdHash := c_clientIdHash content;
       region := js_or (c_region content) (md md_region);
       startUrl := js_or (c_startUrl content) (md md_startUrl);
       usageData := usageData;
       createdAt := js_or (c_createdAt content) (md md_createdAt);
       updatedAt := js_or (c_updatedAt content) (md md_updatedAt);
       lastRefreshedAt := js_or (c_lastRefreshedAt content) (c_last_refresh content);
       fileName := Some fileName;
       filePath := c_filePath content |}.

Definition getAccounts : M (list KiroAccountItem) :=
  let* response := apiClient_get "/auth-files" in
  let files := default [] (files_of response) in
  AsyncM.ret (collect_accounts files).

Definition deleteAccount (id : string) : M Response :=
  let fileName := fileName_of_id id in
  apiClient_delete (auth_file_url fileName).

(** The loop of [deleteAccounts]: [deleted] and [errors] are the arrays
    that the iterations push to. *)
Fixpoint deleteAccounts_loop (ids deleted errors : list string)
  : M (list string * list string) :=
  match ids with
  | [] => AsyncM.ret (deleted, errors)
  | id :: rest =>
      let* r := AsyncM.try_catch
             (let* done := deleteAccount id in AsyncM.ret (deleted ++ [id], errors))
             (fun _ => AsyncM.ret (deleted, errors ++ [id])) in
      deleteAccounts_loop rest (fst r) (snd r)
  end.

Definition deleteAccounts (ids : list string) : M DeleteAccountsResult :=
  let* r := deleteAccounts_loop ids [] [] in
  AsyncM.ret {| da_success := (length (snd r) =? 0)%nat;
                da_deleted := fst r;
                da_errors := snd r |}.

Definition refreshAccount (id : string) : M KiroRefreshResponse :=
  let fileName := fileName_of_id id in
  AsyncM.try_catch
    (let* content := apiClient_get (auth_file_url fileName) in
     fun c =>
       let account :=
         parseKiroAuthFile (clock (world c)) fileName
                           (default empty_content (content_of content)) in
       AsyncM.ret {| rr_success := true; rr_account := account; rr_error := None |} c)
    (fun e =>
       AsyncM.ret {| rr_success := false; rr_account := None;
                     rr_error := Some (string_of_error e) |}).

(** The loop of [refreshAllAccounts]. *)
Fixpoint refreshAll_loop (accounts : list KiroAccountItem)
         (success failed : nat) (refreshedAccounts : list KiroAccountItem)
  : M RefreshAllResult :=
  match accounts with
  | [] => AsyncM.ret {| ra_success := success; ra_failed := failed;
                        ra_accounts := refreshedAccounts |}
  | account :: rest =>
      let* result := refreshAccount (id account) in
      match rr_success result, rr_account result with
      | true, Some refreshed =>
          refreshAll_loop rest (S success) failed (refreshedAccounts ++ [refreshed])
      | _, _ =>
          refreshAll_loop rest success (S failed) (refreshedAccounts ++ [account])
      end
  end.

Definition refreshAllAccounts : M RefreshAllResult :=
  let* accounts := getAccounts in
  refreshAll_loop accounts 0 0 [].

End Backend.
End KiroApi.

(** ** [src/pages/KiroPage.tsx]: the cached account list *)

(** The response of [kiroApi.getKiroUsage]. *)
Record KiroUsageResponse := {
  u_status : string;
  subscription_title : option string;
  current_usage : option number;
  usage_limit : option number;
  next_reset : option string;
  u_error : option string
}.

(** The module-level cache, the browser's [localStorage], and the [accounts]
    and [stats] state of the page component. *)
Record Page := {
  cachedAccounts : list KiroAccountItem;
  cachedStats : KiroAccountStats;
  localStorage : gmap string string;
  st_accounts : list KiroAccountItem;
  st_stats : KiroAccountStats
}.

(** What [fetchUsageForAccounts] does that can be observed from outside. *)
Inductive Event :=
| EvUsageRequest (fileName : string)
| EvUpdateCache (accounts : list KiroAccountItem).

Module KiroPage.
Import JsString.

Definition emptyStats : KiroAccountStats :=
  {| total := 0; active := 0; banned := 0; expired := 0;
     proPlus := 0; pro := 0; free := 0;
     totalQuota := 0; totalUsed := 0; usagePercent := 0%Qc; remaining := 0 |}.

Definition CACHE_KEY : string := "kiro_accounts_cache".

(** [localStorage.getItem(key)] *)
Definition getItem (key : string) (ls : gmap string string) : option string :=
  ls !! key.

(** [localStorage.setItem(key, value)] *)
Definition setItem (key value : string) (ls : gmap string string) : gmap string string :=
  <[key := value]> ls.

Section Cache.
(** [JSON.stringify] and [JSON.parse] on account lists; [None] is a thrown
    exception (for [JSON.parse], also a value that is not an account
    list). *)
Variable JSON_stringify : list KiroAccountItem -> option string.
Variable JSON_parse : string -> option (list KiroAccountItem).

Definition loadCacheFromStorage (ls : gmap string string)
  : list KiroAccountItem * KiroAccountStats :=
  match getItem CACHE_KEY ls with
  | Some raw =>
      if truthy raw then
        match JSON_parse raw with
        | Some accounts => (accounts, Stats.calcAccountStats accounts)
        | None => ([], emptyStats)
        end
      else ([], emptyStats)
  | None => ([], emptyStats)
  end.

Definition saveCacheToStorage (accounts : list KiroAccountItem)
           (ls : gmap string string) : gmap string string :=
  match JSON_stringify accounts with
  | Some text => setItem CACHE_KEY text ls
  | None => ls
  end.

(** The page when the module is loaded. *)
Definition initialPage (ls : gmap string string) : Page :=
  let initialCache := loadCacheFromStorage ls in
  {| cachedAccounts := fst initialCache;
     cachedStats := snd initialCache;
     localStorage := ls;
     st_accounts := [];
     st_stats := emptyStats |}.

Definition updateCache (newAccounts : list KiroAccountItem) (p : Page) : Page :=
  let stats := Stats.calcAccountStats newAccounts in
  {| cachedAccounts := newAccounts;
     cachedStats := stats;
     localStorage := saveCacheToStorage newAccounts (localStorage p);
     st_accounts := newAccounts;
     st_stats := stats |}.

Definition BATCH_SIZE : nat := 10.

(** [{ ...a, status }] *)
Definition with_status (status : string) (a : KiroAccountItem) : KiroAccountItem :=
  {| id := id a; email := email a; label := label a; provider := provider a;
     authMethod := authMethod a; status := status;
     accessToken := accessToken a; refreshToken := refreshToken a;
     profileArn := profileArn a; expiresAt := expiresAt a;
     clientId := clientId a; clientSecret := clientSecret a;
     clientIdHash := clientIdHash a; region := region a;
     startUrl := startUrl a; usageData := usageData a;
     createdAt := createdAt a; updatedAt := updatedAt a;
     lastRefreshedAt := lastRefreshedAt a; fileName := fileName a;
     filePath := filePath a |}.

(** [{ ...a, status: 'active', usageData: { ... } }] *)
Definition with_usage (usage : KiroUsageResponse) (a : KiroAccountItem)
  : KiroAccountItem :=
  {| id := id a; email := email a; label := label a; provider := provider a;
     authMethod := authMethod a; status := "active";
     accessToken := accessToken a; refreshToken := refreshToken a;
     profileArn := profileArn a; expiresAt := expiresAt a;
     clientId := clientId a; clientSecret := clientSecret a;
     clientIdHash := clientIdHash a; region := region a;
     startUrl := startUrl a;
     usageData :=
       Some {| usageBreakdownList :=
                 Some [ {| currentUsage := Some (default 0%Qc (current_usage usage));
                           usageLimit := Some (default 0%Qc (usage_limit usage));
                           bd_nextDateReset := None; overageRate := None;
                           freeTrialInfo := None; bonuses := None |} ];
               usageBreakdown := None;
               subscriptionInfo :=
                 Some {| sub_type := "subscription";
                         subscriptionTitle := default "Free" (subscription_title usage);
                         overageCapability := None; upgradeCapability := None |};
               userInfo := None; overageConfiguration := None;
               daysUntilReset := None; nextDateReset := None |};
     createdAt := createdAt a; updatedAt := updatedAt a;
     lastRefreshedAt := lastRefreshedAt a; fileName := fileName a;
     filePath := filePath a |}.

(** What a resolved usage request does to [results[idx]]. *)
Definition apply_usage (usage : KiroUsageResponse) (a : KiroAccountItem)
  : KiroAccountItem :=
  if String.eqb (u_status usage) "ok" then with_usage usage a
  else if String.eqb (u_status usage) "banned" then with_status "banned" a
  else if String.eqb (u_status usage) "expired" ||
          match u_error usage with
          | Some e => includes e "expired"
          | None => false
          end
  then with_status "expired" a
  else a.

(** The outcome of the usage request issued for position [idx] of the
    account list, for the file [fileName]; [None] is a rejected promise. *)
Variable getKiroUsage : nat -> string -> option KiroUsageResponse.

(** The requests that a batch issues, in the order of [batch.map]. *)
Definition batch_requests (batch : list KiroAccountItem) : list Event :=
  flat_map (fun account =>
              match fileName account with
              | Some f => if truthy f then [EvUsageRequest f] else []
              | None => []
              end) batch.

(** The promise of [batch[batchIndex]] settles: the rest of its
    callback runs on the shared [results] array. The index
    [i + batchIndex] is within [results]; a list update out of range
    would leave [results] as it is. *)
Definition on_settled (i : nat) (batch : list KiroAccountItem)
           (results : list KiroAccountItem) (batchIndex : nat)
  : list KiroAccountItem :=
  match batch !! batchIndex with
  | Some account =>
      match fileName account with
      | Some f =>
          if truthy f then
            match getKiroUsage (i + batchIndex) f with
            | Some usage => alter (apply_usage usage) (i + batchIndex) results
            | None => results
            end
          else results
      | None => results
      end
  | None => results
  end.

(** The promises of a batch settle in the order [order]. *)
Definition settle (i : nat) (batch : list KiroAccountItem) (order : list nat)
           (results : list KiroAccountItem) : list KiroAccountItem :=
  fold_left (on_settled i batch) order results.

(** [await Promise.allSettled(promises)], the promises settling in the
    order of the batch. *)
Definition run_batch (i : nat) (batch : list KiroAccountItem)
           (results : list KiroAccountItem) : list KiroAccountItem :=
  settle i batch (seq 0 (length batch)) results.

(** The loop [for (let i = 0; i < accountList.length; i += BATCH_SIZE)],
    entered at [i]. *)
Equations? fetch_loop (accountList : list KiroAccountItem) (i : nat)
           (results : list KiroAccountItem) (p : Page) (trace : list Event)
  : list KiroAccountItem * Page * list Event
  by wf (length accountList - i) lt :=
  fetch_loop accountList i results p trace with decide (i < length accountList) => {
    | left _ =>
        let batch := take BATCH_SIZE (drop i accountList) in
        let results' := run_batch i batch results in
        fetch_loop accountList (i + BATCH_SIZE) results'
                   (updateCache results' p)
                   (trace ++ batch_requests batch ++ [EvUpdateCache results'])
    | right _ => (results, p, trace) }.
Proof. unfold BATCH_SIZE. lia. Qed.

Definition fetchUsageForAccounts (accountList : list KiroAccountItem) (p : Page)
  : list KiroAccountItem * Page * list Event :=
  fetch_loop accountList 0 accountList p [].

End Cache.
End KiroPage.

(** ** [src/components/kiro/KiroImportModal.tsx]: parsing pasted JSON *)

(** The values that [JSON.parse] returns. *)
#[warnings="-register-all"]
Inductive json :=
| JNull
| JBool (b : bool)
| JNum (n : number)
| JStr (s : string)
| JArr (items : list json)
| JObj (fields : list (string * json)).

(** An entry of [ParseResult.invalid]. The [email] is the entry's own
    [email] value when that is truthy, and the text [#k] otherwise. *)
Record InvalidEntry := {
  inv_index : Z;
  inv_reason : string;
  inv_email : option json
}.

Record ParseResult := {
  valid : list json;
  invalid : list InvalidEntry
}.

Module ImportModal.
Import JsString.

(** A [TypeError] raised while the entries are classified. *)
Inductive TypeError := CannotReadProperty | NotAFunction.

(** Own property [key] of an object; the keys of an object are distinct. *)
Fixpoint lookup_field (key : string) (fields : list (string * json)) : option json :=
  match fields with
  | [] => None
  | (k, v) :: rest => if String.eqb k key then Some v else lookup_field key rest
  end.

(** [v.key] for the keys [email] and [refreshToken], which no prototype
    defines: reading from [null] throws, a primitive or an array has no
    such property ([None] is [undefined]). *)
Definition get_prop (v : json) (key : string) : TypeError + option json :=
  match v with
  | JNull => inl CannotReadProperty
  | JObj fields => inr (lookup_field key fields)
  | _ => inr None
  end.

(** Truthiness of a value; [None] is [undefined]. *)
Definition truthy_json (v : option json) : bool :=
  match v with
  | None => false
  | Some JNull => false
  | Some (JBool b) => b
  | Some (JNum n) => negb (bool_decide (n = 0%Qc))
  | Some (JStr s) => truthy s
  | Some (JArr _) => true
  | Some (JObj _) => true
  end.

(** [token.startsWith('aor')] on a truthy value: only a string has the
    method. *)
Definition call_startsWith (token : option json) (p : string) : TypeError + bool :=
  match token with
  | Some (JStr s) => inr (startsWith s p)
  | _ => inl NotAFunction
  end.

(** Decimal digits of a natural number. *)
Definition decimal (n : nat) : string := NilEmpty.string_of_uint (Nat.to_uint n).

(** The callback of [accounts.forEach]: one entry is pushed to [valid] or to
    [invalid], unless a [TypeError] is thrown. *)
Definition classify (account : json) (index : nat)
           (acc : list json * list InvalidEntry)
  : TypeError + (list json * list InvalidEntry) :=
  let '(valid, invalid) := acc in
  match get_prop account "email" with
  | inl e => inl e
  | inr em =>
      let email := if truthy_json em then em else Some (JStr ("#" +:+ decimal (index + 1))) in
      match get_prop account "refreshToken" with
      | inl e => inl e
      | inr token =>
          if negb (truthy_json token) then
            inr (valid,
                 invalid ++ [ {| inv_index := Z.of_nat index;
                                 inv_reason := "Missing refreshToken";
                                 inv_email := email |} ])
          else
            match call_startsWith token "aor" with
            | inl e => inl e
            | inr true => inr (valid ++ [account], invalid)
            | inr false =>
                inr (valid,
                     invalid ++ [ {| inv_index := Z.of_nat index;
                                     inv_reason := "Invalid refreshToken";
                                     inv_email := email |} ])
            end
      end
  end.

(** [accounts.forEach((account, index) => ...)], entered at [index]. *)
Fixpoint forEach_classify (accounts : list json) (index : nat)
         (acc : list json * list InvalidEntry)
  : TypeError + (list json * list InvalidEntry) :=
  match accounts with
  | [] => inr acc
  | account :: rest =>
      match classify account index acc with
      | inl e => inl e
      | inr acc' => forEach_classify rest (S index) acc'
      end
  end.

(** The result of the [catch] branch. *)
Definition invalid_format : ParseResult :=
  {| valid := [];
     invalid := [ {| inv_index := -1;
                     inv_reason := "Invalid JSON format";
                     inv_email := None |} ] |}.

(** [Array.isArray(data) ? data : [data]] *)
Definition entries (data : json) : list json :=
  match data with
  | JArr items => items
  | _ => [data]
  end.

Section Parse.
(** [JSON.parse]; [None] is a [SyntaxError]. *)
Variable JSON_parse : string -> option json.

(** [None] is the [null] that is returned for a blank text. *)
Definition parseJson (text : string) : option ParseResult :=
  if blank text then None
  else
    Some
      match JSON_parse text with
      | None => invalid_format
      | Some data =>
          match forEach_classify (entries data) 0 ([], []) with
          | inr (valid, invalid) => {| valid := valid; invalid := invalid |}
          | inl _ => invalid_format
          end
      end.

End Parse.
End ImportModal.

(** ** [src/pages/OAuthPage.tsx]: the polling timers *)

(** The response of [getAuthStatus]. *)
Record AuthStatusResponse := {
  as_status : string;
  as_error : option string;
  as_url : option string;
  as_verification_url : option string;
  as_user_code : option string
}.

(** How a status request settles: the promise rejects with an error (and
    its [message]), or resolves with a response. *)
Inductive Outcome :=
| Rejected (message : option string)
| Resolved (res : AuthStatusResponse).

(** The part of [KiroOAuthStartResponse] that [startKiroAuth] reads. *)
Record AuthStartResponse := {
  sr_state : option string;
  sr_url : option string
}.

(** How the request that starts a Kiro login settles; a resolved promise
    may carry no response. *)
Inductive StartOutcome :=
| StartRejected (message : option string)
| StartResolved (res : option AuthStartResponse).

(** Which function installed a timer: [startPolling(provider, state)] or
    [startKiroPolling(stateParam)]. *)
Inductive PollKind :=
| ProviderPolling (provider : string)
| KiroPolling.

(** The closure of one call of [startPolling] / [startKiroPolling]: what the
    interval callback captures, and the [authUrlOpened] variable that the
    callbacks of one Kiro timer share. *)
Record Poller := {
  p_kind : PollKind;
  p_state : string;
  p_delay : Z;
  authUrlOpened : bool
}.

(** The part of [ProviderState] / [KiroOAuthState] that the login flow
    writes. *)
Record UiState := {
  ui_url : option string;
  ui_state : option string;
  ui_status : string;
  ui_error : option string;
  ui_polling : bool;
  ui_activeProvider : option string;
  ui_userCode : option string;
  ui_verificationUrl : option string;
  ui_authUrl : option string
}.

Inductive Effect :=
| AuthRequest (provider : string)
| StatusRequest (state : string)
| Notify (kind : string)
| WindowOpen (url : string).

(** The page and the window it runs in. *)
Record Browser := {
  timers : gmap string positive;      (* [timers.current] *)
  intervals : gset positive;          (* the intervals that are active *)
  closures : gmap positive Poller;    (* the closure of every timer created *)
  next_timer : positive;              (* the next id of [setInterval] *)
  in_flight : list positive;          (* status requests awaited, by timer *)
  starting : list string;             (* Kiro login requests awaited *)
  states : gmap string UiState;
  kiroState : UiState;
  effects : list Effect
}.

(** What happens to the page: a call of one of the two polling functions,
    an interval that fires, a status request that settles, a click on one
    of the Kiro login buttons, and a Kiro login request that settles. *)
Inductive Action :=
| StartPolling (provider state : string)
| StartKiroPolling (stateParam : string)
| Fire (timer : positive)
| Settle (n : nat) (outcome : Outcome)
| ClickKiroLogin (provider : string)
| KiroLoginSettled (n : nat) (outcome : StartOutcome).

Module OAuthPage.
Import JsString.

Definition POLL_INTERVAL : Z := 3000.

Definition idle : UiState :=
  {| ui_url := None; ui_state := None; ui_status := "idle"; ui_error := None;
     ui_polling := false; ui_activeProvider := None; ui_userCode := None;
     ui_verificationUrl := None; ui_authUrl := None |}.

Definition initial : Browser :=
  {| timers := ∅; intervals := ∅; closures := ∅; next_timer := 1%positive;
     in_flight := []; starting := []; states := ∅; kiroState := idle;
     effects := [] |}.

(** The key of [timers.current] under which a timer is registered. *)
Definition timer_key (k : PollKind) : string :=
  match k with
  | ProviderPolling provider => provider
  | KiroPolling => "kiro"
  end.

(** [window.clearInterval(timer)] *)
Definition clearInterval (timer : positive) (b : Browser) : Browser :=
  {| timers := timers b; intervals := intervals b ∖ {[timer]};
     closures := closures b; next_timer := next_timer b;
     in_flight := in_flight b; starting := starting b; states := states b;
     kiroState := kiroState b; effects := effects b |}.

(** [window.setInterval(callback, delay)]; the callback is the one of the
    closure [c]. *)
Definition setInterval (c : Poller) (b : Browser) : positive * Browser :=
  let timer := next_timer b in
  (timer,
   {| timers := timers b; intervals := intervals b ∪ {[timer]};
      closures := <[timer := c]> (closures b); next_timer := Pos.succ timer;
      in_flight := in_flight b; starting := starting b; states := states b;
      kiroState := kiroState b; effects := effects b |}).

Definition set_timers (f : gmap string positive -> gmap string positive)
           (b : Browser) : Browser :=
  {| timers := f (timers b); intervals := intervals b;
     closures := closures b; next_timer := next_timer b;
     in_flight := in_flight b; starting := starting b; states := states b;
     kiroState := kiroState b; effects := effects b |}.

Definition set_closure (timer : positive) (c : Poller) (b : Browser) : Browser :=
  {| timers := timers b; intervals := intervals b;
     closures := <[timer := c]> (closures b); next_timer := next_timer b;
     in_flight := in_flight b; starting := starting b; states := states b;
     kiroState := kiroState b; effects := effects b |}.

Definition set_in_flight (l : list positive) (b : Browser) : Browser :=
  {| timers := timers b; intervals := intervals b;
     closures := closures b; next_timer := next_timer b;
     in_flight := l; starting := starting b; states := states b;
     kiroState := kiroState b; effects := effects b |}.

Definition set_starting (l : list string) (b : Browser) : Browser :=
  {| timers := timers b; intervals := intervals b;
     closures := closures b; next_timer := next_timer b;
     in_flight := in_flight b; starting := l; states := states b;
     kiroState := kiroState b; effects := effects b |}.

Definition add_effect (e : Effect) (b : Browser) : Browser :=
  {| timers := timers b; intervals := intervals b;
     closures := closures b; next_timer := next_timer b;
     in_flight := in_flight b; starting := starting b; states := states b;
     kiroState := kiroState b; effects := effects b ++ [e] |}.

(** [updateProviderState(provider, next)] *)
Definition updateProviderState (provider : string) (next : UiState -> UiState)
           (b : Browser) : Browser :=
  {| timers := timers b; intervals := intervals b;
     closures := closures b; next_timer := next_timer b;
     in_flight := in_flight b; starting := starting b;
     states := <[provider := next (default idle (states b !! provider))]> (states b);
     kiroState := kiroState b; effects := effects b |}.

(** [setKiroState((prev) => next(prev))] *)
Definition setKiroState (next : UiState -> UiState) (b : Browser) : Browser :=
  {| timers := timers b; intervals := intervals b;
     closures := closures b; next_timer := next_timer b;
     in_flight := in_flight b; starting := starting b; states := states b;
     kiroState := next (kiroState b); effects := effects b |}.

(** [{ ...u, status: 'error', error, polling: false }] *)
Definition ui_failed (error : option string) (u : UiState) : UiState :=
  {| ui_url := ui_url u; ui_state := ui_state u; ui_status := "error";
     ui_error := error; ui_polling := false;
     ui_activeProvider := ui_activeProvider u; ui_userCode := ui_userCode u;
     ui_verificationUrl := ui_verificationUrl u; ui_authUrl := ui_authUrl u |}.

(** [{ ...u, status: 'success', polling: false }] *)
Definition ui_success (u : UiState) : UiState :=
  {| ui_url := ui_url u; ui_state := ui_state u; ui_status := "success";
     ui_error := ui_error u; ui_polling := false;
     ui_activeProvider := ui_activeProvider u; ui_userCode := ui_userCode u;
     ui_verificationUrl := ui_verificationUrl u; ui_authUrl := ui_authUrl u |}.

(** [{ ...u, status: 'device_code', verificationUrl, userCode }] *)
Definition ui_device_code (verificationUrl userCode : option string) (u : UiState)
  : UiState :=
  {| ui_url := ui_url u; ui_state := ui_state u; ui_status := "device_code";
     ui_error := ui_error u; ui_polling := ui_polling u;
     ui_activeProvider := ui_activeProvider u; ui_userCode := userCode;
     ui_verificationUrl := verificationUrl; ui_authUrl := ui_authUrl u |}.

(** [{ ...u, status: 'auth_url', authUrl }] *)
Definition ui_auth_url (url : string) (u : UiState) : UiState :=
  {| ui_url := ui_url u; ui_state := ui_state u; ui_status := "auth_url";
     ui_error := ui_error u; ui_polling := ui_polling u;
     ui_activeProvider := ui_activeProvider u; ui_userCode := ui_userCode u;
     ui_verificationUrl := ui_verificationUrl u; ui_authUrl := Some url |}.

(** [{ status: 'waiting', polling: true, error: undefined, activeProvider }] *)
Definition ui_waiting (provider : string) : UiState :=
  {| ui_url := None; ui_state := None; ui_status := "waiting"; ui_error := None;
     ui_polling := true; ui_activeProvider := Some provider; ui_userCode := None;
     ui_verificationUrl := None; ui_authUrl := None |}.

(** [{ ...u, url, state, status: 'waiting', polling: true }] *)
Definition ui_started (res : AuthStartResponse) (u : UiState) : UiState :=
  {| ui_url := sr_url res; ui_state := sr_state res; ui_status := "waiting";
     ui_error := ui_error u; ui_polling := true;
     ui_activeProvider := ui_activeProvider u; ui_userCode := ui_userCode u;
     ui_verificationUrl := ui_verificationUrl u; ui_authUrl := ui_authUrl u |}.

(** [window.clearInterval(timer); delete timers.current[key]] *)
Definition stop_polling (timer : positive) (key : string) (b : Browser) : Browser :=
  set_timers (delete key) (clearInterval timer b).

(** [startPolling(provider, state)] *)
Definition startPolling (provider state : string) (b : Browser) : Browser :=
  let b1 := match timers b !! provider with
            | Some old => clearInterval old b
            | None => b
            end in
  let '(timer, b2) :=
    setInterval {| p_kind := ProviderPolling provider; p_state := state;
                   p_delay := POLL_INTERVAL; authUrlOpened := false |} b1 in
  set_timers <[provider := timer]> b2.

(** [startKiroPolling(stateParam)] *)
Definition startKiroPolling (stateParam : string) (b : Browser) : Browser :=
  let timerKey := "kiro" in
  let b1 := match timers b !! timerKey with
            | Some old => clearInterval old b
            | None => b
            end in
  let '(timer, b2) :=
    setInterval {| p_kind := KiroPolling; p_state := stateParam;
                   p_delay := POLL_INTERVAL; authUrlOpened := false |} b1 in
  set_timers <[timerKey := timer]> b2.

(** The callback of [startPolling] after [await oauthApi.getAuthStatus]. *)
Definition provider_settled (provider : string) (timer : positive)
           (outcome : Outcome) (b : Browser) : Browser :=
  match outcome with
  | Resolved res =>
      if String.eqb (as_status res) "ok" then
        stop_polling timer provider
          (add_effect (Notify "success")
             (updateProviderState provider ui_success b))
      else if String.eqb (as_status res) "error" then
        stop_polling timer provider
          (add_effect (Notify "error")
             (updateProviderState provider (ui_failed (as_error res)) b))
      else b
  | Rejected message =>
      stop_polling timer provider
        (updateProviderState provider (ui_failed message) b)
  end.

Definition AUTH_URL_PREFIX : string := "auth_url|".

(** The first time an authorisation URL is seen by the callbacks of [timer]:
    it is shown and opened, and [authUrlOpened] is set. *)
Definition open_auth_url (timer : positive) (url : string) (b : Browser) : Browser :=
  match closures b !! timer with
  | Some c =>
      if authUrlOpened c then b
      else
        add_effect (WindowOpen url)
          (setKiroState (ui_auth_url url)
             (set_closure timer
                {| p_kind := p_kind c; p_state := p_state c; p_delay := p_delay c;
                   authUrlOpened := true |} b))
  | None => b
  end.

(** The callback of [startKiroPolling] after [await kiroApi.getAuthStatus]. *)
Definition kiro_settled (timer : positive) (outcome : Outcome) (b : Browser)
  : Browser :=
  let timerKey := "kiro" in
  match outcome with
  | Resolved res =>
      if String.eqb (as_status res) "ok" then
        stop_polling timer timerKey
          (add_effect (Notify "success") (setKiroState ui_success b))
      else if String.eqb (as_status res) "device_code" then
        setKiroState (ui_device_code (as_verification_url res) (as_user_code res)) b
      else if String.eqb (as_status res) "auth_url" && KiroApi.truthy_opt (as_url res) then
        open_auth_url timer (default "" (as_url res)) b
      else if String.eqb (as_status res) "error" then
        let errorStr := default "" (KiroApi.js_or (as_error res) (Some "")) in
        if startsWith errorStr AUTH_URL_PREFIX then
          open_auth_url timer (skip (String.length AUTH_URL_PREFIX) errorStr) b
        else
          stop_polling timer timerKey
            (add_effect (Notify "error")
               (setKiroState (ui_failed (as_error res)) b))
      else b
  | Rejected message =>
      stop_polling timer timerKey (setKiroState (ui_failed message) b)
  end.

(** An interval fires: its callback runs up to the [await], the status
    request is issued. An interval that was cleared does not fire. *)
Definition fire (timer : positive) (b : Browser) : Browser :=
  if bool_decide (timer ∈ intervals b) then
    match closures b !! timer with
    | Some c => add_effect (StatusRequest (p_state c))
                           (set_in_flight (in_flight b ++ [timer]) b)
    | None => b
    end
  else b.

(** The [n]-th awaited status request settles: the rest of the callback of
    its timer runs. *)
Definition settle (n : nat) (outcome : Outcome) (b : Browser) : Browser :=
  match in_flight b !! n with
  | Some timer =>
      let b1 := set_in_flight (delete n (in_flight b)) b in
      match closures b !! timer with
      | Some c =>
          match p_kind c with
          | ProviderPolling provider => provider_settled provider timer outcome b1
          | KiroPolling => kiro_settled timer outcome b1
          end
      | None => b1
      end
  | None => b
  end.

(** A click on a Kiro login button: [startKiroAuth(provider)] up to its
    [await]. The buttons are disabled while [kiroState.polling] is set. *)
Definition clickKiroLogin (provider : string) (b : Browser) : Browser :=
  if ui_polling (kiroState b) then b
  else
    add_effect (AuthRequest provider)
      (set_starting (starting b ++ [provider])
         (setKiroState (fun _ => ui_waiting provider) b)).

(** The rest of [startKiroAuth] once the login request has settled. *)
Definition kiroLoginSettled (n : nat) (outcome : StartOutcome) (b : Browser)
  : Browser :=
  match starting b !! n with
  | Some _ =>
      let b1 := set_starting (delete n (starting b)) b in
      match outcome with
      | StartResolved (Some res) =>
          let b2 := setKiroState (ui_started res) b1 in
          match sr_state res with
          | Some state => if truthy state then startKiroPolling state b2 else b2
          | None => b2
          end
      | StartResolved None =>
          add_effect (Notify "error")
            (setKiroState (ui_failed (Some "No response from server")) b1)
      | StartRejected message =>
          add_effect (Notify "error") (setKiroState (ui_failed message) b1)
      end
  | None => b
  end.

Definition step (b : Browser) (a : Action) : Browser :=
  match a with
  | StartPolling provider state => startPolling provider state b
  | StartKiroPolling stateParam => startKiroPolling stateParam b
  | Fire timer => fire timer b
  | Settle n outcome => settle n outcome b
  | ClickKiroLogin provider => clickKiroLogin provider b
  | KiroLoginSettled n outcome => kiroLoginSettled n outcome b
  end.

Definition run (actions : list Action) (b : Browser) : Browser :=
  fold_left step actions b.

(** The active intervals that poll under the provider key [key]. *)
Definition active_for (key : string) (b : Browser) : list positive :=
  List.filter
    (fun timer =>
       match closures b !! timer with
       | Some c => String.eqb (timer_key (p_kind c)) key
       | None => false
       end)
    (elements (intervals b)).

End OAuthPage.

(** ** [src/utils/kiro/stats.ts], the display helpers, and what the account
       card and the account table compute from them *)

(** The result of [getDaysUntilReset]: [null], a number of days, or [NaN]
    (the reset date is not a valid date). *)
Inductive DaysUntilReset :=
| NoReset
| Days (d : number)
| InvalidDays.

Module StatsView.
Import JsString Stats.
Local Open Scope Qc_scope.

Definition getStatusColor (status : string) : string :=
  if String.eqb status "active" || String.eqb status "正常" || String.eqb status "有效"
  then "green"
  else if String.eqb status "expired" then "orange"
  else if String.eqb status "banned" then "red"
  else "gray".

(** The integer part of a number, towards zero. *)
Definition truncate (x : number) : Z :=
  if decide (0 ≤ x) then Qfloor x else Qceiling x.

Definition MAX_TIME : number := Q2Qc (inject_Z 8640000000000000).

(** [new Date(n).getTime()] for a number [n]: the integer part of [n], or
    [NaN] ([None]) when [n] is beyond 8.64e15 milliseconds. *)
Definition Date_time (n : number) : option Z :=
  if decide (- MAX_TIME ≤ n) then
    if decide (n ≤ MAX_TIME) then Some (truncate n) else None
  else None.

Definition MS_PER_DAY : Z := 1000 * 60 * 60 * 24.

(** [Math.ceil((new Date(reset).getTime() - now) / (1000 * 60 * 60 * 24))] *)
Definition days_until (now : Z) (reset : number) : DaysUntilReset :=
  match Date_time reset with
  | Some resetDate =>
      let diffTime := (resetDate - now)%Z in
      Days (Q2Qc (inject_Z (Qceiling (inject_Z diffTime / inject_Z MS_PER_DAY))))
  | None => InvalidDays
  end.

(** A number is truthy when it is not 0. *)
Definition truthy_number (n : option number) : bool :=
  match n with
  | Some x => negb (bool_decide (x = 0))
  | None => false
  end.

(** [now] is [new Date().getTime()]. *)
Definition getDaysUntilReset (now : Z) (account : KiroAccountItem) : DaysUntilReset :=
  match ud ← usageData account; daysUntilReset ud with
  | Some d => Days d
  | None =>
      let reset := ud ← usageData account; nextDateReset ud in
      if truthy_number reset then days_until now (default 0 reset)
      else
        let breakdownReset := b ← getBreakdown account; bd_nextDateReset b in
        if truthy_number breakdownReset then days_until now (default 0 breakdownReset)
        else NoReset
  end.

(** [KiroAccountCard] and [KiroAccountTable]:
    [getUsagePercent(getUsed(account), getQuota(account))]. *)
Definition account_percent (account : KiroAccountItem) : option number :=
  getUsagePercent (getUsed account) (getQuota account).

(** [getUsageLevel] of the card. *)
Definition card_usage_level (percent : number) : string :=
  if decide (Q2Qc 80 < percent) then "critical"
  else if decide (Q2Qc 50 < percent) then "warning"
  else "normal".

(** [percent >= 0 ? `${Math.round(percent)}%` : '-'] *)
Definition card_percent_text (percent : number) : string :=
  if decide (0 ≤ percent)
  then ImportModal.decimal (Z.to_nat (Math_round percent)) +:+ "%"
  else "-".

(** [Math.max(a, b)] *)
Definition Math_max (a b : number) : number := if decide (a ≤ b) then b else a.

(** [Math.min(Math.max(percent, 0), 100)], the width of the quota bar. *)
Definition card_bar_width (percent : number) : number :=
  Math_min (Math_max percent 0) hundred.

(** [abnormalCount] of [KiroStatsHeader]. *)
Definition abnormalCount (stats : KiroAccountStats) : nat :=
  (expired stats + banned stats)%nat.

End StatsView.

(** ** [src/services/api/kiro.ts]: reading one account and exporting *)

(** An entry of the export of [exportAccounts]. *)
Record ExportedAccount := {
  ex_id : string;
  ex_email : string;
  ex_label : option string;
  ex_provider : string;
  ex_authMethod : string;
  ex_status : string;
  ex_expiresAt : option string;
  ex_region : option string;
  ex_createdAt : option string;
  ex_updatedAt : option string
}.

Module KiroApiRead.
Import JsString KiroApi.

(** The entry of the export for an account: the sensitive properties are
    left out. *)
Definition exported (account : KiroAccountItem) : ExportedAccount :=
  {| ex_id := id account; ex_email := email account; ex_label := label account;
     ex_provider := provider account; ex_authMethod := authMethod account;
     ex_status := status account; ex_expiresAt := expiresAt account;
     ex_region := region account; ex_createdAt := createdAt account;
     ex_updatedAt := updatedAt account |}.

(** [ids?.length ? accounts.filter((a) => ids.includes(a.id)) : accounts] *)
Definition toExport (ids : option (list string)) (accounts : list KiroAccountItem)
  : list KiroAccountItem :=
  match ids with
  | Some (i :: rest) =>
      List.filter (fun a => bool_decide (id a ∈ i :: rest)) accounts
  | _ => accounts
  end.

Section Backend.
Context {World Response Err : Type}.
Local Abbreviation M := (Async World Err).
Local Open Scope async_scope.

Variable backend_get : string -> World -> (Err + Response) * World.
Variable encodeURIComponent : string -> string.
Variable files_of : Response -> option (list AuthFileItem).
Variable content_of : Response -> option Content.
Variable Date_parse : string -> option Z.
Variable clock : World -> Z.
(** [JSON.stringify(exportData, null, 2)] *)
Variable JSON_stringify_export : list ExportedAccount -> string.

(** [None] is the [null] of the [catch] branch. *)
Definition getAccount (id : string) : M (option KiroAccountItem) :=
  let fileName := fileName_of_id id in
  AsyncM.try_catch
    (let* content := apiClient_get backend_get (auth_file_url encodeURIComponent fileName) in
     fun c =>
       AsyncM.ret
         (parseKiroAuthFile Date_parse (clock (world c)) fileName
                            (default empty_content (content_of content))) c)
    (fun _ => AsyncM.ret None).

(** [account?.usageData || null] *)
Definition getAccountUsage (id : string) : M (option KiroUsageData) :=
  let* account := getAccount id in
  AsyncM.ret (a ← account; usageData a).

Definition exportAccounts (ids : option (list string)) : M string :=
  let* accounts := getAccounts backend_get files_of in
  AsyncM.ret (JSON_stringify_export (map exported (toExport ids accounts))).

End Backend.
End KiroApiRead.

(** ** [src/pages/KiroPage.tsx]: the handlers of the page *)

Inductive StatusFilter :=
| FilterAll
| FilterActive
| FilterAbnormal
| FilterExpired
| FilterBanned.

Inductive DeleteTargetType :=
| DeleteSingle
| DeleteBatch
| DeleteExpired
| DeleteAbnormal.

Record DeleteTarget := {
  dt_type : DeleteTargetType;
  dt_id : option string
}.

(** A call of [showNotification]: the message (the key of the translation,
    or the text itself), the number given to the translation ([count], or
    [success] for a refresh of all accounts), and the kind. *)
Record Notification := {
  n_message : string;
  n_count : option nat;
  n_kind : string
}.

(** The state of the page component around the cached account list. *)
Record PageUi := {
  page : Page;
  loading : bool;
  refreshingId : option string;
  refreshingAll : bool;
  selectedIds : list string;
  deleteModalOpen : bool;
  deleteTarget : option DeleteTarget;
  statusFilter : StatusFilter;
  notifications : list Notification
}.

(** How a usage request settles: rejected with an error (its message, or
    its string form), or resolved with a response. *)
Inductive UsageOutcome :=
| UsageRejected (errorMsg : string)
| UsageResolved (usage : KiroUsageResponse).

Module KiroPageHandlers.
Import JsString KiroPage.

Definition filteredAccounts (statusFilter : StatusFilter)
           (accounts : list KiroAccountItem) : list KiroAccountItem :=
  match statusFilter with
  | FilterAll => accounts
  | FilterActive => List.filter (fun a => String.eqb (status a) "active") accounts
  | FilterAbnormal =>
      List.filter (fun a => String.eqb (status a) "expired" ||
                            String.eqb (status a) "banned") accounts
  | FilterExpired => List.filter (fun a => String.eqb (status a) "expired") accounts
  | FilterBanned => List.filter (fun a => String.eqb (status a) "banned") accounts
  end.

Definition set_page (p : Page) (ui : PageUi) : PageUi :=
  {| page := p; loading := loading ui; refreshingId := refreshingId ui;
     refreshingAll := refreshingAll ui; selectedIds := selectedIds ui;
     deleteModalOpen := deleteModalOpen ui; deleteTarget := deleteTarget ui;
     statusFilter := statusFilter ui; notifications := notifications ui |}.

Definition setLoading (b : bool) (ui : PageUi) : PageUi :=
  {| page := page ui; loading := b; refreshingId := refreshingId ui;
     refreshingAll := refreshingAll ui; selectedIds := selectedIds ui;
     deleteModalOpen := deleteModalOpen ui; deleteTarget := deleteTarget ui;
     statusFilter := statusFilter ui; notifications := notifications ui |}.

Definition setRefreshingId (r : option string) (ui : PageUi) : PageUi :=
  {| page := page ui; loading := loading ui; refreshingId := r;
     refreshingAll := refreshingAll ui; selectedIds := selectedIds ui;
     deleteModalOpen := deleteModalOpen ui; deleteTarget := deleteTarget ui;
     statusFilter := statusFilter ui; notifications := notifications ui |}.

Definition setRefreshingAll (b : bool) (ui : PageUi) : PageUi :=
  {| page := page ui; loading := loading ui; refreshingId := refreshingId ui;
     refreshingAll := b; selectedIds := selectedIds ui;
     deleteModalOpen := deleteModalOpen ui; deleteTarget := deleteTarget ui;
     statusFilter := statusFilter ui; notifications := notifications ui |}.

Definition setSelectedIds (ids : list string) (ui : PageUi) : PageUi :=
  {| page := page ui; loading := loading ui; refreshingId := refreshingId ui;
     refreshingAll := refreshingAll ui; selectedIds := ids;
     deleteModalOpen := deleteModalOpen ui; deleteTarget := deleteTarget ui;
     statusFilter := statusFilter ui; notifications := notifications ui |}.

Definition setDeleteModalOpen (b : bool) (ui : PageUi) : PageUi :=
  {| page := page ui; loading := loading ui; refreshingId := refreshingId ui;
     refreshingAll := refreshingAll ui; selectedIds := selectedIds ui;
     deleteModalOpen := b; deleteTarget := deleteTarget ui;
     statusFilter := statusFilter ui; notifications := notifications ui |}.

Definition setDeleteTarget (t : option DeleteTarget) (ui : PageUi) : PageUi :=
  {| page := page ui; loading := loading ui; refreshingId := refreshingId ui;
     refreshingAll := refreshingAll ui; selectedIds := selectedIds ui;
     deleteModalOpen := deleteModalOpen ui; deleteTarget := t;
     statusFilter := statusFilter ui; notifications := notifications ui |}.

Definition setStatusFilter (f : StatusFilter) (ui : PageUi) : PageUi :=
  {| page := page ui; loading := loading ui; refreshingId := refreshingId ui;
     refreshingAll := refreshingAll ui; selectedIds := selectedIds ui;
     deleteModalOpen := deleteModalOpen ui; deleteTarget := deleteTarget ui;
     statusFilter := f; notifications := notifications ui |}.

Definition showNotification (message : string) (count : option nat) (kind : string)
           (ui : PageUi) : PageUi :=
  {| page := page ui; loading := loading ui; refreshingId := refreshingId ui;
     refreshingAll := refreshingAll ui; selectedIds := selectedIds ui;
     deleteModalOpen := deleteModalOpen ui; deleteTarget := deleteTarget ui;
     statusFilter := statusFilter ui;
     notifications :=
       notifications ui ++ [ {| n_message := message; n_count := count;
                                n_kind := kind |} ] |}.

(** The state of the component when it is first rendered on the page [p]. *)
Definition initialUi (p : Page) : PageUi :=
  {| page := p; loading := true; refreshingId := None; refreshingAll := false;
     selectedIds := []; deleteModalOpen := false; deleteTarget := None;
     statusFilter := FilterAll; notifications := [] |}.

(** [setAccounts(cachedAccounts); setStats(cachedStats)] *)
Definition show_cache (p : Page) : Page :=
  {| cachedAccounts := cachedAccounts p; cachedStats := cachedStats p;
     localStorage := localStorage p;
     st_accounts := cachedAccounts p; st_stats := cachedStats p |}.

Definition handleSelect (id : string) (selected : bool) (ui : PageUi) : PageUi :=
  setSelectedIds
    (if selected then selectedIds ui ++ [id]
     else List.filter (fun i => negb (String.eqb i id)) (selectedIds ui))
    ui.

Definition handleSelectAll (selected : bool) (ui : PageUi) : PageUi :=
  setSelectedIds
    (if selected
     then map id (filteredAccounts (statusFilter ui) (st_accounts (page ui)))
     else [])
    ui.

Definition handleFilterByStatus (status : StatusFilter) (ui : PageUi) : PageUi :=
  setSelectedIds [] (setStatusFilter status ui).

Definition handleDeleteClick (id : string) (ui : PageUi) : PageUi :=
  setDeleteModalOpen true
    (setDeleteTarget (Some {| dt_type := DeleteSingle; dt_id := Some id |}) ui).

Definition handleBatchDeleteClick (ui : PageUi) : PageUi :=
  if (length (selectedIds ui) =? 0)%nat then ui
  else setDeleteModalOpen true
         (setDeleteTarget (Some {| dt_type := DeleteBatch; dt_id := None |}) ui).

Definition handleDeleteExpired (ui : PageUi) : PageUi :=
  if (expired (st_stats (page ui)) =? 0)%nat then ui
  else setDeleteModalOpen true
         (setDeleteTarget (Some {| dt_type := DeleteExpired; dt_id := None |}) ui).

Definition handleDeleteAbnormal (ui : PageUi) : PageUi :=
  let abnormalCount := (expired (st_stats (page ui)) + banned (st_stats (page ui)))%nat in
  if (abnormalCount =? 0)%nat then ui
  else setDeleteModalOpen true
         (setDeleteTarget (Some {| dt_type := DeleteAbnormal; dt_id := None |}) ui).

(** The [count] that [getDeleteModalMessage] gives the text of the
    confirmation dialog; the text for a single account has none. *)
Definition getDeleteModalCount (ui : PageUi) : option nat :=
  match deleteTarget ui with
  | None => None
  | Some target =>
      match dt_type target with
      | DeleteSingle => None
      | DeleteBatch => Some (length (selectedIds ui))
      | DeleteExpired => Some (expired (st_stats (page ui)))
      | DeleteAbnormal =>
          Some (expired (st_stats (page ui)) + banned (st_stats (page ui)))%nat
      end
  end.

Section Handlers.
Context {World Response Err : Type}.
Variable JSON_stringify : list KiroAccountItem -> option string.
Variable backend_get : string -> World -> (Err + Response) * World.
Variable backend_delete : string -> World -> (Err + Response) * World.
Variable encodeURIComponent : string -> string.
Variable files_of : Response -> option (list AuthFileItem).
(** The outcome of [kiroApi.getKiroUsage(fileName)] in [handleRefresh]. *)
Variable getKiroUsage : string -> UsageOutcome.
(** The outcome of the usage request that [fetchUsageForAccounts] issues for
    position [idx] of its list; [None] is a rejected promise. *)
Variable getKiroUsageAt : nat -> string -> option KiroUsageResponse.

Local Abbreviation updateCache := (updateCache JSON_stringify).

(** [loadAccounts(forceRefresh)] *)
Definition loadAccounts (forceRefresh : bool) (ui : PageUi) (c : Client World)
  : PageUi * Client World :=
  if negb forceRefresh && (0 <? length (cachedAccounts (page ui)))%nat then
    (setLoading false (set_page (show_cache (page ui)) ui), c)
  else
    let ui1 := setLoading true ui in
    match KiroApi.getAccounts backend_get files_of c with
    | (inr data, c') => (setLoading false (set_page (updateCache data (page ui1)) ui1), c')
    | (inl _, c') =>
        (setLoading false (showNotification "common.error" None "error" ui1), c')
    end.

(** The effect that runs when the page is mounted. *)
Definition mount (ui : PageUi) (c : Client World) : PageUi * Client World :=
  loadAccounts ((length (cachedAccounts (page ui)) =? 0)%nat) ui c.

(** [accounts.map(a => a.id === id ? f(a) : a)] *)
Definition update_account (id0 : string) (f : KiroAccountItem -> KiroAccountItem)
           (accounts : list KiroAccountItem) : list KiroAccountItem :=
  map (fun a => if String.eqb (id a) id0 then f a else a) accounts.

(** [handleRefresh(id)] *)
Definition handleRefresh (id0 : string) (ui : PageUi) : PageUi :=
  let accounts := st_accounts (page ui) in
  let ui1 := setRefreshingId (Some id0) ui in
  let refreshed := showNotification "kiro.notification.refreshed" None "success" in
  let ui2 :=
    match List.find (fun a => String.eqb (id a) id0) accounts with
    | Some account =>
        match fileName account with
        | Some f =>
            if truthy f then
              match getKiroUsage f with
              | UsageResolved usage =>
                  if String.eqb (u_status usage) "ok" then
                    refreshed
                      (set_page (updateCache (update_account id0 (with_usage usage) accounts)
                                             (page ui1)) ui1)
                  else if String.eqb (u_status usage) "banned" then
                    refreshed
                      (set_page (updateCache (update_account id0 (with_status "banned") accounts)
                                             (page ui1)) ui1)
                  else if String.eqb (u_status usage) "expired" ||
                          match u_error usage with
                          | Some e => includes e "expired"
                          | None => false
                          end
                  then
                    refreshed
                      (set_page (updateCache (update_account id0 (with_status "expired") accounts)
                                             (page ui1)) ui1)
                  else refreshed ui1
              | UsageRejected errorMsg =>
                  if includes errorMsg "403" || includes errorMsg "401" then
                    showNotification "Token 已过期" None "error"
                      (set_page (updateCache (update_account id0 (with_status "expired") accounts)
                                             (page ui1)) ui1)
                  else showNotification "common.error" None "error" ui1
              end
            else refreshed ui1
        | None => refreshed ui1
        end
    | None => refreshed ui1
    end in
  setRefreshingId None ui2.

(** [handleRefreshAll()]: the notification counts every shown account as
    a success. *)
Definition handleRefreshAll (ui : PageUi) : PageUi :=
  let accounts := st_accounts (page ui) in
  let ui1 := setRefreshingAll true ui in
  let '(_, p, _) :=
    fetchUsageForAccounts JSON_stringify getKiroUsageAt accounts (page ui1) in
  setRefreshingAll false
    (showNotification "kiro.notification.allRefreshed" (Some (length accounts))
                      "success" (set_page p ui1)).

(** [handleImportComplete()] *)
Definition handleImportComplete (ui : PageUi) (c : Client World)
  : PageUi * Client World :=
  loadAccounts true ui c.

(** [handleDeleteConfirm()] *)
Definition handleDeleteConfirm (ui : PageUi) (c : Client World)
  : PageUi * Client World :=
  match deleteTarget ui with
  | None => (ui, c)
  | Some target =>
      let accounts := st_accounts (page ui) in
      let deleteMany (ids : list string) (clearSelection : bool) :=
        match KiroApi.deleteAccounts backend_delete encodeURIComponent ids c with
        | (inr _, c1) =>
            let ui1 := showNotification "kiro.notification.batchDeleted"
                                        (Some (length ids)) "success" ui in
            (inr (if clearSelection then setSelectedIds [] ui1 else ui1), c1)
        | (inl e, c1) => (inl e, c1)
        end in
      let '(r, c1) :=
        match dt_type target, dt_id target with
        | DeleteSingle, Some id0 =>
            if truthy id0 then
              match KiroApi.deleteAccount backend_delete encodeURIComponent id0 c with
              | (inr _, c1) =>
                  (inr (showNotification "kiro.notification.deleted" None "success" ui), c1)
              | (inl e, c1) => (inl e, c1)
              end
            else (inr ui, c)
        | DeleteSingle, None => (inr ui, c)
        | DeleteBatch, _ => deleteMany (selectedIds ui) true
        | DeleteExpired, _ =>
            deleteMany
              (map id (List.filter (fun a => String.eqb (status a) "expired") accounts))
              false
        | DeleteAbnormal, _ =>
            deleteMany
              (map id (List.filter (fun a => String.eqb (status a) "expired" ||
                                             String.eqb (status a) "banned") accounts))
              false
        end in
      let '(ui2, c2) :=
        match r with
        | inr ui1 => loadAccounts true (setStatusFilter FilterAll ui1) c1
        | inl _ => (showNotification "common.error" None "error" ui, c1)
        end in
      (setDeleteTarget None (setDeleteModalOpen false ui2), c2)
  end.

End Handlers.
End KiroPageHandlers.

(** ** [src/components/kiro/KiroAccountList.tsx]: search and pages *)

Inductive ViewMode :=
| CardView
| TableView.

(** The state of the list component; [currentPage] starts at 1. *)
Record ListState := {
  searchTerm : string;
  currentPage : nat;
  viewMode : ViewMode
}.

Module AccountList.
Import JsString.

Definition initialList : ListState :=
  {| searchTerm := ""; currentPage := 1; viewMode := CardView |}.

Definition pageSize (viewMode : ViewMode) : nat :=
  match viewMode with
  | CardView => 15
  | TableView => 20
  end.

(** [filteredAccounts]: the accounts that match the search term. *)
Definition filteredAccounts (searchTerm : string) (accounts : list KiroAccountItem)
  : list KiroAccountItem :=
  if blank searchTerm then accounts
  else
    let term := toLowerCase searchTerm in
    List.filter
      (fun a =>
         includes (toLowerCase (email a)) term ||
         match label a with
         | Some l => truthy l && includes (toLowerCase l) term
         | None => false
         end)
      accounts.

(** [Math.ceil(n / pageSize)], for a page size that is not 0. *)
Definition ceil_div (n pageSize : nat) : nat := (n + pageSize - 1) / pageSize.

(** [Math.ceil(filteredAccounts.length / pageSize) || 1] *)
Definition totalPages (st : ListState) (accounts : list KiroAccountItem) : nat :=
  let n := ceil_div (length (filteredAccounts (searchTerm st) accounts))
                    (pageSize (viewMode st)) in
  if (n =? 0)%nat then 1 else n.

(** [l.slice(start, end)] for indices that are not negative. *)
Definition slice {A} (l : list A) (start stop : nat) : list A :=
  take (stop - start) (drop start l).

(** [filteredAccounts.slice((currentPage - 1) * pageSize, currentPage * pageSize)].
    At [currentPage = 0] the source slices from a negative index up to 0,
    which is empty, as is the slice from 0 to 0 here. *)
Definition paginatedAccounts (st : ListState) (accounts : list KiroAccountItem)
  : list KiroAccountItem :=
  let size := pageSize (viewMode st) in
  slice (filteredAccounts (searchTerm st) accounts)
        ((currentPage st - 1) * size) (currentPage st * size).

(** [paginatedAccounts.length > 0 &&
     paginatedAccounts.every((a) => selectedIds.includes(a.id))] *)
Definition allSelected (st : ListState) (accounts : list KiroAccountItem)
           (selectedIds : list string) : bool :=
  (0 <? length (paginatedAccounts st accounts))%nat &&
  forallb (fun a => bool_decide (id a ∈ selectedIds)) (paginatedAccounts st accounts).

(** The search box changes: the list goes back to its first page. *)
Definition onSearch (value : string) (st : ListState) : ListState :=
  {| searchTerm := value; currentPage := 1; viewMode := viewMode st |}.

Definition setViewMode (mode : ViewMode) (st : ListState) : ListState :=
  {| searchTerm := searchTerm st; currentPage := currentPage st; viewMode := mode |}.

(** The two page buttons are rendered when there is more than one page;
    the first is disabled on page 1, the second on the last page. *)
Definition onPrev (st : ListState) (accounts : list KiroAccountItem) : ListState :=
  if (1 <? totalPages st accounts)%nat && negb (currentPage st =? 1)%nat
  then {| searchTerm := searchTerm st; currentPage := currentPage st - 1;
          viewMode := viewMode st |}
  else st.

Definition onNext (st : ListState) (accounts : list KiroAccountItem) : ListState :=
  if (1 <? totalPages st accounts)%nat
     && negb (currentPage st =? totalPages st accounts)%nat
  then {| searchTerm := searchTerm st; currentPage := currentPage st + 1;
          viewMode := viewMode st |}
  else st.

End AccountList.

(** ** [src/pages/OAuthPage.tsx]: leaving the page, and the manual import *)

(** How the request of the manual import of the Kiro token settles. *)
Inductive ImportTokenOutcome :=
| ImportTokenRejected (message : option string)
| ImportTokenResolved (status : string) (error : option string).

Module OAuthCleanup.
Import OAuthPage.

(** [Object.values(timers.current).forEach((timer) => window.clearInterval(timer))].
    The order in which the timers are cleared is that of the list of the
    map, not that of the insertions; clearing is the removal of an id from a
    set, so any order gives the same page. *)
Definition clear_registered (b : Browser) : Browser :=
  foldr clearInterval b (map_to_list (timers b)).*2.

(** The cleanup of the effect that runs when the page is unmounted. *)
Definition unmount (b : Browser) : Browser := clear_registered b.

(** The click handler of the manual import once
    [await kiroApi.importKiroIDEToken()] has settled. *)
Definition manualImportSettled (outcome : ImportTokenOutcome) (b : Browser)
  : Browser :=
  match outcome with
  | ImportTokenResolved status error =>
      if String.eqb status "ok" then
        set_timers (fun _ => ∅)
          (clear_registered
             (add_effect (Notify "success") (setKiroState ui_success b)))
      else add_effect (Notify "error") b
  | ImportTokenRejected _ => add_effect (Notify "error") b
  end.

End OAuthCleanup.

(** ** [src/components/kiro/KiroImportModal.tsx]: the phases of the import *)

Inductive ImportPhase :=
| PhaseUpload
| PhasePreview
| PhaseImporting
| PhaseComplete.

(** [KiroBatchImportResult] *)
Record BatchImportResult := {
  bir_email : string;
  bir_provider : string;
  bir_status : string;
  bir_error : option string
}.

(** The part of [KiroBatchImportResponse] that [handleImport] reads. *)
Record BatchImportResponse := {
  bi_results : option (list BatchImportResult);
  bi_success : option number;
  bi_duplicate : option number
}.

(** How [kiroApi.importKiroAccounts] settles: rejected (with the text that
    the [catch] branch shows), resolved with a value that is not an object,
    or resolved with a response. *)
Inductive ImportOutcome :=
| ImportRejected (msg : string)
| ImportNoObject
| ImportResolved (response : BatchImportResponse).

(** A notification of the modal: the text around the number, the number
    that the text holds, and the kind. *)
Record ModalNotification := {
  mn_text : string;
  mn_number : option number;
  mn_kind : string
}.

Record ModalState := {
  phase : ImportPhase;
  jsonText : string;
  parseResult : option ParseResult;
  progress : number;
  importResults : option (list BatchImportResult);
  selectedFile : option string;       (* the [fileName] state *)
  shown : list ModalNotification;
  completions : nat                   (* calls of [onImportComplete] *)
}.

Module ImportFlow.
Import JsString ImportModal.
Local Open Scope Qc_scope.

Definition initialModal : ModalState :=
  {| phase := PhaseUpload; jsonText := ""; parseResult := None; progress := 0;
     importResults := None; selectedFile := None; shown := []; completions := 0 |}.

(** The effect on [open]: 300 ms after the modal is closed its state is
    reset; the notifications are not part of it. *)
Definition closed (st : ModalState) : ModalState :=
  {| phase := PhaseUpload; jsonText := ""; parseResult := None; progress := 0;
     importResults := None; selectedFile := None; shown := shown st;
     completions := completions st |}.

(** [result && result.valid.length > 0] *)
Definition has_valid (result : option ParseResult) : bool :=
  match result with
  | Some r => (0 <? length (valid r))%nat
  | None => false
  end.

Definition count_status (status : string) (results : option (list BatchImportResult))
  : nat :=
  match results with
  | Some l => length (List.filter (fun r => String.eqb (bir_status r) status) l)
  | None => 0
  end.

(** [importResults?.filter(r => r.status === 'success').length || 0] and
    its two neighbours. *)
Definition successCount (st : ModalState) : nat :=
  count_status "success" (importResults st).

Definition duplicateCount (st : ModalState) : nat :=
  count_status "duplicate" (importResults st).

Definition failedCount (st : ModalState) : nat :=
  count_status "failed" (importResults st).

Definition handleBack (st : ModalState) : ModalState :=
  {| phase := PhaseUpload; jsonText := jsonText st; parseResult := None;
     progress := progress st; importResults := importResults st;
     selectedFile := None; shown := shown st; completions := completions st |}.

Definition notify (text : string) (number : option number) (kind : string)
           (st : ModalState) : ModalState :=
  {| phase := phase st; jsonText := jsonText st; parseResult := parseResult st;
     progress := progress st; importResults := importResults st;
     selectedFile := selectedFile st;
     shown := shown st ++ [ {| mn_text := text; mn_number := number;
                               mn_kind := kind |} ];
     completions := completions st |}.

(** [handleImport()] from its first line to the end of the [try] or the
    [catch]; in between, the progress bar moves by random steps up to 90. *)
Definition handleImport (outcome : ImportOutcome) (st : ModalState) : ModalState :=
  if negb (has_valid (parseResult st)) then st
  else
    let failed (msg : string) :=
      notify msg None "error"
        {| phase := PhasePreview; jsonText := jsonText st;
           parseResult := parseResult st; progress := 0;
           importResults := importResults st; selectedFile := selectedFile st;
           shown := shown st; completions := completions st |} in
    match outcome with
    | ImportRejected msg => failed msg
    | ImportNoObject => failed "服务器返回了无效的响应"
    | ImportResolved response =>
        let results := default [] (bi_results response) in
        let successNum :=
          default (Q2Qc (inject_Z (Z.of_nat (count_status "success" (Some results)))))
                  (bi_success response) in
        let duplicateNum :=
          default (Q2Qc (inject_Z (Z.of_nat (count_status "duplicate" (Some results)))))
                  (bi_duplicate response) in
        let st1 :=
          {| phase := PhaseComplete; jsonText := jsonText st;
             parseResult := parseResult st; progress := Stats.hundred;
             importResults := Some results; selectedFile := selectedFile st;
             shown := shown st; completions := completions st |} in
        if decide (0 < successNum) then
          let st2 := notify "成功导入 个账号" (Some successNum) "success" st1 in
          {| phase := phase st2; jsonText := jsonText st2;
             parseResult := parseResult st2; progress := progress st2;
             importResults := importResults st2; selectedFile := selectedFile st2;
             shown := shown st2; completions := S (completions st2) |}
        else if decide (0 < duplicateNum) then
          notify " 个账号已存在" (Some duplicateNum) "warning" st1
        else notify "导入完成" None "info" st1
    end.

Section Parse.
Variable JSON_parse : string -> option json.

(** What [handlePaste] and the [onload] of the file reader do with a text. *)
Definition accept_text (text : string) (st : ModalState) : ModalState :=
  let result := parseJson JSON_parse text in
  {| phase := if has_valid result then PhasePreview else phase st;
     jsonText := text; parseResult := result; progress := progress st;
     importResults := importResults st; selectedFile := selectedFile st;
     shown := shown st; completions := completions st |}.

Definition handlePaste (text : string) (st : ModalState) : ModalState :=
  accept_text text st.

(** [handleFileSelect(file)], the file being read at once. *)
Definition handleFileSelect (name text : string) (st : ModalState) : ModalState :=
  accept_text text
    {| phase := phase st; jsonText := jsonText st; parseResult := parseResult st;
       progress := progress st; importResults := importResults st;
       selectedFile := Some name; shown := shown st;
       completions := completions st |}.

(** [handleDrop]: only a file whose name ends with [.json] is read. *)
Definition handleDrop (name text : string) (st : ModalState) : ModalState :=
  if endsWith name ".json" then handleFileSelect name text st else st.

End Parse.
End ImportFlow.

(** * Reference definitions used in the statements *)

Module Reference.
Import JsString Stats.

(** The quota total by recursion on the account list: an account counts
    when its [getQuota] value is at least 0. *)
Fixpoint quota_sum (accounts : list KiroAccountItem) : number :=
  match accounts with
  | [] => 0%Qc
  | a :: rest =>
      if nonneg (getQuota a) then (getQuota a + quota_sum rest)%Qc else quota_sum rest
  end.

(** The usage total over the same accounts: an account contributes its
    [getUsed] value when that is at least 0, and 0 otherwise. *)
Fixpoint used_sum (accounts : list KiroAccountItem) : number :=
  match accounts with
  | [] => 0%Qc
  | a :: rest =>
      if nonneg (getQuota a)
      then ((if nonneg (getUsed a) then getUsed a else 0) + used_sum rest)%Qc
      else used_sum rest
  end.

(** [m] is a merge of [l] and [r]: every element of [m] comes from [l] or
    from [r], and each of the two keeps its order. *)
Inductive Interleave {A : Type} : list A -> list A -> list A -> Prop :=
| interleave_nil : Interleave [] [] []
| interleave_left x l r m : Interleave l r m -> Interleave (x :: l) r (x :: m)
| interleave_right x l r m : Interleave l r m -> Interleave l (x :: r) (x :: m).

(** A file name without its [.json] suffix. *)
Definition strip_json_suffix (name : string) : string :=
  if endsWith name ".json"
  then substring 0 (String.length name - String.length ".json") name
  else name.

(** The request that deletes the auth file of the account [id]. *)
Definition delete_request (encodeURIComponent : string -> string) (id : string)
  : Request :=
  DELETE (KiroApi.auth_file_url encodeURIComponent (KiroApi.fileName_of_id id)).

(** [result.success && result.account] *)
Definition refresh_succeeded (result : KiroRefreshResponse) : bool :=
  rr_success result && bool_decide (is_Some (rr_account result)).

(** The entry for a listed account: the record that was read again when the
    refresh succeeded, the listed record otherwise. *)
Definition refreshed_entry (account : KiroAccountItem) (result : KiroRefreshResponse)
  : KiroAccountItem :=
  match rr_success result, rr_account result with
  | true, Some refreshed => refreshed
  | _, _ => account
  end.

(** One computation per element, one after the other. *)
Fixpoint mapM {World Err A B : Type} (f : A -> Async World Err B) (l : list A)
  : Async World Err (list B) :=
  match l with
  | [] => AsyncM.ret []
  | a :: rest =>
      AsyncM.bind (f a) (fun b =>
      AsyncM.bind (mapM f rest) (fun bs => AsyncM.ret (b :: bs)))
  end.

(** An account list is JSON-serializable when [JSON.stringify] gives a text
    for it that [JSON.parse] reads back as the same list. *)
Definition json_serializable
           (JSON_stringify : list KiroAccountItem -> option string)
           (JSON_parse : string -> option (list KiroAccountItem))
           (accounts : list KiroAccountItem) : Prop :=
  exists text, JSON_stringify accounts = Some text /\ JSON_parse text = Some accounts.

#[local] Instance FreeTrialInfo_eq_dec : EqDecision FreeTrialInfo.
Proof. solve_decision. Defined.
#[local] Instance Bonus_eq_dec : EqDecision Bonus.
Proof. solve_decision. Defined.
#[local] Instance KiroUsageBreakdown_eq_dec : EqDecision KiroUsageBreakdown.
Proof. solve_decision. Defined.
#[local] Instance KiroSubscriptionInfo_eq_dec : EqDecision KiroSubscriptionInfo.
Proof. solve_decision. Defined.
#[local] Instance KiroUserInfo_eq_dec : EqDecision KiroUserInfo.
Proof. solve_decision. Defined.
#[local] Instance KiroUsageData_eq_dec : EqDecision KiroUsageData.
Proof. solve_decision. Defined.
#[local] Instance KiroAccountItem_eq_dec : EqDecision KiroAccountItem.
Proof. solve_decision. Defined.

(** A sample account list and its JSON text. *)
Definition sample_accounts : list KiroAccountItem :=
  [ KiroApi.account_of_file
      {| af_name := "kiro-google-alice.json"; af_email := Some "alice@example.com";
         af_label := None; af_status := Some "active" |} ].

Definition quoted (s : string) : string :=
  let dq := String (ascii_of_nat 34) EmptyString in
  dq +:+ s +:+ dq.

Definition sample_text : string :=
  "[{" +:+ quoted "id" +:+ ":" +:+ quoted "kiro-google-alice" +:+ ","
       +:+ quoted "email" +:+ ":" +:+ quoted "alice@example.com" +:+ ","
       +:+ quoted "provider" +:+ ":" +:+ quoted "Google" +:+ ","
       +:+ quoted "authMethod" +:+ ":" +:+ quoted "social" +:+ ","
       +:+ quoted "status" +:+ ":" +:+ quoted "active" +:+ ","
       +:+ quoted "fileName" +:+ ":" +:+ quoted "kiro-google-alice.json" +:+ "}]".

(** [JSON.stringify] and [JSON.parse] cut down to the sample list: what they
    do on that list and on its text; everything else is refused. *)
Definition sample_stringify (accounts : list KiroAccountItem) : option string :=
  if decide (accounts = sample_accounts) then Some sample_text else None.

Definition sample_parse (text : string) : option (list KiroAccountItem) :=
  if String.eqb text sample_text then Some sample_accounts else None.

(** The entry at position [idx] once the usage request for it has settled:
    no request is made for an account without a file name, and a rejected
    request leaves the entry as it is. *)
Definition refreshed_account (getKiroUsage : nat -> string -> option KiroUsageResponse)
           (idx : nat) (account : KiroAccountItem) : KiroAccountItem :=
  match fileName account with
  | Some f =>
      if truthy f then
        match getKiroUsage idx f with
        | Some usage => KiroPage.apply_usage usage account
        | None => account
        end
      else account
  | None => account
  end.

(** The account list once the requests for the positions below [upto] have
    settled. *)
Definition refreshed_upto (getKiroUsage : nat -> string -> option KiroUsageResponse)
           (accountList : list KiroAccountItem) (upto : nat) : list KiroAccountItem :=
  imap (fun idx account =>
          if decide (idx < upto) then refreshed_account getKiroUsage idx account
          else account)
       accountList.

(** The number of batches of a list of [n] accounts. *)
Definition batch_count (n : nat) : nat :=
  (n + (KiroPage.BATCH_SIZE - 1)) / KiroPage.BATCH_SIZE.

(** The [k]-th batch: the next [BATCH_SIZE] accounts after the first
    [k * BATCH_SIZE]. *)
Definition batch_of (accountList : list KiroAccountItem) (k : nat)
  : list KiroAccountItem :=
  take KiroPage.BATCH_SIZE (drop (k * KiroPage.BATCH_SIZE) accountList).

(** What the [k]-th batch contributes to the trace: its requests, then the
    cache update with the list in which the positions below
    [(k + 1) * BATCH_SIZE] have settled. *)
Definition batch_trace (getKiroUsage : nat -> string -> option KiroUsageResponse)
           (accountList : list KiroAccountItem) (k : nat) : list Event :=
  KiroPage.batch_requests (batch_of accountList k) ++
  [EvUpdateCache
     (refreshed_upto getKiroUsage accountList ((k + 1) * KiroPage.BATCH_SIZE))].

(** Two records of one account: they agree on every property other than
    [status] and [usageData]. *)
Definition same_account (a r : KiroAccountItem) : Prop :=
  id a = id r /\ email a = email r /\ label a = label r /\
  provider a = provider r /\ authMethod a = authMethod r /\
  accessToken a = accessToken r /\ refreshToken a = refreshToken r /\
  profileArn a = profileArn r /\ expiresAt a = expiresAt r /\
  clientId a = clientId r /\ clientSecret a = clientSecret r /\
  clientIdHash a = clientIdHash r /\ region a = region r /\
  startUrl a = startUrl r /\ createdAt a = createdAt r /\
  updatedAt a = updatedAt r /\ lastRefreshedAt a = lastRefreshedAt r /\
  fileName a = fileName r /\ filePath a = filePath r.

(** Whether a polling callback is to clear its timer on an outcome: the
    status is [ok], the status is an [error] that ends the login (for Kiro,
    an error that does not carry an authorisation URL), or the request was
    rejected. *)
Definition clears (k : PollKind) (outcome : Outcome) : bool :=
  match outcome with
  | Rejected _ => true
  | Resolved res =>
      String.eqb (as_status res) "ok" ||
      (String.eqb (as_status res) "error" &&
       match k with
       | ProviderPolling _ => true
       | KiroPolling =>
           negb (startsWith (default "" (KiroApi.js_or (as_error res) (Some "")))
                            OAuthPage.AUTH_URL_PREFIX)
       end)
  end.

(** The page when every interval callback runs to its end before anything
    else happens: no status request is awaited across another action. *)
Inductive AtomicAction :=
| AStartPolling (provider state : string)
| AStartKiroPolling (stateParam : string)
| ATick (timer : positive) (outcome : Outcome)
| AClickKiroLogin (provider : string)
| AKiroLoginSettled (n : nat) (outcome : StartOutcome).

Definition atomic_step (b : Browser) (a : AtomicAction) : Browser :=
  match a with
  | AStartPolling provider state => OAuthPage.startPolling provider state b
  | AStartKiroPolling stateParam => OAuthPage.startKiroPolling stateParam b
  | ATick timer outcome =>
      OAuthPage.settle (length (in_flight b)) outcome (OAuthPage.fire timer b)
  | AClickKiroLogin provider => OAuthPage.clickKiroLogin provider b
  | AKiroLoginSettled n outcome => OAuthPage.kiroLoginSettled n outcome b
  end.

(** What holds of the timers between the actions of such a page: no status
    request is awaited, every active interval is the one registered in
    [timers.current] under the key of its closure, and the ids of the active
    intervals have been handed out already. *)
Record polling_invariant (b : Browser) : Prop := {
  inv_idle : in_flight b = [];
  inv_registered :
    forall t, t ∈ intervals b ->
      exists c, closures b !! t = Some c /\
                timers b !! OAuthPage.timer_key (p_kind c) = Some t;
  inv_fresh : forall t, t ∈ intervals b -> (t < next_timer b)%positive
}.

Definition status_ok : Outcome :=
  Resolved {| as_status := "ok"; as_error := None; as_url := None;
              as_verification_url := None; as_user_code := None |}.

Definition login_started (state : string) : StartOutcome :=
  StartResolved (Some {| sr_state := Some state; sr_url := None |}).

(** A Kiro login in which the first status response takes longer than the
    polling interval: timer 1 fires twice before the first response, the
    login succeeds, the user logs in again (timer 2), the second response of
    timer 1 arrives, and the user logs in once more (timer 3). *)
Definition kiro_stale_response : list Action :=
  [ ClickKiroLogin "google"; KiroLoginSettled 0 (login_started "s1");
    Fire 1; Fire 1; Settle 0 status_ok;
    ClickKiroLogin "google"; KiroLoginSettled 0 (login_started "s2");
    Settle 0 status_ok;
    ClickKiroLogin "google"; KiroLoginSettled 0 (login_started "s3") ].

(** The same for [startPolling] and the provider [codex]. *)
Definition provider_stale_response : list Action :=
  [ StartPolling "codex" "s1"; Fire 1; Fire 1; Settle 0 status_ok;
    StartPolling "codex" "s2"; Settle 0 status_ok;
    StartPolling "codex" "s3" ].

(** The [refreshToken] and the [email] of an entry; [None] when the entry
    is not an object or has no such property. *)
Definition refresh_token (account : json) : option json :=
  match account with
  | JObj fields => ImportModal.lookup_field "refreshToken" fields
  | _ => None
  end.

Definition entry_email (account : json) : option json :=
  match account with
  | JObj fields => ImportModal.lookup_field "email" fields
  | _ => None
  end.

(** An entry is valid when it has a [refreshToken] that starts with [aor]. *)
Definition has_valid_token (account : json) : bool :=
  match refresh_token account with
  | Some (JStr s) => startsWith s "aor"
  | _ => false
  end.

(** The entries that can be classified: not [null], and with a
    [refreshToken] that is absent, falsy, or a string. *)
Definition inspectable (account : json) : bool :=
  match account with
  | JNull => false
  | _ =>
      match refresh_token account with
      | Some (JStr _) => true
      | token => negb (ImportModal.truthy_json token)
      end
  end.

(** The entry of [invalid] for the account at [index]: the reason is
    [Missing refreshToken] when there is no (truthy) token, and
    [Invalid refreshToken] otherwise. *)
Definition invalid_entry (index : nat) (account : json) : InvalidEntry :=
  {| inv_index := Z.of_nat index;
     inv_reason := if ImportModal.truthy_json (refresh_token account)
                   then "Invalid refreshToken" else "Missing refreshToken";
     inv_email := if ImportModal.truthy_json (entry_email account)
                  then entry_email account
                  else Some (JStr ("#" +:+ ImportModal.decimal (index + 1))) |}.

(** The invalid entries of a list whose first entry has the index [index],
    in the order of the list. *)
Fixpoint invalid_from (index : nat) (accounts : list json) : list InvalidEntry :=
  match accounts with
  | [] => []
  | account :: rest =>
      (if has_valid_token account then [] else [invalid_entry index account])
      ++ invalid_from (S index) rest
  end.

(** The amended claim on [parseJson], as a function: no result for a blank
    text; one [Invalid JSON format] entry for a text that is not JSON or has
    an entry that cannot be classified; otherwise every entry is in [valid]
    or in [invalid], in input order. *)
Definition parseJson_amended (JSON_parse : string -> option json) (text : string)
  : option ParseResult :=
  if blank text then None
  else
    Some
      match JSON_parse text with
      | None => ImportModal.invalid_format
      | Some data =>
          let accounts := ImportModal.entries data in
          if forallb inspectable accounts
          then {| valid := List.filter has_valid_token accounts;
                  invalid := invalid_from 0 accounts |}
          else ImportModal.invalid_format
      end.

(** The claim on [parseJson] as it is stated, for one parser and one text. *)
Definition parseJson_as_stated (JSON_parse : string -> option json) (text : string)
  : Prop :=
  ImportModal.parseJson JSON_parse text =
  Some
    match JSON_parse text with
    | None => ImportModal.invalid_format
    | Some data =>
        {| valid := List.filter has_valid_token (ImportModal.entries data);
           invalid := invalid_from 0 (ImportModal.entries data) |}
    end.

(** [JSON.parse] on three texts: [null], an object whose [refreshToken] is
    the number 5, and an array of three accounts. Every other text is
    refused, as the blank text is. *)
Definition text_null : string := "null".
Definition text_number_token : string := "{" +:+ quoted "refreshToken" +:+ ":5}".
Definition text_three_accounts : string :=
  "[{" +:+ quoted "refreshToken" +:+ ":" +:+ quoted "aorABC" +:+ "},"
  +:+ "{" +:+ quoted "email" +:+ ":" +:+ quoted "bob@example.com" +:+ "},"
  +:+ "{" +:+ quoted "refreshToken" +:+ ":" +:+ quoted "xyz" +:+ "}]".

Definition sample_json_parse (text : string) : option json :=
  if String.eqb text text_null then Some JNull
  else if String.eqb text text_number_token
  then Some (JObj [("refreshToken", JNum (Q2Qc 5))])
  else if String.eqb text text_three_accounts
  then Some (JArr [ JObj [("refreshToken", JStr "aorABC")];
                    JObj [("email", JStr "bob@example.com")];
                    JObj [("refreshToken", JStr "xyz")] ])
  else None.

End Reference.

(** ** Sample inputs *)

Module Samples.

Definition alice_file : AuthFileItem :=
  {| af_name := "kiro-google-alice.json"; af_email := Some "alice@example.com";
     af_label := None; af_status := Some "active" |}.

(** The account that a listing holds for [alice_file]. *)
Definition alice : KiroAccountItem := KiroApi.account_of_file alice_file.

(** [alice] with the given usage data. *)
Definition alice_with (ud : KiroUsageData) : KiroAccountItem :=
  {| id := id alice; email := email alice; label := label alice;
     provider := provider alice; authMethod := authMethod alice;
     status := status alice;
     accessToken := None; refreshToken := None; profileArn := None;
     expiresAt := None; clientId := None; clientSecret := None;
     clientIdHash := None; region := None; startUrl := None;
     usageData := Some ud; createdAt := None; updatedAt := None;
     lastRefreshedAt := None; fileName := fileName alice; filePath := None |}.

(** Usage data that holds a reset time only. *)
Definition resets_at (reset : number) : KiroUsageData :=
  {| usageBreakdownList := None; usageBreakdown := None; subscriptionInfo := None;
     userInfo := None; overageConfiguration := None; daysUntilReset := None;
     nextDateReset := Some reset |}.

(** A usage response with status [ok] and a limit of 550. *)
Definition usage_ok : KiroUsageResponse :=
  {| u_status := "ok"; subscription_title := None; current_usage := None;
     usage_limit := Some (Q2Qc 550); next_reset := None; u_error := None |}.

(** A backend that rejects every request, and the client before its first
    request. *)
Definition offline (url : string) (w : unit) : (unit + unit) * unit := (inl tt, w).

Definition start : Client unit := {| world := tt; log := [] |}.

Definition aws_file : AuthFileItem :=
  {| af_name := "kiro-aws-bob.json"; af_email := None; af_label := None;
     af_status := None |}.

Definition expired_file : AuthFileItem :=
  {| af_name := "kiro-github-carol.json"; af_email := None; af_label := None;
     af_status := Some "expired" |}.

(** An expired account. *)
Definition carol : KiroAccountItem := KiroApi.account_of_file expired_file.

(** The page component showing the given accounts; nothing is stored. *)
Definition showing (accounts : list KiroAccountItem) : PageUi :=
  KiroPageHandlers.initialUi
    (KiroPage.updateCache (fun _ => None) accounts
                          (KiroPage.initialPage (fun _ => None) ∅)).

(** The same, after the button that deletes the expired accounts. *)
Definition deleting_expired (accounts : list KiroAccountItem) : PageUi :=
  KiroPageHandlers.handleDeleteExpired (showing accounts).

(** The same, after the delete button of the account [id]. *)
Definition deleting (id : string) (accounts : list KiroAccountItem) : PageUi :=
  KiroPageHandlers.handleDeleteClick id (showing accounts).

Definition resolves_ok (fileName : string) : UsageOutcome := UsageResolved usage_ok.

Definition rejects_401 (fileName : string) : UsageOutcome :=
  UsageRejected "Request failed with status code 401".

(** Sixteen accounts: two pages of cards, one page of table rows. *)
Definition sixteen : list KiroAccountItem := replicate 16 alice.

(** The login page after a click on the Google login of Kiro, and a
    response to the login request that carries no state. *)
Definition login_clicked : Browser := OAuthPage.clickKiroLogin "google" OAuthPage.initial.

Definition no_state : AuthStartResponse := {| sr_state := None; sr_url := None |}.

End Samples.

(** ** The account page as a state machine *)

(** What happens on the page: the component is mounted, or the user
    triggers one of its handlers. A refresh carries the outcome of the usage
    requests that it issues. *)
Inductive PageAction :=
| Mount
| Refresh (id : string) (outcome : string -> UsageOutcome)
| RefreshAll (outcome : nat -> string -> option KiroUsageResponse)
| DeleteClick (id : string)
| BatchDeleteClick
| DeleteExpiredClick
| DeleteAbnormalClick
| DeleteConfirm
| FilterBy (status : StatusFilter)
| Select (id : string) (selected : bool)
| SelectAll (selected : bool)
| ImportComplete.

Module PageSpec.
Import KiroPage KiroPageHandlers.

(** The statistics that the page holds are those of the accounts that it
    holds, in the cache and on display. *)
Definition stats_in_sync (p : Page) : Prop :=
  cachedStats p = Stats.calcAccountStats (cachedAccounts p) /\
  st_stats p = Stats.calcAccountStats (st_accounts p).

(** The accounts on display are the cached ones, once any are shown. *)
Definition shows_cache (p : Page) : Prop :=
  st_accounts p = [] \/ st_accounts p = cachedAccounts p.

Definition page_ok (p : Page) : Prop := stats_in_sync p /\ shows_cache p.

Section Run.
Context {World Response Err : Type}.
Variable JSON_stringify : list KiroAccountItem -> option string.
Variable backend_get : string -> World -> (Err + Response) * World.
Variable backend_delete : string -> World -> (Err + Response) * World.
Variable encodeURIComponent : string -> string.
Variable files_of : Response -> option (list AuthFileItem).

(** How a handler leaves the page: as it was, showing the cache, or after
    an [updateCache]. *)
Inductive page_written (p : Page) : Page -> Prop :=
| written_same : page_written p p
| written_show : page_written p (show_cache p)
| written_update l p0 : page_written p (updateCache JSON_stringify l p0).

Definition page_step (s : PageUi * Client World) (a : PageAction)
  : PageUi * Client World :=
  let '(ui, c) := s in
  match a with
  | Mount => mount JSON_stringify backend_get files_of ui c
  | Refresh id outcome => (handleRefresh JSON_stringify outcome id ui, c)
  | RefreshAll outcome => (handleRefreshAll JSON_stringify outcome ui, c)
  | DeleteClick id => (handleDeleteClick id ui, c)
  | BatchDeleteClick => (handleBatchDeleteClick ui, c)
  | DeleteExpiredClick => (handleDeleteExpired ui, c)
  | DeleteAbnormalClick => (handleDeleteAbnormal ui, c)
  | DeleteConfirm =>
      handleDeleteConfirm JSON_stringify backend_get backend_delete
                          encodeURIComponent files_of ui c
  | FilterBy status => (handleFilterByStatus status ui, c)
  | Select id selected => (handleSelect id selected ui, c)
  | SelectAll selected => (handleSelectAll selected ui, c)
  | ImportComplete => handleImportComplete JSON_stringify backend_get files_of ui c
  end.

Definition page_run (actions : list PageAction) (s : PageUi * Client World)
  : PageUi * Client World :=
  fold_left page_step actions s.

End Run.
End PageSpec.

(** ** The pages of the account list *)

Module ListSpec.
Import AccountList.

(** The list component on its page [k]. *)
Definition at_page (k : nat) (st : ListState) : ListState :=
  {| searchTerm := searchTerm st; currentPage := k; viewMode := viewMode st |}.

(** The pages that the component can show, from page 1 to the last one. *)
Definition pages (st : ListState) (accounts : list KiroAccountItem)
  : list (list KiroAccountItem) :=
  map (fun k => paginatedAccounts (at_page k st) accounts)
      (seq 1 (totalPages st accounts)).

(** The current page is one of the pages. *)
Definition on_a_page (st : ListState) (accounts : list KiroAccountItem) : Prop :=
  1 <= currentPage st <= totalPages st accounts.

End ListSpec.

(** ** Counting on the login page *)

Module OAuthSpec.

Definition is_window_open (e : Effect) : bool :=
  match e with
  | WindowOpen _ => true
  | _ => false
  end.

(** How often an authorisation page has been opened. *)
Definition opened_count (b : Browser) : nat :=
  length (List.filter is_window_open (effects b)).

(** The timers whose callbacks have opened an authorisation page. *)
Definition opened_timers (b : Browser) : gmap positive Poller :=
  filter (fun kv => authUrlOpened kv.2 = true) (closures b).

(** One page per such timer, and the ids of the timers created so far have
    been handed out. *)
Record open_invariant (b : Browser) : Prop := {
  open_fresh : forall t, is_Some (closures b !! t) -> (t < next_timer b)%positive;
  open_count : opened_count b = size (opened_timers b)
}.

End OAuthSpec.

(** ** The import modal as a state machine *)

(** What the user can do in the modal. The drop zone, the file input and
    the text area are rendered in the upload phase only, the two buttons
    [back] and [import] in the preview phase with a parse result only. *)
Inductive ModalAction :=
| Paste (text : string)
| PickFile (name text : string)
| DropFile (name text : string)
| Back
| Import (outcome : ImportOutcome)
| CloseModal.

Module ModalSpec.
Import ImportFlow.

Definition in_preview (st : ModalState) : bool :=
  match phase st, parseResult st with
  | PhasePreview, Some _ => true
  | _, _ => false
  end.

Definition in_upload (st : ModalState) : bool :=
  match phase st with
  | PhaseUpload => true
  | _ => false
  end.

Section Run.
Variable JSON_parse : string -> option json.

Definition modal_step (st : ModalState) (a : ModalAction) : ModalState :=
  match a with
  | Paste text => if in_upload st then handlePaste JSON_parse text st else st
  | PickFile name text =>
      if in_upload st then handleFileSelect JSON_parse name text st else st
  | DropFile name text =>
      if in_upload st then handleDrop JSON_parse name text st else st
  | Back => if in_preview st then handleBack st else st
  | Import outcome => if in_preview st then handleImport outcome st else st
  | CloseModal => closed st
  end.

Definition modal_run (actions : list ModalAction) : ModalState :=
  fold_left modal_step actions initialModal.

End Run.

(** What the phase says about the rest of the state. *)
Definition phase_consistent (st : ModalState) : Prop :=
  match phase st with
  | PhaseUpload => True
  | PhasePreview => exists r, parseResult st = Some r /\ valid r <> []
  | PhaseImporting => False
  | PhaseComplete =>
      is_Some (importResults st) /\ progress st = Stats.hundred
  end.

End ModalSpec.

(** * Account statistics *)

Section StatsFacts.
Import JsString Stats Reference.
Local Open Scope Qc_scope.

Lemma fold_left_sum_shift {A} (f : A -> number) (l : list A) (acc : number) :
  fold_left (fun sum a => sum + f a) l acc
  = acc + fold_left (fun sum a => sum + f a) l 0.
Proof.
  revert acc. induction l as [|a l IH]; intros acc; simpl.
  - ring.
  - rewrite IH, (IH (0 + f a)). ring.
Qed.

Lemma reduce_quota_sum (accounts : list KiroAccountItem) :
  fold_left (fun sum a => sum + getQuota a)
            (List.filter (fun a => nonneg (getQuota a)) accounts) 0
  = quota_sum accounts.
Proof.
  induction accounts as [|a l IH]; simpl; [reflexivity|].
  destruct (nonneg (getQuota a)); simpl; [|exact IH].
  rewrite fold_left_sum_shift, IH. ring.
Qed.

Lemma reduce_used_sum (accounts : list KiroAccountItem) :
  fold_left (fun sum a =>
               let used := getUsed a in sum + (if nonneg used then used else 0))
            (List.filter (fun a => nonneg (getQuota a)) accounts) 0
  = used_sum accounts.
Proof.
  induction accounts as [|a l IH]; simpl; [reflexivity|].
  destruct (nonneg (getQuota a)); simpl; [|exact IH].
  rewrite (fold_left_sum_shift (fun a => if nonneg (getUsed a) then getUsed a else 0)).
  simpl in IH. rewrite IH. ring.
Qed.


Lemma Math_min_le_l a b : Math_min a b ≤ a.
Proof.
  unfold Math_min. case_decide as H; [apply Qcle_refl|].
  by apply Qclt_le_weak, Qcnot_le_lt.
Qed.

Lemma Math_min_glb a b c : c ≤ a -> c ≤ b -> c ≤ Math_min a b.
Proof. unfold Math_min. case_decide; done. Qed.



Lemma filter_disjoint_length {A} (p q : A -> bool) (l : list A) :
  (forall a, p a && q a = false) ->
  (length (List.filter p l) + length (List.filter q l) <= length l)%nat.
Proof.
  intros Hpq. induction l as [|a l IH]; simpl; [lia|].
  specialize (Hpq a). destruct (p a), (q a); simpl in *; try discriminate; lia.
Qed.

Lemma filter_never {A} (p : A -> bool) (l : list A) :
  (forall a, p a = false) -> List.filter p l = [].
Proof.
  intros Hp. induction l as [|a l IH]; simpl; [reflexivity|]. by rewrite Hp.
Qed.

Lemma isProPlus_isPro (account : KiroAccountItem) :
  isProPlus account && isPro account = false.
Proof. unfold isPro. by destruct (isProPlus account). Qed.

(** C10. [isProPlus] and [isPro] are never both true of an account, so no
    account of a list is counted in both the [proPlus] and the [pro] total
    of [calcAccountStats]. *)
Theorem isPro_excludes_isProPlus
        (account : KiroAccountItem) (accounts : list KiroAccountItem) :
  isProPlus account && isPro account = false /\
  List.filter (fun a => isProPlus a && isPro a) accounts = [] /\
  proPlus (calcAccountStats accounts) = length (List.filter isProPlus accounts) /\
  pro (calcAccountStats accounts) = length (List.filter isPro accounts) /\
  (proPlus (calcAccountStats accounts) + pro (calcAccountStats accounts)
   <= total (calcAccountStats accounts))%nat.
Proof.
  split; [apply isProPlus_isPro|].
  split; [apply filter_never, isProPlus_isPro|].
  split; [reflexivity|]. split; [reflexivity|].
  apply (filter_disjoint_length isProPlus isPro), isProPlus_isPro.
Qed.

End StatsFacts.

(** * The REST client *)

Section KiroApiFacts.
Import JsString KiroApi Reference.
Context {World Response Err : Type}.
Variable backend_get : string -> World -> (Err + Response) * World.
Variable backend_delete : string -> World -> (Err + Response) * World.
Variable encodeURIComponent : string -> string.
Variable files_of : Response -> option (list AuthFileItem).
Variable content_of : Response -> option Content.
Variable string_of_error : Err -> string.
Variable Date_parse : string -> option Z.
Variable clock : World -> Z.

Local Abbreviation deleteAccount := (deleteAccount backend_delete encodeURIComponent).
Local Abbreviation deleteAccounts_loop :=
  (deleteAccounts_loop backend_delete encodeURIComponent).
Local Abbreviation deleteAccounts := (deleteAccounts backend_delete encodeURIComponent).
Local Abbreviation getAccounts := (getAccounts backend_get files_of).
Local Abbreviation refreshAccount :=
  (refreshAccount backend_get encodeURIComponent content_of string_of_error
                  Date_parse clock).
Local Abbreviation refreshAll_loop :=
  (refreshAll_loop backend_get encodeURIComponent content_of string_of_error
                   Date_parse clock).
Local Abbreviation refreshAllAccounts :=
  (refreshAllAccounts backend_get encodeURIComponent files_of content_of
                      string_of_error Date_parse clock).

Local Abbreviation delete_request := (delete_request encodeURIComponent).

Lemma Interleave_Permutation {A} (l r m : list A) :
  Interleave l r m -> l ++ r ≡ₚ m.
Proof.
  induction 1 as [|x l r m _ IH|x l r m _ IH]; simpl.
  - done.
  - by rewrite IH.
  - by rewrite <- Permutation_middle, IH.
Qed.

Lemma deleteAccount_log (id : string) (c : Client World) :
  log (snd (deleteAccount id c)) = log c ++ [delete_request id].
Proof.
  unfold KiroApi.deleteAccount, apiClient_delete, Reference.delete_request.
  by destruct (backend_delete _ _).
Qed.

Lemma deleteAccounts_loop_spec (ids deleted errors : list string) (c : Client World) :
  exists d e c',
    deleteAccounts_loop ids deleted errors c = (inr (deleted ++ d, errors ++ e), c') /\
    Interleave d e ids /\
    log c' = log c ++ map delete_request ids.
Proof.
  revert deleted errors c.
  induction ids as [|id rest IH]; intros deleted errors c; simpl.
  - exists [], [], c. rewrite !app_nil_r. repeat split; constructor.
  - unfold AsyncM.bind at 1, AsyncM.try_catch, AsyncM.bind, AsyncM.ret.
    pose proof (deleteAccount_log id c) as Hlog.
    destruct (deleteAccount id c) as [[err|resp] c1]; simpl in *.
    + destruct (IH deleted (errors ++ [id]) c1) as (d & e & c' & Hrun & Hil & Hl).
      exists d, (id :: e), c'. rewrite Hrun, <- app_assoc. simpl.
      repeat split; [by constructor|].
      by rewrite Hl, Hlog, <- app_assoc.
    + destruct (IH (deleted ++ [id]) errors c1) as (d & e & c' & Hrun & Hil & Hl).
      exists (id :: d), e, c'. rewrite Hrun, <- app_assoc. simpl.
      repeat split; [by constructor|].
      by rewrite Hl, Hlog, <- app_assoc.
Qed.

(** C5. For every list of ids, [deleteAccounts] issues one delete request
    per id, in input order, and resolves with lists [deleted] and [errors]
    that partition the ids, each in input order; [success] is true exactly
    when [errors] is empty. *)
Theorem deleteAccounts_partition (ids : list string) (c : Client World) :
  exists r c',
    deleteAccounts ids c = (inr r, c') /\
    log c' = log c ++ map delete_request ids /\
    Interleave (da_deleted r) (da_errors r) ids /\
    da_deleted r ++ da_errors r ≡ₚ ids /\
    da_success r = bool_decide (da_errors r = []).
Proof.
  destruct (deleteAccounts_loop_spec ids [] [] c) as (d & e & c' & Hrun & Hil & Hl).
  unfold KiroApi.deleteAccounts, AsyncM.bind. rewrite Hrun. simpl.
  eexists _, c'. split; [reflexivity|]. simpl.
  repeat split; [done..|by apply Interleave_Permutation|]. by destruct e.
Qed.

(** When the ids are distinct, every id is in exactly one of [deleted] and
    [errors]. *)
Lemma deleteAccounts_distinct_ids (ids : list string) (c : Client World) :
  NoDup ids ->
  exists r c',
    deleteAccounts ids c = (inr r, c') /\
    forall account_id, account_id ∈ ids ->
      (account_id ∈ da_deleted r /\ account_id ∉ da_errors r) \/
      ((account_id ∉ da_deleted r) /\ account_id ∈ da_errors r).
Proof.
  intros Hnd.
  destruct (deleteAccounts_loop_spec ids [] [] c) as (d & e & c' & Hrun & Hil & _).
  unfold KiroApi.deleteAccounts, AsyncM.bind. rewrite Hrun. simpl.
  eexists _, c'. split; [reflexivity|]. simpl. intros account_id Hin.
  apply Interleave_Permutation in Hil as Hperm.
  rewrite <- Hperm in Hnd, Hin. apply NoDup_app in Hnd as (_ & Hdisj & _).
  apply elem_of_app in Hin as [Hd|He].
  - left. split; [done|]. by apply Hdisj.
  - right. split; [|done]. intros Hd. by apply (Hdisj account_id).
Qed.

Lemma collect_accounts_from (files : list AuthFileItem) (acc : list KiroAccountItem) :
  fold_left
    (fun accounts file =>
       if negb (isKiroAuthFile (af_name file)) then accounts
       else accounts ++ [account_of_file file])
    files acc
  = acc ++ map account_of_file
             (List.filter (fun file => isKiroAuthFile (af_name file)) files).
Proof.
  revert acc. induction files as [|file files IH]; intros acc; simpl.
  - by rewrite app_nil_r.
  - rewrite IH. destruct (isKiroAuthFile (af_name file)); simpl; [|done].
    by rewrite <- app_assoc.
Qed.

(** One account per listed Kiro file, in the order of the listing. *)
Lemma collect_accounts_filter (files : list AuthFileItem) :
  collect_accounts files
  = map account_of_file
        (List.filter (fun file => isKiroAuthFile (af_name file)) files).
Proof. unfold collect_accounts. by rewrite collect_accounts_from. Qed.

(** A file is a Kiro file when its lower-cased name starts with one of the
    two prefixes. *)
Lemma isKiroAuthFile_prefix (name : string) :
  isKiroAuthFile name
  = startsWith (toLowerCase name) "kiro-" || startsWith (toLowerCase name) "amazonq-".
Proof. unfold isKiroAuthFile. simpl. by rewrite orb_false_r. Qed.

Lemma getAccounts_listing (c : Client World) :
  getAccounts c =
  match backend_get "/auth-files" (world c) with
  | (inl e, w) => (inl e, {| world := w; log := log c ++ [GET "/auth-files"] |})
  | (inr response, w) =>
      (inr (map account_of_file
                (List.filter (fun file => isKiroAuthFile (af_name file))
                             (default [] (files_of response)))),
       {| world := w; log := log c ++ [GET "/auth-files"] |})
  end.
Proof.
  unfold KiroApi.getAccounts, AsyncM.bind, apiClient_get, AsyncM.ret.
  destruct (backend_get _ _) as [[e|response] w]; [done|].
  by rewrite collect_accounts_filter.
Qed.

Local Arguments Ascii.eqb : simpl never.

Lemma startsWith_app_json (s : string) :
  s <> "" -> startsWith s ".json" = false -> startsWith (s +:+ ".json") ".json" = false.
Proof.
  intros Hne.
  destruct s as [|c1 [|c2 [|c3 [|c4 [|c5 s]]]]]; [done|..]; simpl;
    repeat match goal with
           | |- context [Ascii.eqb ?a ?b] =>
               destruct (Ascii.eqb_spec a b); subst; simpl
           end; try done.
  by destruct s.
Qed.

Lemma replace_json_suffix (base : string) :
  includes base ".json" = false ->
  replace (base +:+ ".json") ".json" "" = base.
Proof.
  induction base as [|c base IH]; intros Hinc; [reflexivity|].
  cbn [includes] in Hinc. apply orb_false_iff in Hinc as [Hs Hrest].
  change (String c base +:+ ".json") with (String c (base +:+ ".json")).
  cbn [replace].
  change (String c (base +:+ ".json")) with (String c base +:+ ".json") at 1.
  rewrite startsWith_app_json by done.
  by rewrite IH.
Qed.

Lemma string_length_app (a b : string) :
  String.length (a +:+ b) = String.length a + String.length b.
Proof. induction a as [|c a IH]; simpl; [done|]. by rewrite IH. Qed.

Lemma substring_all (b : string) : substring 0 (String.length b) b = b.
Proof. induction b as [|c b IH]; simpl; [done|]. by rewrite IH. Qed.

Lemma substring_app_l (a b : string) : substring 0 (String.length a) (a +:+ b) = a.
Proof.
  induction a as [|c a IH]; simpl; [by destruct b|]. by rewrite IH.
Qed.

Lemma substring_app_r (a b : string) :
  substring (String.length a) (String.length b) (a +:+ b) = b.
Proof. induction a as [|c a IH]; simpl; [apply substring_all|done]. Qed.

Lemma strip_json_suffix_app (base : string) :
  strip_json_suffix (base +:+ ".json") = base.
Proof.
  unfold strip_json_suffix, endsWith. rewrite string_length_app.
  replace (String.length base + String.length ".json" - String.length ".json")
    with (String.length base) by lia.
  rewrite substring_app_r, substring_app_l.
  replace (String.length ".json" <=? String.length base + String.length ".json")%nat
    with true by (symmetry; apply Nat.leb_le; lia).
  done.
Qed.

(** When [.json] occurs in the name of a listed file only as its suffix,
    the id of the account is the name without the suffix. *)
Lemma account_id_when_suffix_only (base : string) (file : AuthFileItem) :
  af_name file = base +:+ ".json" ->
  includes base ".json" = false ->
  id (account_of_file file) = strip_json_suffix (af_name file).
Proof.
  intros Hname Hinc. unfold account_of_file.
  repeat match goal with
         | |- context [if ?b then _ else _] => destruct b
         end; simpl;
    by rewrite Hname, replace_json_suffix, strip_json_suffix_app.
Qed.

(** C6. A listed file whose name holds [.json] before its end: the id that
    [getAccounts] gives the account is the name without the first [.json],
    not the name without its [.json] suffix, and the file name that
    [deleteAccount], [getAccount] and [refreshAccount] derive from this id
    is not the name of the file. *)
Theorem getAccounts_id_first_json_removed :
  let file := {| af_name := "kiro-google-a.json.bak.json"; af_email := None;
                 af_label := None; af_status := None |} in
  isKiroAuthFile (af_name file) = true /\
  map id (collect_accounts [file]) = ["kiro-google-a.bak.json"] /\
  strip_json_suffix (af_name file) = "kiro-google-a.json.bak" /\
  map (fun a => fileName_of_id (id a)) (collect_accounts [file])
  = ["kiro-google-a.bak.json"].
Proof. by vm_compute. Qed.

Lemma refreshAccount_resolves (account_id : string) (c : Client World) :
  exists r c', refreshAccount account_id c = (inr r, c').
Proof.
  unfold KiroApi.refreshAccount, AsyncM.try_catch, AsyncM.bind, AsyncM.ret,
    apiClient_get.
  destruct (backend_get _ _) as [[e|response] w]; eauto.
Qed.

Lemma refreshAll_loop_spec (accounts : list KiroAccountItem) (success failed : nat)
      (refreshedAccounts : list KiroAccountItem) (c : Client World) :
  exists results c',
    mapM refreshAccount (map id accounts) c = (inr results, c') /\
    length results = length accounts /\
    refreshAll_loop accounts success failed refreshedAccounts c =
    (inr {| ra_success := success + length (List.filter refresh_succeeded results);
            ra_failed :=
              failed + length (List.filter (fun r => negb (refresh_succeeded r)) results);
            ra_accounts :=
              refreshedAccounts ++ zip_with refreshed_entry accounts results |},
     c').
Proof.
  revert success failed refreshedAccounts c.
  induction accounts as [|account rest IH]; intros success failed refreshedAccounts c.
  - exists [], c. simpl. unfold AsyncM.ret.
    by rewrite !Nat.add_0_r, app_nil_r.
  - simpl. unfold AsyncM.bind at 1 3.
    destruct (refreshAccount_resolves (id account) c) as (r & c1 & Hr). rewrite Hr.
    unfold refresh_succeeded, refreshed_entry.
    destruct (rr_success r) eqn:Hs, (rr_account r) as [refreshed|] eqn:Ha.
    1: destruct (IH (S success) failed (refreshedAccounts ++ [refreshed]) c1)
         as (results & c' & Hm & Hlen & Hloop).
    2-4: destruct (IH success (S failed) (refreshedAccounts ++ [account]) c1)
         as (results & c' & Hm & Hlen & Hloop).
    all: exists (r :: results), c'; unfold AsyncM.bind, AsyncM.ret; rewrite Hm, Hloop;
      simpl; unfold refresh_succeeded; rewrite Hs, Ha; simpl;
      rewrite <- app_assoc; simpl;
      (split; [done|]); (split; [by rewrite Hlen|]);
      do 3 f_equal; lia.
Qed.

Lemma filter_complement_length {A} (p : A -> bool) (l : list A) :
  length (List.filter p l) + length (List.filter (fun a => negb (p a)) l) = length l.
Proof. induction l as [|a l IH]; simpl; [done|]. destruct (p a); simpl; lia. Qed.

(** C7. [refreshAllAccounts] refreshes every account that [getAccounts]
    lists, in order; [success + failed] is the number of listed accounts,
    and [accounts] holds one entry per listed account in the same order: the
    record that was read again when the refresh of the account succeeded,
    the listed record when it failed. When the listing itself is rejected,
    so is [refreshAllAccounts]. *)
Theorem refreshAllAccounts_one_entry_per_account (c : Client World) :
  match getAccounts c with
  | (inl e, c1) => refreshAllAccounts c = (inl e, c1)
  | (inr listed, c1) =>
      exists results r c2,
        mapM refreshAccount (map id listed) c1 = (inr results, c2) /\
        refreshAllAccounts c = (inr r, c2) /\
        length results = length listed /\
        ra_success r = length (List.filter refresh_succeeded results) /\
        ra_success r + ra_failed r = length listed /\
        ra_accounts r = zip_with refreshed_entry listed results /\
        length (ra_accounts r) = length listed
  end.
Proof.
  unfold KiroApi.refreshAllAccounts, AsyncM.bind.
  destruct (getAccounts c) as [[e|listed] c1]; [done|].
  destruct (refreshAll_loop_spec listed 0 0 [] c1) as (results & c2 & Hm & Hlen & Hloop).
  eexists results, _, c2. split; [exact Hm|]. split; [exact Hloop|]. simpl.
  repeat split; [done| |by rewrite length_zip_with, Hlen, Nat.min_id].
  rewrite filter_complement_length. done.
Qed.

End KiroApiFacts.

(** * The cached account page *)

Section CacheFacts.
Import JsString KiroPage Reference.
Variable JSON_stringify : list KiroAccountItem -> option string.
Variable JSON_parse : string -> option (list KiroAccountItem).

Local Abbreviation loadCacheFromStorage := (loadCacheFromStorage JSON_parse).
Local Abbreviation saveCacheToStorage := (saveCacheToStorage JSON_stringify).
Local Abbreviation updateCache := (updateCache JSON_stringify).
Local Abbreviation json_serializable := (json_serializable JSON_stringify JSON_parse).

(** A list that [JSON.stringify] accepts is written under [CACHE_KEY], and
    no other entry of the storage changes. *)
Lemma saveCacheToStorage_writes (accounts : list KiroAccountItem) (text : string)
      (ls : gmap string string) :
  JSON_stringify accounts = Some text ->
  saveCacheToStorage accounts ls = <[CACHE_KEY := text]> ls.
Proof. intros H. unfold KiroPage.saveCacheToStorage, setItem. by rewrite H. Qed.


End CacheFacts.


(** * Refreshing the usage of the accounts in batches *)

Section FetchFacts.
Import JsString KiroPage Reference.
Variable JSON_stringify : list KiroAccountItem -> option string.
Variable getKiroUsage : nat -> string -> option KiroUsageResponse.
Variable accountList : list KiroAccountItem.

Local Abbreviation updateCache := (updateCache JSON_stringify).
Local Abbreviation on_settled := (on_settled getKiroUsage).
Local Abbreviation settle := (settle getKiroUsage).
Local Abbreviation run_batch := (run_batch getKiroUsage).
Local Abbreviation fetch_loop := (fetch_loop JSON_stringify getKiroUsage).
Local Abbreviation refreshed_account := (refreshed_account getKiroUsage).
Local Abbreviation refreshed_upto := (refreshed_upto getKiroUsage accountList).
Local Abbreviation batch_of := (batch_of accountList).

Lemma refreshed_upto_lookup (upto k : nat) :
  refreshed_upto upto !! k
  = match accountList !! k with
    | Some account =>
        Some (if decide (k < upto) then refreshed_account k account else account)
    | None => None
    end.
Proof.
  unfold Reference.refreshed_upto. rewrite list_lookup_imap.
  by destruct (accountList !! k).
Qed.

Ltac decide_lt := repeat destruct (decide (_ < _)); try lia; try done.

Lemma refreshed_upto_length (upto : nat) :
  length (refreshed_upto upto) = length accountList.
Proof. unfold Reference.refreshed_upto. by rewrite length_imap. Qed.

Lemma refreshed_upto_0 : refreshed_upto 0 = accountList.
Proof.
  apply list_eq; intros k. rewrite refreshed_upto_lookup.
  destruct (accountList !! k); [|done]. decide_lt.
Qed.

Lemma refreshed_upto_S (k : nat) :
  alter (refreshed_account k) k (refreshed_upto k) = refreshed_upto (S k).
Proof.
  apply list_eq; intros j. destruct (decide (j = k)) as [->|Hne].
  - rewrite list_lookup_alter_eq, !refreshed_upto_lookup.
    destruct (accountList !! k); simpl; [|done]. decide_lt.
  - rewrite list_lookup_alter_ne by done. rewrite !refreshed_upto_lookup.
    destruct (accountList !! j); simpl; [|done]. decide_lt.
Qed.

Lemma refreshed_upto_beyond (upto : nat) :
  length accountList <= upto -> refreshed_upto upto = refreshed_upto (length accountList).
Proof.
  intros Hle. apply list_eq; intros k. rewrite !refreshed_upto_lookup.
  destruct (accountList !! k) eqn:Hk; [|done].
  apply lookup_lt_Some in Hk. decide_lt.
Qed.

Lemma batch_lookup (i j : nat) :
  j < BATCH_SIZE -> take BATCH_SIZE (drop i accountList) !! j = accountList !! (i + j).
Proof. intros Hj. by rewrite lookup_take_lt, lookup_drop. Qed.

Lemma on_settled_alter (i j : nat) (results : list KiroAccountItem) :
  j < BATCH_SIZE ->
  results !! (i + j) = accountList !! (i + j) ->
  on_settled i (take BATCH_SIZE (drop i accountList)) results j
  = alter (refreshed_account (i + j)) (i + j) results.
Proof.
  intros Hj Hres. unfold KiroPage.on_settled. rewrite batch_lookup by done.
  destruct (accountList !! (i + j)) as [account|] eqn:Hacc.
  - assert (Hid : forall f, f account = account -> results = alter f (i + j) results).
    { intros f Hf. apply list_eq; intros k. destruct (decide (k = i + j)) as [->|Hne].
      - rewrite list_lookup_alter_eq, Hres. simpl. by rewrite Hf.
      - by rewrite list_lookup_alter_ne. }
    unfold Reference.refreshed_account.
    destruct (fileName account) as [f|] eqn:Hf.
    + destruct (truthy f) eqn:Ht.
      * destruct (getKiroUsage (i + j) f) as [usage|] eqn:Hu.
        -- apply list_eq; intros k. destruct (decide (k = i + j)) as [->|Hne].
           ++ rewrite !list_lookup_alter_eq, Hres. simpl. by rewrite Hf, Ht, Hu.
           ++ by rewrite !list_lookup_alter_ne.
        -- apply Hid. by rewrite Hf, Ht, Hu.
      * apply Hid. by rewrite Hf, Ht.
    + apply Hid. by rewrite Hf.
  - apply list_eq; intros k. destruct (decide (k = i + j)) as [->|Hne].
    + by rewrite list_lookup_alter_eq, Hres.
    + by rewrite list_lookup_alter_ne.
Qed.

Lemma settle_in_order (i m : nat) :
  m <= BATCH_SIZE ->
  settle i (take BATCH_SIZE (drop i accountList)) (seq 0 m) (refreshed_upto i)
  = refreshed_upto (i + m).
Proof.
  intros Hm. induction m as [|m IH].
  - by rewrite Nat.add_0_r.
  - unfold KiroPage.settle in *. rewrite seq_S, fold_left_app. simpl.
    rewrite IH by lia. rewrite on_settled_alter.
    + rewrite refreshed_upto_S. f_equal. lia.
    + lia.
    + rewrite refreshed_upto_lookup. destruct (accountList !! (i + m)); [|done].
      decide_lt.
Qed.

Lemma run_batch_refreshed (i : nat) :
  run_batch i (take BATCH_SIZE (drop i accountList)) (refreshed_upto i)
  = refreshed_upto (i + BATCH_SIZE).
Proof.
  unfold KiroPage.run_batch. rewrite settle_in_order.
  - rewrite length_take, length_drop.
    destruct (decide (i + BATCH_SIZE <= length accountList)).
    + f_equal. lia.
    + rewrite (refreshed_upto_beyond (i + BATCH_SIZE)) by lia.
      rewrite (refreshed_upto_beyond (i + _)) by lia. done.
  - rewrite length_take. lia.
Qed.

Lemma on_settled_commute (i j1 j2 : nat) (batch results : list KiroAccountItem) :
  on_settled i batch (on_settled i batch results j1) j2
  = on_settled i batch (on_settled i batch results j2) j1.
Proof.
  destruct (decide (j1 = j2)) as [->|Hne]; [done|].
  unfold KiroPage.on_settled.
  destruct (batch !! j1) as [a1|]; [|done].
  destruct (batch !! j2) as [a2|]; [|done].
  destruct (fileName a1) as [f1|]; [|done].
  destruct (fileName a2) as [f2|]; [|done].
  destruct (truthy f1); [|done]. destruct (truthy f2); [|done].
  destruct (getKiroUsage (i + j1) f1); [|done].
  destruct (getKiroUsage (i + j2) f2); [|done].
  apply list_alter_alter_ne. lia.
Qed.

Lemma fold_left_permutation {A B} (f : A -> B -> A) (l l' : list B) :
  (forall a x y, f (f a x) y = f (f a y) x) ->
  l ≡ₚ l' -> forall a, fold_left f l a = fold_left f l' a.
Proof.
  intros Hf. induction 1 as [|x l l' _ IH|x y l|l l' l'' _ IH1 _ IH2]; intros a; simpl.
  - done.
  - apply IH.
  - by rewrite Hf.
  - by rewrite IH1.
Qed.

(** The promises of a batch may settle in any order: the batch leaves the
    same [results]. *)
Lemma settle_any_order (i : nat) (batch results : list KiroAccountItem)
      (order : list nat) :
  order ≡ₚ seq 0 (length batch) ->
  settle i batch order results = run_batch i batch results.
Proof.
  intros Hperm. unfold KiroPage.settle, KiroPage.run_batch, KiroPage.settle.
  apply fold_left_permutation; [|done].
  intros a x y. apply on_settled_commute.
Qed.

Lemma batch_count_lt (k : nat) :
  k < batch_count (length accountList) <-> k * BATCH_SIZE < length accountList.
Proof.
  unfold batch_count, BATCH_SIZE. generalize (length accountList) as n. intros n.
  pose proof (Nat.div_mod_eq (n + (10 - 1)) 10) as Hdm.
  pose proof (Nat.mod_upper_bound (n + (10 - 1)) 10) as Hr.
  generalize dependent ((n + (10 - 1)) / 10).
  generalize dependent ((n + (10 - 1)) mod 10).
  intros r Hr q Hdm. lia.
Qed.

Lemma fetch_loop_batches (m k : nat) (p : Page) (trace : list Event) :
  k + m = batch_count (length accountList) ->
  fetch_loop accountList (k * BATCH_SIZE) (refreshed_upto (k * BATCH_SIZE)) p trace
  = (refreshed_upto (length accountList),
     fold_left (fun p k => updateCache (refreshed_upto ((k + 1) * BATCH_SIZE)) p)
               (seq k m) p,
     trace ++ flat_map (batch_trace getKiroUsage accountList) (seq k m)).
Proof.
  revert k p trace. induction m as [|m IH]; intros k p trace Hk.
  - rewrite fetch_loop_equation_1.
    destruct (decide (k * BATCH_SIZE < length accountList)) as [Hlt|Hge].
    + pose proof (proj2 (batch_count_lt k) Hlt). lia.
    + simpl. rewrite app_nil_r. rewrite refreshed_upto_beyond by lia. done.
  - rewrite fetch_loop_equation_1.
    destruct (decide (k * BATCH_SIZE < length accountList)) as [Hlt|Hge].
    + rewrite fetch_loop_clause_1_equation_1. cbv zeta.
      rewrite run_batch_refreshed.
      replace (k * BATCH_SIZE + BATCH_SIZE) with (S k * BATCH_SIZE) by lia.
      rewrite IH by lia. simpl seq. simpl fold_left. simpl flat_map.
      unfold batch_trace at 2, Reference.batch_of.
      replace ((k + 1) * BATCH_SIZE) with (S k * BATCH_SIZE) by lia.
      by rewrite <- !app_assoc.
    + exfalso. apply Hge, (proj1 (batch_count_lt k)). lia.
Qed.

Lemma concat_batches (m k : nat) :
  k + m = batch_count (length accountList) ->
  concat (map batch_of (seq k m)) = drop (k * BATCH_SIZE) accountList.
Proof.
  revert k. induction m as [|m IH]; intros k Hk; simpl.
  - symmetry. apply drop_ge.
    destruct (decide (k * BATCH_SIZE < length accountList)) as [Hlt|]; [|lia].
    pose proof (proj2 (batch_count_lt k) Hlt). lia.
  - rewrite IH by lia. unfold Reference.batch_of.
    replace (S k * BATCH_SIZE) with (k * BATCH_SIZE + BATCH_SIZE) by lia.
    by rewrite <- drop_drop, take_drop.
Qed.

Lemma batch_requests_length (batch : list KiroAccountItem) :
  length (batch_requests batch) <= length batch.
Proof.
  induction batch as [|a batch IH]; simpl; [done|].
  rewrite length_app.
  destruct (fileName a) as [f|]; [destruct (truthy f)|]; simpl; lia.
Qed.

Lemma batch_of_length (k : nat) :
  k < batch_count (length accountList) ->
  0 < length (batch_of k) <= BATCH_SIZE.
Proof.
  intros Hk. apply batch_count_lt in Hk.
  unfold Reference.batch_of. rewrite length_take, length_drop.
  unfold BATCH_SIZE in *. lia.
Qed.

Lemma apply_usage_same_account (usage : KiroUsageResponse) (a : KiroAccountItem) :
  same_account a (apply_usage usage a).
Proof.
  unfold apply_usage.
  repeat match goal with
         | |- context [if ?b then _ else _] => destruct b
         end; repeat split.
Qed.

Lemma refreshed_account_same_account (idx : nat) (a : KiroAccountItem) :
  same_account a (refreshed_account idx a).
Proof.
  unfold Reference.refreshed_account.
  destruct (fileName a) as [f|]; [destruct (truthy f)|];
    [destruct (getKiroUsage idx f)|..];
    first [apply apply_usage_same_account | repeat split].
Qed.

Lemma refreshed_upto_same_accounts (upto : nat) :
  Forall2 same_account accountList (refreshed_upto upto).
Proof.
  apply Forall2_same_length_lookup. split; [by rewrite refreshed_upto_length|].
  intros k a r Ha Hr. rewrite refreshed_upto_lookup, Ha in Hr.
  injection Hr as <-. destruct (decide (k < upto)).
  - apply refreshed_account_same_account.
  - repeat split.
Qed.

(** C1. For every account list, [fetchUsageForAccounts] issues the usage
    requests in consecutive batches of at most [BATCH_SIZE = 10] accounts;
    the batches are processed one after the other, and the cache is updated
    once after each batch, with the list in which the accounts of the
    batches so far have settled; the resulting list has one entry per input
    account, in the order of the input. *)
Theorem fetchUsageForAccounts_batches (p : Page) :
  let n := length accountList in
  let batches := seq 0 (batch_count n) in
  fetchUsageForAccounts JSON_stringify getKiroUsage accountList p
  = (refreshed_upto n,
     fold_left (fun p k => updateCache (refreshed_upto ((k + 1) * BATCH_SIZE)) p)
               batches p,
     flat_map (batch_trace getKiroUsage accountList) batches) /\
  concat (map batch_of batches) = accountList /\
  Forall (fun k => 0 < length (batch_of k) <= BATCH_SIZE /\
                   length (batch_requests (batch_of k)) <= BATCH_SIZE) batches /\
  BATCH_SIZE = 10 /\
  length (refreshed_upto n) = n /\
  Forall2 same_account accountList (refreshed_upto n).
Proof.
  intros n batches. subst n batches.
  split; [|split; [|split; [|split; [|split]]]].
  - unfold fetchUsageForAccounts.
    pose proof (fetch_loop_batches (batch_count (length accountList)) 0 p []) as H.
    simpl in H. rewrite refreshed_upto_0 in H. by apply H.
  - rewrite (concat_batches (batch_count (length accountList)) 0) by done. done.
  - apply Forall_forall. intros k Hk. apply elem_of_seq in Hk.
    pose proof (batch_of_length k ltac:(lia)) as Hlen.
    pose proof (batch_requests_length (batch_of k)). split; [done|lia].
  - done.
  - apply refreshed_upto_length.
  - apply refreshed_upto_same_accounts.
Qed.

End FetchFacts.

(** * The import modal *)

Section ImportFacts.
Import JsString ImportModal Reference.
Variable JSON_parse : string -> option json.

Local Arguments startsWith : simpl never.

Lemma classify_inspectable (account : json) (index : nat)
      (valid : list json) (invalid : list InvalidEntry) :
  inspectable account = true ->
  classify account index (valid, invalid)
  = inr (if has_valid_token account then (valid ++ [account], invalid)
         else (valid, invalid ++ [invalid_entry index account])).
Proof.
  intros Hins. unfold classify, has_valid_token, invalid_entry, inspectable in *.
  destruct account as [|b|n|s|items|fields]; try discriminate; simpl in *; try done.
  unfold refresh_token, entry_email in *. simpl in *.
  destruct (lookup_field "refreshToken" fields) as [[|b|n|s|items|fs]|] eqn:Htok;
    simpl in *; try discriminate; try done.
  - by destruct b.
  - destruct (bool_decide _); simpl in *; [done|discriminate].
  - destruct s as [|c s]; simpl; [done|].
    by destruct (startsWith _ _).
Qed.

Lemma classify_not_inspectable (account : json) (index : nat)
      (acc : list json * list InvalidEntry) :
  inspectable account = false -> exists e, classify account index acc = inl e.
Proof.
  intros Hins. destruct acc as [valid invalid].
  unfold classify, inspectable in *.
  destruct account as [|b|n|s|items|fields]; try discriminate; simpl in *; eauto.
  unfold refresh_token in *. simpl in *.
  destruct (lookup_field "refreshToken" fields) as [[|b|n|s|items|fs]|] eqn:Htok;
    simpl in *; try discriminate; eauto.
  - destruct b; [eauto|discriminate].
  - destruct (bool_decide (n = 0%Qc)); [discriminate|eauto].
Qed.

Local Arguments classify : simpl never.

Lemma forEach_classify_spec (accounts : list json) (index : nat)
      (valid : list json) (invalid : list InvalidEntry) :
  if forallb inspectable accounts
  then forEach_classify accounts index (valid, invalid)
       = inr (valid ++ List.filter has_valid_token accounts,
              invalid ++ invalid_from index accounts)
  else exists e, forEach_classify accounts index (valid, invalid) = inl e.
Proof.
  revert index valid invalid.
  induction accounts as [|account rest IH]; intros index valid invalid; simpl.
  - f_equal. f_equal; symmetry; apply app_nil_r.
  - destruct (inspectable account) eqn:Hins; simpl.
    + rewrite classify_inspectable by done.
      destruct (has_valid_token account); simpl.
      * specialize (IH (S index) (valid ++ [account]) invalid).
        destruct (forallb inspectable rest); [|exact IH].
        rewrite IH. by rewrite <- app_assoc.
      * specialize (IH (S index) valid (invalid ++ [invalid_entry index account])).
        destruct (forallb inspectable rest); [|exact IH].
        rewrite IH. by rewrite <- app_assoc.
    + destruct (classify_not_inspectable account index (valid, invalid) Hins) as [e ->].
      eauto.
Qed.

Lemma invalid_from_length (index : nat) (accounts : list json) :
  length (List.filter has_valid_token accounts) + length (invalid_from index accounts)
  = length accounts.
Proof.
  revert index. induction accounts as [|a rest IH]; intros index; simpl; [done|].
  specialize (IH (S index)). destruct (has_valid_token a); simpl; lia.
Qed.


End ImportFacts.


(** * The OAuth polling timers *)

Section PollingFacts.
Import JsString OAuthPage Reference.

Lemma polling_invariant_initial : polling_invariant initial.
Proof. split; simpl; [done|set_solver..]. Qed.

(** Installing a timer under [key], as both polling functions do. *)
Lemma install_invariant (kind : PollKind) (state : string) (b : Browser) :
  polling_invariant b ->
  let b1 := match timers b !! timer_key kind with
            | Some old => clearInterval old b
            | None => b
            end in
  polling_invariant
    (set_timers <[timer_key kind := next_timer b1]>
       (snd (setInterval {| p_kind := kind; p_state := state;
                            p_delay := POLL_INTERVAL; authUrlOpened := false |} b1))).
Proof.
  intros [Hidle Hreg Hfresh] b1.
  assert (Hsub : intervals b1 ⊆ intervals b).
  { subst b1. destruct (timers b !! timer_key kind); simpl; [|done].
    intros t Ht. by apply elem_of_difference in Ht as [Ht _]. }
  assert (Hold : forall old, timers b !! timer_key kind = Some old -> old ∉ intervals b1).
  { intros old Ho. subst b1. rewrite Ho. simpl.
    rewrite elem_of_difference, elem_of_singleton. tauto. }
  assert (Hproj : timers b1 = timers b /\ closures b1 = closures b /\
                  next_timer b1 = next_timer b /\ in_flight b1 = in_flight b).
  { subst b1. by destruct (timers b !! timer_key kind). }
  destruct Hproj as (Ht & Hc & Hn & Hf).
  split; simpl.
  - by rewrite Hf.
  - intros t Hin. rewrite Ht, Hc, Hn. apply elem_of_union in Hin as [Hin|Hin].
    + assert (Hlt : (t < next_timer b)%positive) by (apply Hfresh, Hsub, Hin).
      destruct (Hreg t (Hsub _ Hin)) as (c & Hcl & Htm).
      exists c. rewrite lookup_insert_ne by lia. split; [done|].
      destruct (decide (timer_key kind = timer_key (p_kind c))) as [Heq|Hne].
      * rewrite <- Heq in Htm. by apply Hold in Htm.
      * by rewrite lookup_insert_ne.
    + apply elem_of_singleton in Hin as ->. rewrite Hn.
      eexists. rewrite lookup_insert_eq. split; [done|]. simpl.
      by rewrite lookup_insert_eq.
  - intros t Hin. rewrite Hn. apply elem_of_union in Hin as [Hin|Hin].
    + specialize (Hfresh t (Hsub _ Hin)). lia.
    + apply elem_of_singleton in Hin as ->. rewrite Hn. lia.
Qed.

Lemma startPolling_invariant (provider state : string) (b : Browser) :
  polling_invariant b -> polling_invariant (startPolling provider state b).
Proof. intros H. exact (install_invariant (ProviderPolling provider) state b H). Qed.

Lemma startKiroPolling_invariant (stateParam : string) (b : Browser) :
  polling_invariant b -> polling_invariant (startKiroPolling stateParam b).
Proof. intros H. exact (install_invariant KiroPolling stateParam b H). Qed.

(** A callback that stops polling: its own interval is cleared and the key
    of its closure is deleted; the rest of the page may change in its
    interface state and its effects only. *)
Lemma stop_polling_invariant (timer : positive) (c : Poller) (b b' : Browser) :
  polling_invariant b ->
  timer ∈ intervals b ->
  closures b !! timer = Some c ->
  timers b' = timers b -> intervals b' = intervals b ->
  closures b' = closures b -> next_timer b' = next_timer b ->
  in_flight b' = [] ->
  polling_invariant (stop_polling timer (timer_key (p_kind c)) b').
Proof.
  intros [Hidle Hreg Hfresh] Hin Hcl Ht Hi Hc Hn Hf.
  split; simpl; rewrite ?Ht, ?Hi, ?Hc, ?Hn.
  - done.
  - intros t Hin'. apply elem_of_difference in Hin' as [Hin' Hne].
    rewrite elem_of_singleton in Hne.
    destruct (Hreg t Hin') as (c' & Hcl' & Htm'). exists c'. split; [done|].
    rewrite lookup_delete_ne; [done|]. intros Heq.
    destruct (Hreg timer Hin) as (c0 & Hcl0 & Htm0).
    rewrite Hcl in Hcl0. injection Hcl0 as <-.
    rewrite Heq in Htm0. congruence.
  - intros t Hin'. apply elem_of_difference in Hin' as [Hin' _]. by apply Hfresh.
Qed.

(** A callback that leaves the timers alone. *)
Lemma same_timers_invariant (b b' : Browser) :
  polling_invariant b ->
  timers b' = timers b -> intervals b' = intervals b ->
  (forall t, p_kind <$> closures b' !! t = p_kind <$> closures b !! t) ->
  next_timer b' = next_timer b -> in_flight b' = [] ->
  polling_invariant b'.
Proof.
  intros [Hidle Hreg Hfresh] Ht Hi Hc Hn Hf.
  split; rewrite ?Ht, ?Hi, ?Hn; [done| |done].
  intros t Hin. destruct (Hreg t Hin) as (c & Hcl & Htm).
  specialize (Hc t). rewrite Hcl in Hc.
  destruct (closures b' !! t) as [c'|]; [|done].
  injection Hc as Hk. exists c'. by rewrite Hk.
Qed.

Lemma open_auth_url_invariant (timer : positive) (url : string) (b b' : Browser) :
  polling_invariant b ->
  timers b' = timers b -> intervals b' = intervals b ->
  closures b' = closures b -> next_timer b' = next_timer b ->
  in_flight b' = [] ->
  polling_invariant (open_auth_url timer url b').
Proof.
  intros Hinv Ht Hi Hc Hn Hf. unfold open_auth_url.
  destruct (closures b' !! timer) as [c|] eqn:Hcl;
    [destruct (authUrlOpened c)|];
    apply (same_timers_invariant b); simpl; try done; try (intros t; by rewrite Hc).
  intros t. rewrite <- Hc. destruct (decide (t = timer)) as [->|Hne].
  - by rewrite lookup_insert_eq, Hcl.
  - by rewrite lookup_insert_ne.
Qed.

Lemma tick_invariant (timer : positive) (outcome : Outcome) (b : Browser) :
  polling_invariant b ->
  polling_invariant (settle (length (in_flight b)) outcome (fire timer b)).
Proof.
  intros Hinv. pose proof Hinv as [Hidle Hreg Hfresh].
  unfold fire. rewrite Hidle. simpl.
  destruct (bool_decide (timer ∈ intervals b)) eqn:Hin.
  2: { unfold settle. by rewrite Hidle. }
  apply bool_decide_eq_true in Hin.
  destruct (Hreg timer Hin) as (c & Hcl & Htm). rewrite Hcl.
  unfold settle. simpl. rewrite Hcl.
  destruct (p_kind c) as [provider|] eqn:Hkind.
  - unfold provider_settled.
    change provider with (timer_key (ProviderPolling provider)). rewrite <- Hkind.
    destruct outcome as [message|res];
      [|destruct (String.eqb (as_status res) "ok");
        [|destruct (String.eqb (as_status res) "error")]];
      first [ by apply (stop_polling_invariant timer c b)
            | by apply (same_timers_invariant b) ].
  - unfold kiro_settled.
    change "kiro" with (timer_key KiroPolling). rewrite <- Hkind.
    destruct outcome as [message|res].
    { by apply (stop_polling_invariant timer c b). }
    repeat match goal with
           | |- context [if ?x then _ else _] => destruct x
           end;
      first [ by apply (stop_polling_invariant timer c b)
            | by apply (open_auth_url_invariant timer _ b)
            | by apply (same_timers_invariant b) ].
Qed.

Lemma clickKiroLogin_invariant (provider : string) (b : Browser) :
  polling_invariant b -> polling_invariant (clickKiroLogin provider b).
Proof.
  intros Hinv. unfold clickKiroLogin. destruct (ui_polling (kiroState b)); [done|].
  apply (same_timers_invariant b); try done. apply Hinv.
Qed.

Lemma kiroLoginSettled_invariant (n : nat) (outcome : StartOutcome) (b : Browser) :
  polling_invariant b -> polling_invariant (kiroLoginSettled n outcome b).
Proof.
  intros Hinv. unfold kiroLoginSettled. destruct (starting b !! n); [|done].
  assert (Hui : forall b', timers b' = timers b -> intervals b' = intervals b ->
                           closures b' = closures b -> next_timer b' = next_timer b ->
                           in_flight b' = in_flight b -> polling_invariant b').
  { intros b' Ht Hi Hc Hn Hf. apply (same_timers_invariant b); try done.
    - intros t. by rewrite Hc.
    - rewrite Hf. apply Hinv. }
  destruct outcome as [message|[res|]]; try by apply Hui.
  destruct (sr_state res) as [state|]; [destruct (truthy state)|]; try by apply Hui.
  apply startKiroPolling_invariant. by apply Hui.
Qed.

Lemma atomic_step_invariant (b : Browser) (a : AtomicAction) :
  polling_invariant b -> polling_invariant (atomic_step b a).
Proof.
  destruct a; simpl;
    auto using startPolling_invariant, startKiroPolling_invariant, tick_invariant,
               clickKiroLogin_invariant, kiroLoginSettled_invariant.
Qed.

Lemma atomic_run_invariant (actions : list AtomicAction) (b : Browser) :
  polling_invariant b -> polling_invariant (fold_left atomic_step actions b).
Proof.
  revert b. induction actions as [|a actions IH]; intros b Hinv; simpl; [done|].
  by apply IH, atomic_step_invariant.
Qed.

Lemma NoDup_all_equal_length {A} (l : list A) :
  NoDup l -> (forall x y, x ∈ l -> y ∈ l -> x = y) -> length l <= 1.
Proof.
  intros Hnd Heq. destruct l as [|x [|y l]]; simpl; [lia..|].
  exfalso. apply NoDup_cons in Hnd as [Hx _]. apply Hx.
  rewrite (Heq x y); [left| left | right; left].
Qed.

(** Under the invariant at most one interval is active per provider key. *)
Lemma invariant_one_timer_per_key (key : string) (b : Browser) :
  polling_invariant b -> length (active_for key b) <= 1.
Proof.
  intros [_ Hreg _]. apply NoDup_all_equal_length.
  - unfold active_for.
    apply NoDup_ListNoDup, List.NoDup_filter, NoDup_ListNoDup, NoDup_elements.
  - assert (Hkey : forall t, t ∈ active_for key b -> timers b !! key = Some t).
    { intros t Ht. unfold active_for in Ht.
      apply list_elem_of_In, filter_In in Ht as [Hin Hk].
      apply list_elem_of_In, elem_of_elements, Hreg in Hin as (c & Hcl & Htm).
      rewrite Hcl in Hk. apply String.eqb_eq in Hk. by rewrite <- Hk. }
    intros x y Hx%Hkey Hy%Hkey. congruence.
Qed.

(** When every interval callback runs to its end before anything else
    happens, at most one polling timer is active per provider key, at any
    time. *)
Lemma atomic_one_timer_per_key (actions : list AtomicAction) (key : string) :
  length (active_for key (fold_left atomic_step actions initial)) <= 1.
Proof.
  apply invariant_one_timer_per_key, atomic_run_invariant, polling_invariant_initial.
Qed.

(** Both polling functions first clear the interval registered under
    their key, then install and register a new one, which fires every
    3000 ms. *)
Lemma install_clears_registered (kind : PollKind) (state : string) (b : Browser) :
  let b1 := match timers b !! timer_key kind with
            | Some old => clearInterval old b
            | None => b
            end in
  let b' := set_timers <[timer_key kind := next_timer b1]>
              (snd (setInterval {| p_kind := kind; p_state := state;
                                   p_delay := POLL_INTERVAL;
                                   authUrlOpened := false |} b1)) in
  (forall old, timers b !! timer_key kind = Some old ->
               (old < next_timer b)%positive -> old ∉ intervals b') /\
  timers b' !! timer_key kind = Some (next_timer b) /\
  next_timer b ∈ intervals b' /\
  p_delay <$> closures b' !! next_timer b = Some 3000%Z.
Proof.
  intros b1 b'.
  assert (Hn : next_timer b1 = next_timer b).
  { subst b1. by destruct (timers b !! timer_key kind). }
  subst b'. simpl. rewrite Hn. repeat split.
  - intros old Hold Hlt. subst b1. rewrite Hold. simpl.
    rewrite elem_of_union, elem_of_difference, !elem_of_singleton.
    intros [[_ Hne]|Heq]; [done|lia].
  - by rewrite lookup_insert_eq.
  - apply elem_of_union_r. by apply elem_of_singleton.
  - by rewrite lookup_insert_eq.
Qed.

Lemma startPolling_clears_registered (provider state : string) (b : Browser) :
  (forall old, timers b !! provider = Some old ->
               (old < next_timer b)%positive ->
               old ∉ intervals (startPolling provider state b)) /\
  timers (startPolling provider state b) !! provider = Some (next_timer b) /\
  next_timer b ∈ intervals (startPolling provider state b) /\
  p_delay <$> closures (startPolling provider state b) !! next_timer b = Some 3000%Z.
Proof. exact (install_clears_registered (ProviderPolling provider) state b). Qed.

Lemma startKiroPolling_clears_registered (stateParam : string) (b : Browser) :
  (forall old, timers b !! "kiro" = Some old ->
               (old < next_timer b)%positive ->
               old ∉ intervals (startKiroPolling stateParam b)) /\
  timers (startKiroPolling stateParam b) !! "kiro" = Some (next_timer b) /\
  next_timer b ∈ intervals (startKiroPolling stateParam b) /\
  p_delay <$> closures (startKiroPolling stateParam b) !! next_timer b = Some 3000%Z.
Proof. exact (install_clears_registered KiroPolling stateParam b). Qed.

Lemma open_auth_url_intervals (timer : positive) (url : string) (b : Browser) :
  intervals (open_auth_url timer url b) = intervals b.
Proof.
  unfold open_auth_url. destruct (closures b !! timer) as [c|]; [|done].
  by destruct (authUrlOpened c).
Qed.

(** The callback of an active timer clears the timer exactly on the
    outcomes [ok], terminal [error] and rejection. *)
Lemma settle_clears_exactly (n : nat) (outcome : Outcome) (timer : positive)
      (c : Poller) (b : Browser) :
  in_flight b !! n = Some timer ->
  closures b !! timer = Some c ->
  timer ∈ intervals b ->
  intervals (settle n outcome b)
  = if clears (p_kind c) outcome then intervals b ∖ {[timer]} else intervals b.
Proof.
  intros Hn Hc Hin. unfold settle. rewrite Hn, Hc.
  destruct (p_kind c) as [provider|]; simpl.
  - unfold provider_settled. destruct outcome as [message|res]; simpl; [done|].
    destruct (String.eqb (as_status res) "ok"); simpl; [done|].
    by destruct (String.eqb (as_status res) "error").
  - unfold kiro_settled. destruct outcome as [message|res]; simpl; [done|].
    destruct (String.eqb_spec (as_status res) "ok") as [Hok|Hok]; simpl; [done|].
    destruct (String.eqb_spec (as_status res) "device_code") as [Hd|Hd]; simpl.
    { by rewrite Hd. }
    destruct (String.eqb_spec (as_status res) "auth_url") as [Ha|Ha]; simpl.
    { rewrite Ha. simpl. destruct (KiroApi.truthy_opt (as_url res)); simpl; [|done].
      by rewrite open_auth_url_intervals. }
    destruct (String.eqb (as_status res) "error"); simpl; [|done].
    destruct (startsWith _ AUTH_URL_PREFIX); simpl; [|done].
    by rewrite open_auth_url_intervals.
Qed.

(** C3. A status response that arrives after its timer was cleared: the
    callback deletes the registration of the timer that is polling now, so
    the next login leaves that timer running and installs another one. Two
    polling timers are then active for the same provider key. Every login
    in the Kiro run is made while the login buttons are enabled. *)
Theorem stale_response_two_timers :
  let b := run kiro_stale_response initial in
  active_for "kiro" b = [3; 2]%positive /\
  timers b !! "kiro" = Some 3%positive /\
  map (fun k => ui_polling (kiroState (run (take k kiro_stale_response) initial)))
      [0; 5; 8] = [false; false; false] /\
  active_for "codex" (run provider_stale_response initial) = [3; 2]%positive.
Proof. by vm_compute. Qed.

End PollingFacts.
(** * The display helpers and the account card *)

Section StatsViewFacts.
Import JsString Stats StatsView.
Local Open Scope Qc_scope.

Lemma filter_partition3_length {A} (p q r : A -> bool) (l : list A) :
  (forall a, p a && q a = false) ->
  (forall a, p a && r a = false) ->
  (forall a, q a && r a = false) ->
  (length (List.filter p l) + length (List.filter q l) + length (List.filter r l)
   + length (List.filter (fun a => negb (p a || q a || r a)) l)
   = length l)%nat.
Proof.
  intros Hpq Hpr Hqr. induction l as [|a l IH]; simpl; [done|].
  specialize (Hpq a). specialize (Hpr a). specialize (Hqr a).
  destruct (p a), (q a), (r a); simpl in *; try discriminate; lia.
Qed.

Lemma isAccountActive_status (account : KiroAccountItem) :
  isAccountActive account
  = String.eqb (status account) "active" || String.eqb (status account) "正常"
    || String.eqb (status account) "有效".
Proof.
  unfold isAccountActive, KIRO_STATUS_ACTIVE.
  destruct (String.eqb_spec (status account) "active") as [->|H1]; [done|].
  destruct (String.eqb_spec (status account) "正常") as [->|H2]; [done|].
  destruct (String.eqb_spec (status account) "有效") as [->|H3]; [done|].
  simpl. apply bool_decide_eq_false.
  rewrite !elem_of_cons, elem_of_nil. tauto.
Qed.

(** X1. The status counters of [calcAccountStats] count disjoint sets of
    accounts: [active], [banned], [expired] and the number of accounts whose
    status is none of these add up to [total]. *)
Theorem calcAccountStats_status_partition (accounts : list KiroAccountItem) :
  (active (calcAccountStats accounts) + banned (calcAccountStats accounts)
   + expired (calcAccountStats accounts)
   + length (List.filter
               (fun a => negb (isAccountActive a || isAccountBanned a
                               || isAccountExpired a)) accounts)
   = total (calcAccountStats accounts))%nat.
Proof.
  cbn [calcAccountStats active banned expired total].
  apply filter_partition3_length; intros a;
    rewrite ?isAccountActive_status; unfold isAccountBanned, isAccountExpired;
    destruct (String.eqb_spec (status a) "active") as [->|?]; try done;
    destruct (String.eqb_spec (status a) "正常") as [->|?]; try done;
    destruct (String.eqb_spec (status a) "有效") as [->|?]; try done;
    destruct (String.eqb_spec (status a) "banned") as [->|?]; try done.
Qed.

(** X2. The colour that [getStatusColor] gives the status of an account
    agrees with the status predicates that [calcAccountStats] counts with:
    green exactly for an active account, orange for an expired one, red for
    a banned one, and gray for every other account. *)
Theorem getStatusColor_status_predicates (account : KiroAccountItem) :
  (getStatusColor (status account) = "green" <-> isAccountActive account = true) /\
  (getStatusColor (status account) = "orange" <-> isAccountExpired account = true) /\
  (getStatusColor (status account) = "red" <-> isAccountBanned account = true) /\
  (getStatusColor (status account) = "gray" <->
   isAccountActive account || isAccountExpired account || isAccountBanned account
   = false).
Proof.
  rewrite isAccountActive_status. unfold getStatusColor, isAccountExpired, isAccountBanned.
  destruct (String.eqb_spec (status account) "active") as [H|?];
    [rewrite ?H; by vm_compute|].
  destruct (String.eqb_spec (status account) "正常") as [H|?];
    [rewrite ?H; by vm_compute|].
  destruct (String.eqb_spec (status account) "有效") as [H|?];
    [rewrite ?H; by vm_compute|].
  destruct (String.eqb_spec (status account) "expired") as [H|?];
    [rewrite ?H; by vm_compute|].
  destruct (String.eqb_spec (status account) "banned") as [H|?]; by vm_compute.
Qed.

Lemma account_percent_without_breakdown (account : KiroAccountItem) :
  getBreakdown account = None -> account_percent account = Some hundred.
Proof.
  intros H. unfold account_percent, getQuota, getUsed. rewrite H.
  unfold getUsagePercent. destruct (decide (minus_one = 0)) as [E|_]; [done|].
  unfold js_div. destruct (decide (minus_one = 0)) as [E|_]; [done|].
  reflexivity.
Qed.

(** X3. An account without a usage breakdown (no usage data at all, or
    usage data that holds no breakdown) has quota -1 and usage -1, so its
    usage percentage is 100: the account card shows [100%] at the
    [critical] level with a full quota bar, not the placeholder [-]. *)
Theorem card_without_breakdown_shows_full (account : KiroAccountItem) :
  getBreakdown account = None ->
  getQuota account = minus_one /\ getUsed account = minus_one /\
  exists percent,
    account_percent account = Some percent /\
    card_percent_text percent = "100%" /\
    card_usage_level percent = "critical" /\
    card_bar_width percent = hundred.
Proof.
  intros H. unfold getQuota, getUsed. rewrite H. split; [done|]. split; [done|].
  exists hundred. split; [by apply account_percent_without_breakdown|].
  split; [by vm_compute|]. split; [by vm_compute|].
  apply Qc_is_canon. by vm_compute.
Qed.

Lemma collect_accounts_no_usage (files : list AuthFileItem) :
  Forall (fun a => usageData a = None) (KiroApi.collect_accounts files).
Proof.
  rewrite collect_accounts_filter. apply Forall_map, Forall_forall.
  intros file _. unfold KiroApi.account_of_file.
  repeat match goal with
         | |- context [if ?b then _ else _] => destruct b
         end; reflexivity.
Qed.

Lemma filter_always {A} (p : A -> bool) (l : list A) :
  Forall (fun a => p a = true) l -> List.filter p l = l.
Proof.
  induction 1 as [|a l Ha _ IH]; simpl; [done|]. by rewrite Ha, IH.
Qed.

Lemma filter_none {A} (p : A -> bool) (l : list A) :
  Forall (fun a => p a = false) l -> List.filter p l = [].
Proof.
  induction 1 as [|a l Ha _ IH]; simpl; [done|]. by rewrite Ha, IH.
Qed.

(** X4. The accounts that [getAccounts] builds from a listing carry no
    usage data. In the statistics of such a list every account counts as
    free and none as pro or pro+, the quota and usage totals, the usage
    percentage and the remaining quota are 0, while each account on its own
    has the usage percentage 100. *)
Theorem listed_accounts_stats (files : list AuthFileItem) :
  free (calcAccountStats (KiroApi.collect_accounts files))
  = total (calcAccountStats (KiroApi.collect_accounts files)) /\
  pro (calcAccountStats (KiroApi.collect_accounts files)) = 0%nat /\
  proPlus (calcAccountStats (KiroApi.collect_accounts files)) = 0%nat /\
  totalQuota (calcAccountStats (KiroApi.collect_accounts files)) = 0%Z /\
  totalUsed (calcAccountStats (KiroApi.collect_accounts files)) = 0%Z /\
  usagePercent (calcAccountStats (KiroApi.collect_accounts files)) = 0 /\
  remaining (calcAccountStats (KiroApi.collect_accounts files)) = 0%Z /\
  Forall (fun a => account_percent a = Some hundred) (KiroApi.collect_accounts files).
Proof.
  pose proof (collect_accounts_no_usage files) as Hno.
  set (accounts := KiroApi.collect_accounts files) in *.
  assert (Hfree : List.filter isFree accounts = accounts).
  { apply filter_always. eapply Forall_impl; [exact Hno|].
    intros a Ha. unfold isFree, getSubType, getSubPlan. by rewrite Ha. }
  assert (Hpro : List.filter isPro accounts = []).
  { apply filter_none. eapply Forall_impl; [exact Hno|].
    intros a Ha. unfold isPro, isProPlus, getSubType, getSubPlan. by rewrite Ha. }
  assert (Hplus : List.filter isProPlus accounts = []).
  { apply filter_none. eapply Forall_impl; [exact Hno|].
    intros a Ha. unfold isProPlus, getSubType, getSubPlan. by rewrite Ha. }
  assert (Husage : List.filter (fun a => nonneg (getQuota a)) accounts = []).
  { apply filter_none. eapply Forall_impl; [exact Hno|].
    intros a Ha. unfold getQuota, getBreakdown. by rewrite Ha. }
  cbn [calcAccountStats free total pro proPlus totalQuota totalUsed usagePercent
       remaining].
  rewrite Hfree, Hpro, Hplus, Husage.
  repeat split; try done.
  eapply Forall_impl; [exact Hno|]. intros a Ha.
  apply account_percent_without_breakdown. unfold getBreakdown. by rewrite Ha.
Qed.

(** X5. What a usage response with status [ok] leaves in the refreshed
    account: the account is active, its quota and usage are the limit and
    usage of the response (0 when the response has none), its plan is the
    subscription title of the response ([Free] when it has none), and no
    reset date is kept, whatever the account held before. *)
Theorem apply_usage_ok_read_back
        (usage : KiroUsageResponse) (a : KiroAccountItem) (now : Z) :
  u_status usage = "ok" ->
  isAccountActive (KiroPage.apply_usage usage a) = true /\
  getQuota (KiroPage.apply_usage usage a) = default 0 (usage_limit usage) /\
  getUsed (KiroPage.apply_usage usage a) = default 0 (current_usage usage) /\
  getSubPlan (KiroPage.apply_usage usage a)
  = default "Free" (subscription_title usage) /\
  getSubType (KiroPage.apply_usage usage a) = "subscription" /\
  getDaysUntilReset now (KiroPage.apply_usage usage a) = NoReset.
Proof.
  intros Hok. unfold KiroPage.apply_usage. rewrite Hok. simpl.
  split; [done|]. unfold getQuota, getUsed. simpl.
  split; [unfold nullish0; simpl; ring|]. split; [unfold nullish0; simpl; ring|].
  done.
Qed.

End StatsViewFacts.
Section DaysFacts.
Import JsString Stats StatsView.
Local Open Scope Qc_scope.

Lemma Qceiling_div_bounds (n : Z) (m : positive) :
  ((Qceiling (inject_Z n / inject_Z (Z.pos m)) - 1) * Z.pos m < n
   <= Qceiling (inject_Z n / inject_Z (Z.pos m)) * Z.pos m)%Z.
Proof.
  assert (Heq : (inject_Z n / inject_Z (Z.pos m) == n # m)%Q).
  { unfold Qdiv, Qinv, Qmult, inject_Z, Qeq. simpl. lia. }
  rewrite (Qceiling_comp _ _ Heq).
  unfold Qceiling, Qfloor, Qopp. cbn [Qnum Qden].
  pose proof (Z.div_mod (- n) (Z.pos m) ltac:(lia)) as Hdm.
  pose proof (Z.mod_pos_bound (- n) (Z.pos m) ltac:(lia)) as Hb.
  generalize dependent ((- n) / Z.pos m)%Z. generalize dependent ((- n) mod Z.pos m)%Z.
  intros r Hr q Hq. nia.
Qed.

Lemma days_until_rounds_up (now : Z) (reset : number) :
  - MAX_TIME ≤ reset -> reset ≤ MAX_TIME ->
  exists d : Z,
    days_until now reset = Days (Q2Qc (inject_Z d)) /\
    ((d - 1) * MS_PER_DAY < truncate reset - now <= d * MS_PER_DAY)%Z.
Proof.
  intros Hlo Hhi. unfold days_until, Date_time.
  destruct (decide (- MAX_TIME ≤ reset)); [|done].
  destruct (decide (reset ≤ MAX_TIME)); [|done].
  eexists. split; [reflexivity|].
  apply (Qceiling_div_bounds (truncate reset - now) 86400000).
Qed.

(** X6. For an account whose usage data has no [daysUntilReset] and a
    [nextDateReset] that is a valid time other than 0, [getDaysUntilReset]
    is the number of days rounded up: the least whole number of days after
    which the reset time is reached (0 or negative when it has passed). *)
Theorem getDaysUntilReset_rounds_up
        (now : Z) (account : KiroAccountItem) (ud : KiroUsageData) (reset : number) :
  usageData account = Some ud ->
  daysUntilReset ud = None ->
  nextDateReset ud = Some reset ->
  reset <> 0 ->
  - MAX_TIME ≤ reset -> reset ≤ MAX_TIME ->
  exists d : Z,
    getDaysUntilReset now account = Days (Q2Qc (inject_Z d)) /\
    ((d - 1) * MS_PER_DAY < truncate reset - now <= d * MS_PER_DAY)%Z.
Proof.
  intros Hud Hdays Hreset Hne Hlo Hhi.
  unfold getDaysUntilReset. rewrite Hud. simpl. rewrite Hdays, Hreset. simpl.
  rewrite bool_decide_eq_false_2 by done. simpl.
  by apply days_until_rounds_up.
Qed.

End DaysFacts.
(** * Reading one account, and the file names behind the ids *)

Section KiroApiReadFacts.
Import JsString KiroApi KiroApiRead Reference.
Context {World Response Err : Type}.
Variable backend_get : string -> World -> (Err + Response) * World.
Variable backend_delete : string -> World -> (Err + Response) * World.
Variable encodeURIComponent : string -> string.
Variable files_of : Response -> option (list AuthFileItem).
Variable content_of : Response -> option Content.
Variable string_of_error : Err -> string.
Variable Date_parse : string -> option Z.
Variable clock : World -> Z.
Variable JSON_stringify_export : list ExportedAccount -> string.

Local Abbreviation deleteAccount := (deleteAccount backend_delete encodeURIComponent).
Local Abbreviation getAccounts := (getAccounts backend_get files_of).
Local Abbreviation auth_file_url := (auth_file_url encodeURIComponent).
Local Abbreviation getAccount :=
  (getAccount backend_get encodeURIComponent content_of Date_parse clock).
Local Abbreviation getAccountUsage :=
  (getAccountUsage backend_get encodeURIComponent content_of Date_parse clock).
Local Abbreviation refreshAccount :=
  (refreshAccount backend_get encodeURIComponent content_of string_of_error
                  Date_parse clock).
Local Abbreviation exportAccounts :=
  (exportAccounts backend_get files_of JSON_stringify_export).

Local Arguments Ascii.eqb : simpl never.

Lemma endsWith_app (base suffix : string) :
  endsWith (base +:+ suffix) suffix = true.
Proof.
  unfold endsWith. rewrite string_length_app.
  replace (String.length base + String.length suffix - String.length suffix)
    with (String.length base) by lia.
  rewrite substring_app_r, String.eqb_refl.
  rewrite andb_true_r. apply Nat.leb_le. lia.
Qed.

Lemma startsWith_app (p rest : string) : startsWith (p +:+ rest) p = true.
Proof.
  induction p as [|c p IH]; simpl; [by destruct rest|].
  by rewrite Ascii.eqb_refl.
Qed.

Lemma includes_app (a p rest : string) : includes (a +:+ p +:+ rest) p = true.
Proof.
  induction a as [|c a IH].
  - change ("" +:+ p +:+ rest) with (p +:+ rest).
    destruct (p +:+ rest) eqn:E; cbn [includes]; rewrite <- E, startsWith_app; done.
  - change (String c a +:+ p +:+ rest) with (String c (a +:+ p +:+ rest)).
    cbn [includes]. rewrite IH. apply orb_true_r.
Qed.

Lemma substring_split (n : nat) (s : string) :
  n <= String.length s ->
  s = substring 0 n s +:+ substring n (String.length s - n) s.
Proof.
  revert s. induction n as [|n IH]; intros s Hn.
  - rewrite Nat.sub_0_r, substring_all. by destruct s.
  - destruct s as [|c s]; simpl in *; [lia|].
    change (String c s = String c (substring 0 n s +:+ substring n (String.length s - n) s)).
    f_equal. apply IH. lia.
Qed.

Lemma string_app_empty_r (s : string) : s +:+ "" = s.
Proof.
  induction s as [|c s IH]; [done|].
  change (String c s +:+ "") with (String c (s +:+ "")). by rewrite IH.
Qed.

Lemma endsWith_includes (s p : string) :
  endsWith s p = true -> includes s p = true.
Proof.
  unfold endsWith. intros H. apply andb_true_iff in H as [Hlen Heq].
  apply Nat.leb_le in Hlen. apply String.eqb_eq in Heq.
  rewrite (substring_split (String.length s - String.length p) s) by lia.
  replace (String.length s - (String.length s - String.length p))
    with (String.length p) by lia.
  rewrite Heq.
  rewrite <- (string_app_empty_r p) at 2.
  apply includes_app.
Qed.

(** X7. The file name that [deleteAccount], [getAccount] and
    [refreshAccount] derive from an id always ends with [.json], and
    deriving it again from the file name changes nothing: an id and the
    file name of the id address the same file. *)
Theorem fileName_of_id_idempotent (account_id : string) :
  endsWith (fileName_of_id account_id) ".json" = true /\
  fileName_of_id (fileName_of_id account_id) = fileName_of_id account_id.
Proof.
  unfold fileName_of_id.
  destruct (endsWith account_id ".json") eqn:E.
  - by rewrite E.
  - by rewrite endsWith_app.
Qed.

Lemma fileName_of_listed_id (base : string) (file : AuthFileItem) :
  af_name file = base +:+ ".json" ->
  includes base ".json" = false ->
  fileName_of_id (id (account_of_file file)) = af_name file.
Proof.
  intros Hname Hinc.
  rewrite (account_id_when_suffix_only base) by done.
  rewrite Hname, strip_json_suffix_app. unfold fileName_of_id.
  destruct (endsWith base ".json") eqn:E; [|done].
  apply endsWith_includes in E. congruence.
Qed.

(** X8. For a listed file whose name holds [.json] only as its suffix,
    the id of the listed account leads back to the file: the file name
    derived from the id is the name of the file, so deleting the account
    sends the delete request for that file, and reading the account again
    requests that file. *)
Theorem listed_account_id_addresses_its_file
        (base : string) (file : AuthFileItem) (c : Client World) :
  af_name file = base +:+ ".json" ->
  includes base ".json" = false ->
  fileName_of_id (id (account_of_file file)) = af_name file /\
  fileName (account_of_file file) = Some (af_name file) /\
  log (snd (deleteAccount (id (account_of_file file)) c))
  = log c ++ [DELETE (auth_file_url (af_name file))] /\
  log (snd (getAccount (id (account_of_file file)) c))
  = log c ++ [GET (auth_file_url (af_name file))].
Proof.
  intros Hname Hinc.
  pose proof (fileName_of_listed_id base file Hname Hinc) as Hfile.
  split; [done|]. split.
  { unfold account_of_file.
    repeat match goal with
           | |- context [if ?b then _ else _] => destruct b
           end; reflexivity. }
  split.
  - rewrite deleteAccount_log. unfold delete_request. by rewrite Hfile.
  - unfold KiroApiRead.getAccount, AsyncM.try_catch, AsyncM.bind, AsyncM.ret,
      apiClient_get. rewrite Hfile.
    by destruct (backend_get _ _) as [[e|response] w].
Qed.

(** X9. [getAccount] never rejects. It sends one request, for the file of
    the id, and resolves with [null] exactly when that request is rejected;
    otherwise with the account parsed from the response, whose file name is
    the file of the id. [getAccountUsage] does the same and resolves with
    the usage data of that account, [null] when there is no account or no
    usage data. *)
Theorem getAccount_never_rejects (account_id : string) (c : Client World) :
  exists r c',
    getAccount account_id c = (inr r, c') /\
    getAccountUsage account_id c = (inr (a ← r; usageData a), c') /\
    log c' = log c ++ [GET (auth_file_url (fileName_of_id account_id))] /\
    (r = None <->
     exists e, fst (backend_get (auth_file_url (fileName_of_id account_id)) (world c))
               = inl e) /\
    (forall a, r = Some a ->
               fileName a = Some (fileName_of_id account_id) /\
               id a = replace (fileName_of_id account_id) ".json" "").
Proof.
  unfold KiroApiRead.getAccountUsage, KiroApiRead.getAccount, AsyncM.try_catch,
    AsyncM.bind, AsyncM.ret, apiClient_get.
  destruct (backend_get _ _) as [[e|response] w]; simpl.
  - eexists _, _. split; [reflexivity|]. simpl. split; [done|]. split; [done|].
    split; [|done]. split; eauto.
  - eexists _, _. split; [reflexivity|]. simpl. split; [done|]. split; [done|].
    unfold parseKiroAuthFile.
    repeat match goal with
           | |- context [if ?b then _ else _] => destruct b
           end;
      (split; [split; [done|by intros [? ?]]|]);
      intros a [= <-]; done.
Qed.

(** X10. [refreshAccount] reads the account as [getAccount] does: from the
    same state both send the same request and end in the same state;
    [refreshAccount] reports success with the account that [getAccount]
    resolves with, and failure when [getAccount] resolves with [null]. *)
Theorem refreshAccount_reads_as_getAccount (account_id : string) (c : Client World) :
  exists account result c',
    getAccount account_id c = (inr account, c') /\
    refreshAccount account_id c = (inr result, c') /\
    rr_account result = account /\
    rr_success result = bool_decide (is_Some account) /\
    (is_Some (rr_error result) <-> account = None).
Proof.
  unfold KiroApiRead.getAccount, KiroApi.refreshAccount, AsyncM.try_catch,
    AsyncM.bind, AsyncM.ret, apiClient_get.
  destruct (backend_get _ _) as [[e|response] w]; simpl.
  - eexists _, _, _. split; [reflexivity|]. split; [reflexivity|]. simpl.
    split; [done|]. split; [done|]. split; eauto.
  - eexists _, _, _. split; [reflexivity|]. split; [reflexivity|]. simpl.
    split; [done|].
    unfold parseKiroAuthFile.
    repeat match goal with
           | |- context [if ?b then _ else _] => destruct b
           end; (split; [done|]); (split; [by intros [? ?]|done]).
Qed.

Lemma Forall_List_filter {A} (P : A -> Prop) (p : A -> bool) (l : list A) :
  Forall P l -> Forall P (List.filter p l).
Proof.
  induction 1 as [|a l Ha _ IH]; simpl; [done|].
  destruct (p a); [by constructor|done].
Qed.

Lemma Forall_List_filter_holds {A} (p : A -> bool) (l : list A) :
  Forall (fun a => p a = true) (List.filter p l).
Proof.
  induction l as [|a l IH]; simpl; [done|].
  destruct (p a) eqn:E; [by constructor|done].
Qed.

Lemma account_of_file_listing_fields (file : AuthFileItem) :
  expiresAt (account_of_file file) = None /\
  region (account_of_file file) = None /\
  createdAt (account_of_file file) = None /\
  updatedAt (account_of_file file) = None.
Proof.
  unfold account_of_file.
  repeat match goal with
         | |- context [if ?b then _ else _] => destruct b
         end; done.
Qed.

(** X14. [exportAccounts] reads the listing only (one request) and is
    rejected when the listing is. Its entries are those of the listed
    accounts whose id is among the given ids, in the order of the listing;
    without ids, and also with an empty list of ids, every listed account
    is exported. No entry carries an expiry time, a region or a creation
    or update time, since the listing holds none. *)
Theorem exportAccounts_entries (ids : option (list string)) (c : Client World) :
  log (snd (exportAccounts ids c)) = log c ++ [GET "/auth-files"] /\
  match fst (backend_get "/auth-files" (world c)) with
  | inl e => fst (exportAccounts ids c) = inl e
  | inr response =>
      exists entries,
        fst (exportAccounts ids c) = inr (JSON_stringify_export entries) /\
        Forall (fun x => ex_expiresAt x = None /\ ex_region x = None /\
                         ex_createdAt x = None /\ ex_updatedAt x = None) entries /\
        (forall i rest, ids = Some (i :: rest) ->
                        Forall (fun x => ex_id x ∈ i :: rest) entries /\
                        map ex_id entries
                        = List.filter (fun x => bool_decide (x ∈ i :: rest))
                            (map id (collect_accounts (default [] (files_of response))))) /\
        (ids = None \/ ids = Some [] ->
         map ex_id entries
         = map id (collect_accounts (default [] (files_of response))))
  end.
Proof.
  unfold KiroApiRead.exportAccounts, KiroApi.getAccounts, AsyncM.bind, AsyncM.ret,
    apiClient_get.
  destruct (backend_get _ _) as [[e|response] w]; simpl; [done|].
  split; [done|]. eexists. split; [reflexivity|].
  set (listed := collect_accounts (default [] (files_of response))).
  assert (Hlisted : Forall (fun a => exists file, a = account_of_file file) listed).
  { subst listed. rewrite collect_accounts_filter. apply Forall_map, Forall_forall.
    intros file _. by exists file. }
  split; [|split].
  - apply Forall_map.
    assert (Hsub : Forall (fun a => exists file, a = account_of_file file)
                          (toExport ids listed)).
    { destruct ids as [[|i rest]|]; simpl; try done.
      by apply Forall_List_filter. }
    eapply Forall_impl; [exact Hsub|]. intros a [file ->]. simpl.
    apply account_of_file_listing_fields.
  - intros i rest ->. simpl. split.
    + apply Forall_map.
      eapply Forall_impl; [apply Forall_List_filter_holds|].
      intros a Ha. simpl in *. by apply bool_decide_eq_true in Ha.
    + rewrite map_map. simpl. clear. induction listed as [|a l IH]; simpl; [done|].
      destruct (bool_decide _); simpl; by rewrite IH.
  - intros [->| ->]; simpl; by rewrite map_map.
Qed.

End KiroApiReadFacts.
Section ProviderFacts.
Import JsString KiroApi KiroApiRead Reference.
Variable Date_parse : string -> option Z.

(** Decide the tests of the goal that compute. *)
Ltac eval_if :=
  match goal with
  | |- context [if ?b then _ else _] =>
      let v := eval vm_compute in b in
      match v with
      | true => change b with true; cbv iota
      | false => change b with false; cbv iota
      end
  end.

Lemma startsWith_inv (s p : string) :
  startsWith s p = true -> exists rest, s = p +:+ rest.
Proof.
  revert s. induction p as [|c p IH]; intros s H.
  - by exists s.
  - destruct s as [|d s]; [done|]. simpl in H.
    destruct (Ascii.eqb_spec c d) as [->|]; [|done].
    destruct (IH s H) as [rest ->]. by exists rest.
Qed.

(** X11. For a file whose name starts with [kiro-google-], [kiro-github-]
    or [amazonq-], the account of the listing and the account parsed from
    the file have the same provider and the same authentication method. *)
Theorem listing_and_file_agree_on_provider
        (file : AuthFileItem) (now : Z) (content : Content) (prefix : string) :
  prefix ∈ ["kiro-google-"; "kiro-github-"; "amazonq-"] ->
  startsWith (af_name file) prefix = true ->
  isKiroAuthFile (af_name file) = true /\
  exists a,
    parseKiroAuthFile Date_parse now (af_name file) content = Some a /\
    provider a = provider (account_of_file file) /\
    authMethod a = authMethod (account_of_file file).
Proof.
  intros Hprefix Hstarts.
  apply startsWith_inv in Hstarts as [rest Hname].
  unfold parseKiroAuthFile, account_of_file, isKiroAuthFile. rewrite Hname.
  rewrite !elem_of_cons, elem_of_nil in Hprefix.
  destruct Hprefix as [->|[->|[->|[]]]]; destruct rest; (split; [reflexivity|]);
    eexists; (split; [reflexivity|]); split; reflexivity.
Qed.

(** X12. The two places disagree on the prefix of an AWS Builder ID file.
    For a name that starts with [kiro-aws-] the account parsed from the
    file has the provider [BuilderId], the account of the listing never;
    for a name that starts with [kiro-builderid-] it is the other way
    round. *)
Theorem listing_and_file_differ_on_builder_id
        (file : AuthFileItem) (now : Z) (content : Content) :
  (startsWith (af_name file) "kiro-aws-" = true ->
   provider (account_of_file file) <> "BuilderId" /\
   exists a, parseKiroAuthFile Date_parse now (af_name file) content = Some a /\
             provider a = "BuilderId") /\
  (startsWith (af_name file) "kiro-builderid-" = true ->
   provider (account_of_file file) = "BuilderId" /\
   exists a, parseKiroAuthFile Date_parse now (af_name file) content = Some a /\
             provider a <> "BuilderId").
Proof.
  split; intros Hstarts; apply startsWith_inv in Hstarts as [rest Hname];
    unfold parseKiroAuthFile, account_of_file; rewrite Hname; destruct rest;
    repeat eval_if;
    repeat match goal with
           | |- context [if ?b then _ else _] => destruct b
           end;
    (split; [done|eexists; split; [reflexivity|done]]).
Qed.

End ProviderFacts.
Section FileNameFacts.
Import JsString KiroApi KiroApiRead Reference.

Lemma split_nonempty (sep : ascii) (s : string) : split sep s <> [].
Proof.
  destruct s as [|c s]; simpl; [done|].
  destruct (Ascii.eqb c sep); [done|]. by destruct (split sep s).
Qed.

Lemma join_cons (sep w : string) (ws : list string) :
  ws <> [] -> join sep (w :: ws) = w +:+ sep +:+ join sep ws.
Proof. by destruct ws. Qed.

(** [parts.join('-')] undoes [s.split('-')]. *)
Lemma join_split (s : string) : join "-" (split "-" s) = s.
Proof.
  induction s as [|c s IH]; [done|]. cbn [split].
  pose proof (split_nonempty "-" s) as Hne.
  destruct (Ascii.eqb_spec c "-") as [->|Hc].
  - rewrite join_cons by done. by rewrite IH.
  - destruct (split "-" s) as [|w ws]; [done|].
    destruct ws as [|w' ws].
    + simpl in *. by rewrite IH.
    + rewrite join_cons in IH by done. rewrite join_cons by done.
      change (String c w +:+ "-" +:+ join "-" (w' :: ws))
        with (String c (w +:+ "-" +:+ join "-" (w' :: ws))).
      by rewrite IH.
Qed.

Lemma split_first_part (a s : string) :
  includes a "-" = false ->
  split "-" (a +:+ "-" +:+ s) = a :: split "-" s.
Proof.
  induction a as [|c a IH]; intros Hinc; [done|].
  cbn [includes] in Hinc. apply orb_false_iff in Hinc as [Hs Hrest].
  change (String c a +:+ "-" +:+ s) with (String c (a +:+ "-" +:+ s)).
  cbn [split]. rewrite IH by done.
  destruct (Ascii.eqb_spec c "-") as [->|Hc]; [|done].
  simpl in Hs. by destruct a.
Qed.

(** X13. The id that [extractIdFromFileName] takes from a file name (the
    email of a listed account without an email): for a name in three or
    more parts [p1-p2-rest.json] it is [rest], the name without its first
    two parts; for a name in two parts [p1-p2.json] it is [p1-p2], so the
    prefix of an [amazonq-] file is kept. *)
Theorem extractIdFromFileName_parts (p1 p2 rest : string) :
  includes p1 "-" = false ->
  includes p2 "-" = false ->
  includes (p1 +:+ "-" +:+ p2 +:+ "-" +:+ rest) ".json" = false ->
  extractIdFromFileName ((p1 +:+ "-" +:+ p2 +:+ "-" +:+ rest) +:+ ".json") = rest /\
  (includes (p1 +:+ "-" +:+ p2) ".json" = false ->
   extractIdFromFileName ((p1 +:+ "-" +:+ p2) +:+ ".json") = p1 +:+ "-" +:+ p2).
Proof.
  intros H1 H2 Hjson. unfold extractIdFromFileName. split.
  - rewrite replace_json_suffix by done.
    rewrite !split_first_part by done.
    pose proof (split_nonempty "-" rest) as Hne.
    destruct (split "-" rest) as [|w ws] eqn:E; [done|].
    cbn [length Nat.leb skipn]. rewrite <- E. apply join_split.
  - intros Hjson2. rewrite replace_json_suffix by done.
    rewrite split_first_part by done.
    assert (Hp2 : split "-" p2 = [p2]).
    { clear -H2. induction p2 as [|c p IH]; [done|].
      cbn [includes] in H2. apply orb_false_iff in H2 as [Hs Hrest].
      cbn [split]. rewrite IH by done.
      destruct (Ascii.eqb_spec c "-") as [->|Hc]; [|done].
      simpl in Hs. by destruct p. }
    by rewrite Hp2.
Qed.

End FileNameFacts.
(** * The handlers of the account page *)

Section PageFacts.
Import JsString Stats KiroPage KiroPageHandlers PageSpec Reference.
Context {World Response Err : Type}.
Variable JSON_stringify : list KiroAccountItem -> option string.
Variable JSON_parse : string -> option (list KiroAccountItem).
Variable backend_get : string -> World -> (Err + Response) * World.
Variable backend_delete : string -> World -> (Err + Response) * World.
Variable encodeURIComponent : string -> string.
Variable files_of : Response -> option (list AuthFileItem).

Local Abbreviation updateCache := (updateCache JSON_stringify).
Local Abbreviation loadAccounts := (loadAccounts JSON_stringify backend_get files_of).
Local Abbreviation mount := (mount JSON_stringify backend_get files_of).
Local Abbreviation handleRefresh := (handleRefresh JSON_stringify).
Local Abbreviation handleRefreshAll := (handleRefreshAll JSON_stringify).
Local Abbreviation handleDeleteConfirm :=
  (handleDeleteConfirm JSON_stringify backend_get backend_delete encodeURIComponent
                       files_of).
Local Abbreviation page_step :=
  (page_step JSON_stringify backend_get backend_delete encodeURIComponent files_of).
Local Abbreviation page_run :=
  (page_run JSON_stringify backend_get backend_delete encodeURIComponent files_of).
Local Abbreviation getAccounts := (KiroApi.getAccounts backend_get files_of).
Local Abbreviation deleteAccounts :=
  (KiroApi.deleteAccounts backend_delete encodeURIComponent).
Local Abbreviation delete_request := (delete_request encodeURIComponent).

Local Abbreviation page_written := (page_written JSON_stringify).

Lemma page_written_ok (p p' : Page) :
  page_written p p' -> page_ok p -> page_ok p'.
Proof.
  intros [| |l p0] [[Hc Hs] Hshow]; unfold page_ok, stats_in_sync, shows_cache;
    simpl; auto.
Qed.

Lemma initialPage_ok (ls : gmap string string) : page_ok (initialPage JSON_parse ls).
Proof.
  unfold page_ok, stats_in_sync, shows_cache, initialPage, loadCacheFromStorage.
  simpl. split; [|by left]. split; [|reflexivity].
  destruct (getItem _ _) as [raw|]; [|reflexivity].
  destruct (truthy raw); [|reflexivity].
  by destruct (JSON_parse raw).
Qed.

Lemma loadAccounts_written (forceRefresh : bool) (ui : PageUi) (c : Client World) :
  page_written (page ui) (page (fst (loadAccounts forceRefresh ui c))).
Proof.
  unfold KiroPageHandlers.loadAccounts.
  destruct (negb forceRefresh && _); simpl; [constructor|].
  destruct (KiroApi.getAccounts _ _ _) as [[e|data] c']; simpl; constructor.
Qed.

Lemma handleRefresh_written (outcome : string -> UsageOutcome) (account_id : string)
      (ui : PageUi) :
  page_written (page ui) (page (handleRefresh outcome account_id ui)).
Proof.
  unfold KiroPageHandlers.handleRefresh. simpl.
  destruct (find _ _) as [account|]; simpl; [|constructor].
  destruct (fileName account) as [f|]; simpl; [|constructor].
  destruct (truthy f); simpl; [|constructor].
  destruct (outcome f) as [errorMsg|usage].
  - destruct (_ || _); simpl; constructor.
  - repeat match goal with
           | |- context [if ?b then _ else _] => destruct b; simpl
           end; constructor.
Qed.

Lemma fold_updateCache_written {K} (f : K -> list KiroAccountItem) (ks : list K)
      (p : Page) :
  page_written p (fold_left (fun p k => updateCache (f k) p) ks p).
Proof.
  destruct ks as [|k ks] using rev_ind; simpl; [constructor|].
  rewrite fold_left_app. simpl. constructor.
Qed.

Lemma handleRefreshAll_written (outcome : nat -> string -> option KiroUsageResponse)
      (ui : PageUi) :
  page_written (page ui) (page (handleRefreshAll outcome ui)).
Proof.
  unfold KiroPageHandlers.handleRefreshAll, fetchUsageForAccounts.
  pose proof (fetch_loop_batches JSON_stringify outcome (st_accounts (page ui))
                (batch_count (length (st_accounts (page ui)))) 0
                (page (setRefreshingAll true ui)) []) as H.
  simpl in H. rewrite refreshed_upto_0 in H.
  change (page (setRefreshingAll true ui)) with (page ui).
  rewrite H by done. simpl.
  apply fold_updateCache_written.
Qed.

Lemma handleDeleteConfirm_written (ui : PageUi) (c : Client World) :
  page_written (page ui) (page (fst (handleDeleteConfirm ui c))).
Proof.
  unfold KiroPageHandlers.handleDeleteConfirm.
  destruct (deleteTarget ui) as [target|]; [|constructor].
  match goal with
  | |- context [let '(r, c1) := ?m in _] => destruct m as [[e|ui1] c1] eqn:Hm
  end.
  - simpl. constructor.
  - assert (Hpage : page ui1 = page ui).
    { destruct (dt_type target), (dt_id target) as [i|];
        repeat match type of Hm with
               | context [if ?b then _ else _] => destruct b
               | context [match ?m with _ => _ end] =>
                   destruct m as [[?|?] ?]
               end; by inversion Hm. }
    pose proof (loadAccounts_written true (setStatusFilter FilterAll ui1) c1) as Hw.
    destruct (KiroPageHandlers.loadAccounts _ _ _ _ _ _) as [ui2 c2]. simpl in *.
    by rewrite Hpage in Hw.
Qed.

Lemma page_step_written (ui : PageUi) (c : Client World) (a : PageAction) :
  page_written (page ui) (page (fst (page_step (ui, c) a))).
Proof.
  destruct a; simpl;
    try (unfold handleBatchDeleteClick, handleDeleteExpired, handleDeleteAbnormal;
         repeat match goal with
                | |- context [if ?b then _ else _] => destruct b
                end; simpl; by constructor).
  - apply loadAccounts_written.
  - apply handleRefresh_written.
  - apply handleRefreshAll_written.
  - apply handleDeleteConfirm_written.
  - apply loadAccounts_written.
Qed.

(** X15. Whatever happens on the page, from the moment it is loaded: after
    every sequence of handler calls, each running to its end before the
    next, the statistics on display are those of
    the accounts on display ([calcAccountStats]), the cached statistics
    are those of the cached accounts, and the accounts on display are the
    cached accounts (or none, before the first load). *)
Theorem page_stats_follow_accounts
        (ls : gmap string string) (actions : list PageAction) (c : Client World) :
  stats_in_sync
    (page (fst (page_run actions (initialUi (initialPage JSON_parse ls), c)))) /\
  shows_cache
    (page (fst (page_run actions (initialUi (initialPage JSON_parse ls), c)))).
Proof.
  change (page_ok (page (fst (page_run actions
                                       (initialUi (initialPage JSON_parse ls), c))))).
  assert (H : page_ok (page (fst (initialUi (initialPage JSON_parse ls), c))))
    by apply initialPage_ok.
  revert H. generalize (initialUi (initialPage JSON_parse ls), c).
  unfold PageSpec.page_run.
  induction actions as [|a actions IH]; intros [ui c0] Hok; simpl; [done|].
  apply IH. eapply page_written_ok; [apply page_step_written|done].
Qed.

Lemma filter_or_length {A} (p q : A -> bool) (l : list A) :
  (forall a, p a && q a = false) ->
  length (List.filter (fun a => p a || q a) l)
  = length (List.filter p l) + length (List.filter q l).
Proof.
  intros Hpq. induction l as [|a l IH]; simpl; [done|].
  specialize (Hpq a). destruct (p a), (q a); simpl in *; try discriminate; lia.
Qed.

Lemma filter_implies_length {A} (p q : A -> bool) (l : list A) :
  (forall a, p a = true -> q a = true) ->
  length (List.filter p l) <= length (List.filter q l).
Proof.
  intros Hpq. induction l as [|a l IH]; simpl; [done|].
  specialize (Hpq a). destruct (p a), (q a); simpl; try lia.
Qed.

Lemma filter_abnormal_length (accounts : list KiroAccountItem) :
  length (filteredAccounts FilterAbnormal accounts)
  = (expired (calcAccountStats accounts) + banned (calcAccountStats accounts))%nat.
Proof.
  cbn [calcAccountStats expired banned].
  apply (filter_or_length (fun a => String.eqb (status a) "expired")
                          (fun a => String.eqb (status a) "banned")).
  intros a. by destruct (String.eqb_spec (status a) "expired") as [->|].
Qed.

(** X16. The numbers of the statistics header are the sizes of the lists
    that its filters show: the filter [all] shows [total] accounts,
    [expired] shows [expired], [banned] shows [banned] and [abnormal] shows
    [expired + banned] accounts. The filter [active] shows at most [active]
    accounts: it keeps the status [active] only, while the statistics also
    count the two other spellings of an active status. *)
Theorem filteredAccounts_sizes (accounts : list KiroAccountItem) :
  length (filteredAccounts FilterAll accounts) = total (calcAccountStats accounts) /\
  length (filteredAccounts FilterExpired accounts)
  = expired (calcAccountStats accounts) /\
  length (filteredAccounts FilterBanned accounts)
  = banned (calcAccountStats accounts) /\
  length (filteredAccounts FilterAbnormal accounts)
  = StatsView.abnormalCount (calcAccountStats accounts) /\
  length (filteredAccounts FilterActive accounts)
  <= active (calcAccountStats accounts).
Proof.
  split; [done|]. split; [done|]. split; [done|]. split.
  - apply filter_abnormal_length.
  - cbn [calcAccountStats active]. apply filter_implies_length.
    intros a Ha. apply String.eqb_eq in Ha. unfold isAccountActive.
    rewrite Ha. by apply bool_decide_eq_true; left.
Qed.

Lemma update_account_ids (account_id : string) (f : KiroAccountItem -> KiroAccountItem)
      (accounts : list KiroAccountItem) :
  (forall a, id (f a) = id a) ->
  map id (update_account account_id f accounts) = map id accounts.
Proof.
  intros Hf. unfold update_account. rewrite map_map. apply map_ext.
  intros a. destruct (String.eqb _ _); [apply Hf|done].
Qed.

Lemma apply_usage_id (usage : KiroUsageResponse) (a : KiroAccountItem) :
  id (apply_usage usage a) = id a.
Proof.
  unfold apply_usage.
  repeat match goal with
         | |- context [if ?b then _ else _] => destruct b
         end; done.
Qed.

Lemma update_account_id_fixed (account_id : string) (accounts : list KiroAccountItem) :
  update_account account_id (fun a => a) accounts = accounts.
Proof.
  unfold update_account. rewrite <- (map_id accounts) at 2. apply map_ext.
  intros a. by destruct (String.eqb _ _).
Qed.

(** X17. [handleRefresh] for an account on display whose usage request
    resolves: the list on display afterwards is the list before, with the
    same update applied to the accounts of that id that the batch refresh
    applies to a settled account ([apply_usage]); the other accounts, the
    order and the ids are unchanged, a success is notified and no account
    is marked as refreshing any more. *)
Theorem handleRefresh_resolved
        (outcome : string -> UsageOutcome) (account_id : string) (ui : PageUi)
        (account : KiroAccountItem) (f : string) (usage : KiroUsageResponse) :
  find (fun a => String.eqb (id a) account_id) (st_accounts (page ui)) = Some account ->
  fileName account = Some f ->
  truthy f = true ->
  outcome f = UsageResolved usage ->
  st_accounts (page (handleRefresh outcome account_id ui))
  = map (fun a => if String.eqb (id a) account_id then apply_usage usage a else a)
        (st_accounts (page ui)) /\
  map id (st_accounts (page (handleRefresh outcome account_id ui)))
  = map id (st_accounts (page ui)) /\
  notifications (handleRefresh outcome account_id ui)
  = notifications ui ++ [ {| n_message := "kiro.notification.refreshed";
                             n_count := None; n_kind := "success" |} ] /\
  refreshingId (handleRefresh outcome account_id ui) = None.
Proof.
  intros Hfind Hfile Htruthy Houtcome.
  assert (Hlist : st_accounts (page (handleRefresh outcome account_id ui))
                  = update_account account_id (apply_usage usage)
                                   (st_accounts (page ui)) /\
                  notifications (handleRefresh outcome account_id ui)
                  = notifications ui ++ [ {| n_message := "kiro.notification.refreshed";
                                             n_count := None; n_kind := "success" |} ] /\
                  refreshingId (handleRefresh outcome account_id ui) = None).
  { unfold KiroPageHandlers.handleRefresh.
    cbn [page setRefreshingId]. rewrite Hfind, Hfile, Htruthy, Houtcome.
    unfold apply_usage.
    destruct (String.eqb (u_status usage) "ok"); [done|].
    destruct (String.eqb (u_status usage) "banned"); [done|].
    destruct (_ || _); [done|].
    simpl. by rewrite update_account_id_fixed. }
  destruct Hlist as (Hlist & Hnote & Hrefreshing).
  split; [exact Hlist|]. split; [|done].
  rewrite Hlist. apply update_account_ids, apply_usage_id.
Qed.

(** X18. [handleRefresh] when the usage request is rejected: if the error
    text holds [401] or [403], the accounts of that id are marked expired
    and the expiry is notified as an error; otherwise nothing on display
    changes and the general error is notified. No success is notified. *)
Theorem handleRefresh_rejected
        (outcome : string -> UsageOutcome) (account_id : string) (ui : PageUi)
        (account : KiroAccountItem) (f errorMsg : string) :
  find (fun a => String.eqb (id a) account_id) (st_accounts (page ui)) = Some account ->
  fileName account = Some f ->
  truthy f = true ->
  outcome f = UsageRejected errorMsg ->
  (includes errorMsg "403" || includes errorMsg "401" = true ->
   st_accounts (page (handleRefresh outcome account_id ui))
   = update_account account_id (with_status "expired") (st_accounts (page ui)) /\
   notifications (handleRefresh outcome account_id ui)
   = notifications ui ++ [ {| n_message := "Token 已过期"; n_count := None;
                              n_kind := "error" |} ]) /\
  (includes errorMsg "403" || includes errorMsg "401" = false ->
   page (handleRefresh outcome account_id ui) = page ui /\
   notifications (handleRefresh outcome account_id ui)
   = notifications ui ++ [ {| n_message := "common.error"; n_count := None;
                              n_kind := "error" |} ]) /\
  refreshingId (handleRefresh outcome account_id ui) = None.
Proof.
  intros Hfind Hfile Htruthy Houtcome.
  unfold KiroPageHandlers.handleRefresh.
  cbn [page setRefreshingId]. rewrite Hfind, Hfile, Htruthy, Houtcome.
  destruct (_ || _); (split; [|split]); try done.
Qed.

Lemma loadAccounts_request (ui : PageUi) (c : Client World) :
  exists ui' c',
    loadAccounts true ui c = (ui', c') /\
    log c' = log c ++ [GET "/auth-files"] /\
    loading ui' = false /\
    selectedIds ui' = selectedIds ui /\
    statusFilter ui' = statusFilter ui /\
    deleteModalOpen ui' = deleteModalOpen ui /\
    deleteTarget ui' = deleteTarget ui /\
    match fst (backend_get "/auth-files" (world c)) with
    | inl _ =>
        page ui' = page ui /\
        notifications ui'
        = notifications ui ++ [ {| n_message := "common.error"; n_count := None;
                                   n_kind := "error" |} ]
    | inr response =>
        page ui' = updateCache (KiroApi.collect_accounts (default [] (files_of response)))
                               (page ui) /\
        notifications ui' = notifications ui
    end.
Proof.
  unfold KiroPageHandlers.loadAccounts, KiroApi.getAccounts, AsyncM.bind, AsyncM.ret,
    KiroApi.apiClient_get. simpl.
  destruct (backend_get _ _) as [[e|response] w]; simpl;
    eexists _, _; (split; [reflexivity|]); simpl; done.
Qed.

(** X19. [loadAccounts] serves from the cache first: unless a refresh is
    forced, a cache that holds accounts is put on display without any
    request. Otherwise the listing is requested once; when the request is
    rejected the page keeps its accounts, its cache and its storage and an
    error is notified, and when it resolves the listed accounts become the
    cache and the display. Loading is over in every case. When the page is
    mounted the listing is requested only if the cache is empty. *)
Theorem loadAccounts_cache_first (forceRefresh : bool) (ui : PageUi) (c : Client World) :
  (forceRefresh = false -> cachedAccounts (page ui) <> [] ->
   loadAccounts forceRefresh ui c
   = (setLoading false (set_page (show_cache (page ui)) ui), c)) /\
  (forceRefresh = true \/ cachedAccounts (page ui) = [] ->
   exists ui' c',
     loadAccounts forceRefresh ui c = (ui', c') /\
     log c' = log c ++ [GET "/auth-files"] /\
     loading ui' = false /\
     match fst (backend_get "/auth-files" (world c)) with
     | inl _ =>
         page ui' = page ui /\
         notifications ui'
         = notifications ui ++ [ {| n_message := "common.error"; n_count := None;
                                    n_kind := "error" |} ]
     | inr response =>
         st_accounts (page ui')
         = KiroApi.collect_accounts (default [] (files_of response)) /\
         cachedAccounts (page ui') = st_accounts (page ui') /\
         notifications ui' = notifications ui
     end) /\
  mount ui c = loadAccounts (bool_decide (cachedAccounts (page ui) = [])) ui c.
Proof.
  split; [|split].
  - intros -> Hne. unfold KiroPageHandlers.loadAccounts.
    destruct (cachedAccounts (page ui)); done.
  - intros Hforce.
    assert (Hsame : loadAccounts forceRefresh ui c = loadAccounts true ui c).
    { unfold KiroPageHandlers.loadAccounts.
      destruct Hforce as [->|Hempty]; [done|]. rewrite Hempty.
      by destruct forceRefresh. }
    rewrite Hsame.
    destruct (loadAccounts_request ui c)
      as (ui' & c' & Hrun & Hlog & Hloading & _ & _ & _ & _ & Hcase).
    exists ui', c'. split; [done|]. split; [done|]. split; [done|].
    destruct (fst (backend_get _ _)) as [e|response]; [done|].
    destruct Hcase as [-> ->]. done.
  - unfold KiroPageHandlers.mount. by destruct (cachedAccounts (page ui)).
Qed.

Lemma deleteAccounts_resolves (ids : list string) (c : Client World) :
  exists r c',
    deleteAccounts ids c = (inr r, c') /\
    log c' = log c ++ map delete_request ids.
Proof.
  destruct (deleteAccounts_loop_spec backend_delete encodeURIComponent ids [] [] c)
    as (d & e & c' & Hrun & _ & Hlog).
  unfold KiroApi.deleteAccounts, AsyncM.bind. rewrite Hrun. simpl.
  by eexists _, c'.
Qed.

(** The ids that a confirmed deletion of several accounts sends. *)
Lemma deleteMany_confirmed (ui : PageUi) (c : Client World) (target : DeleteTarget)
      (ids : list string) :
  deleteTarget ui = Some target ->
  ids = match dt_type target with
        | DeleteBatch => selectedIds ui
        | DeleteExpired =>
            map id (filteredAccounts FilterExpired (st_accounts (page ui)))
        | _ => map id (filteredAccounts FilterAbnormal (st_accounts (page ui)))
        end ->
  dt_type target <> DeleteSingle ->
  exists ui' c',
    handleDeleteConfirm ui c = (ui', c') /\
    log c' = log c ++ map delete_request ids ++ [GET "/auth-files"] /\
    (exists rest,
        notifications ui'
        = notifications ui
          ++ {| n_message := "kiro.notification.batchDeleted";
                n_count := Some (length ids); n_kind := "success" |} :: rest) /\
    deleteModalOpen ui' = false /\
    deleteTarget ui' = None /\
    statusFilter ui' = FilterAll /\
    (dt_type target = DeleteBatch -> selectedIds ui' = []).
Proof.
  intros Htarget Hids Hkind.
  destruct (deleteAccounts_resolves ids c) as (r & c1 & Hdel & Hlog1).
  unfold KiroPageHandlers.handleDeleteConfirm. rewrite Htarget.
  set (ui1 := showNotification "kiro.notification.batchDeleted"
                               (Some (length ids)) "success" ui).
  assert (Hload : forall ui0,
             notifications ui0 = notifications ui1 ->
             exists ui' c',
               (let '(ui2, c2) := loadAccounts true (setStatusFilter FilterAll ui0) c1 in
                (setDeleteTarget None (setDeleteModalOpen false ui2), c2)) = (ui', c') /\
               log c' = log c ++ map delete_request ids ++ [GET "/auth-files"] /\
               (exists rest,
                   notifications ui'
                   = notifications ui
                     ++ {| n_message := "kiro.notification.batchDeleted";
                           n_count := Some (length ids); n_kind := "success" |} :: rest) /\
               deleteModalOpen ui' = false /\
               deleteTarget ui' = None /\
               statusFilter ui' = FilterAll /\
               selectedIds ui' = selectedIds ui0).
  { intros ui0 Hnote.
    destruct (loadAccounts_request (setStatusFilter FilterAll ui0) c1)
      as (ui2 & c2 & Hrun & Hlog2 & _ & Hsel & Hfilter & _ & _ & Hcase).
    rewrite Hrun. eexists _, _. split; [reflexivity|]. simpl.
    split; [by rewrite Hlog2, Hlog1, <- app_assoc|].
    split; [|by rewrite Hfilter, Hsel].
    destruct (fst (backend_get _ _)) as [e|response]; destruct Hcase as [_ ->];
      simpl; rewrite Hnote; subst ui1; simpl; rewrite <- ?app_assoc; simpl; eauto. }
  destruct (dt_type target) eqn:Hty; [done|..]; subst ids;
    unfold filteredAccounts in *; rewrite Hdel.
  - destruct (Hload (setSelectedIds [] ui1) eq_refl)
      as (ui' & c' & Hrun & Hl & Hn & Hm & Ht & Hf & Hs).
    exists ui', c'. by rewrite <- Hrun.
  - destruct (Hload ui1 eq_refl) as (ui' & c' & Hrun & Hl & Hn & Hm & Ht & Hf & Hs).
    exists ui', c'. by rewrite <- Hrun.
  - destruct (Hload ui1 eq_refl) as (ui' & c' & Hrun & Hl & Hn & Hm & Ht & Hf & Hs).
    exists ui', c'. by rewrite <- Hrun.
Qed.


(** X21. Confirming the deletion of a single account: one delete request
    is sent for the file of the account. When it is rejected nothing is
    read again, the page and the status filter stay as they are and the
    error is notified; when it resolves the deletion is notified, the
    status filter is reset and the listing is read again. The dialog is
    closed in both cases. *)
Theorem handleDeleteConfirm_single
        (ui : PageUi) (c : Client World) (account_id : string) :
  deleteTarget ui = Some {| dt_type := DeleteSingle; dt_id := Some account_id |} ->
  truthy account_id = true ->
  exists ui' c',
    handleDeleteConfirm ui c = (ui', c') /\
    deleteModalOpen ui' = false /\
    deleteTarget ui' = None /\
    match fst (backend_delete
                 (KiroApi.auth_file_url encodeURIComponent
                                        (KiroApi.fileName_of_id account_id))
                 (world c)) with
    | inl _ =>
        log c' = log c ++ [delete_request account_id] /\
        page ui' = page ui /\
        statusFilter ui' = statusFilter ui /\
        notifications ui'
        = notifications ui ++ [ {| n_message := "common.error"; n_count := None;
                                   n_kind := "error" |} ]
    | inr _ =>
        log c' = log c ++ [delete_request account_id; GET "/auth-files"] /\
        statusFilter ui' = FilterAll /\
        exists rest,
          notifications ui'
          = notifications ui
            ++ {| n_message := "kiro.notification.deleted"; n_count := None;
                  n_kind := "success" |} :: rest
    end.
Proof.
  intros Htarget Htruthy.
  unfold KiroPageHandlers.handleDeleteConfirm. rewrite Htarget.
  cbn [dt_type dt_id]. rewrite Htruthy.
  unfold KiroApi.deleteAccount, KiroApi.apiClient_delete, Reference.delete_request.
  destruct (backend_delete _ _) as [[e|response] w]; cbn [fst].
  - eexists _, _. split; [reflexivity|]. done.
  - set (ui1 := showNotification "kiro.notification.deleted" None "success" ui).
    set (c1 := {| world := w; log := _ |}).
    destruct (loadAccounts_request (setStatusFilter FilterAll ui1) c1)
      as (ui2 & c2 & Hrun & Hlog2 & _ & Hsel & Hfilter & _ & _ & Hcase).
    rewrite Hrun. eexists _, _. split; [reflexivity|]. simpl.
    split; [done|]. split; [done|].
    split; [by rewrite Hlog2; subst c1; simpl; rewrite <- app_assoc|].
    split; [by rewrite Hfilter|].
    destruct (fst (backend_get _ _)) as [e|response']; destruct Hcase as [_ ->];
      subst ui1; simpl; rewrite <- ?app_assoc; simpl; eauto.
Qed.

Lemma paginatedAccounts_subseteq (st : ListState) (accounts : list KiroAccountItem) :
  AccountList.paginatedAccounts st accounts ⊆ accounts.
Proof.
  unfold AccountList.paginatedAccounts, AccountList.slice.
  etrans; [apply subseteq_take|]. etrans; [apply subseteq_drop|].
  unfold AccountList.filteredAccounts. destruct (blank _); [done|].
  intros a Ha. apply list_elem_of_In, filter_In in Ha as [Ha _].
  by apply list_elem_of_In.
Qed.

(** X26. [Select all] selects every account that the status filter lets
    through, not only those on the current page of the list or those that
    match its search: whatever the page and the search term, the
    [select all] box is then checked as soon as the page shows an account.
    Deleting the selection then sends one delete request for each of these
    accounts, and empties the selection. *)
Theorem select_all_selects_beyond_the_page
        (ui : PageUi) (c : Client World) (st : ListState) :
  selectedIds (handleSelectAll true ui)
  = map id (filteredAccounts (statusFilter ui) (st_accounts (page ui))) /\
  AccountList.allSelected
    st (filteredAccounts (statusFilter ui) (st_accounts (page ui)))
    (selectedIds (handleSelectAll true ui))
  = negb (bool_decide
            (AccountList.paginatedAccounts
               st (filteredAccounts (statusFilter ui) (st_accounts (page ui))) = [])) /\
  (filteredAccounts (statusFilter ui) (st_accounts (page ui)) <> [] ->
   exists ui' c',
     handleDeleteConfirm (handleBatchDeleteClick (handleSelectAll true ui)) c
     = (ui', c') /\
     log c'
     = log c
       ++ map delete_request
              (map id (filteredAccounts (statusFilter ui) (st_accounts (page ui))))
       ++ [GET "/auth-files"] /\
     selectedIds ui' = []).
Proof.
  set (shown := filteredAccounts (statusFilter ui) (st_accounts (page ui))).
  split; [done|]. split.
  - unfold AccountList.allSelected. cbn [handleSelectAll setSelectedIds selectedIds].
    fold shown.
    pose proof (paginatedAccounts_subseteq st shown) as Hsub.
    assert (Hall : forallb (fun a => bool_decide (id a ∈ map id shown))
                           (AccountList.paginatedAccounts st shown) = true).
    { apply forallb_forall. intros a Ha. apply bool_decide_eq_true.
      apply list_elem_of_fmap_2, Hsub. by apply list_elem_of_In. }
    rewrite Hall, andb_true_r.
    destruct (AccountList.paginatedAccounts st shown); done.
  - intros Hne.
    assert (Hclick : handleBatchDeleteClick (handleSelectAll true ui)
                     = setDeleteModalOpen true
                         (setDeleteTarget
                            (Some {| dt_type := DeleteBatch; dt_id := None |})
                            (handleSelectAll true ui))).
    { unfold handleBatchDeleteClick. cbn [handleSelectAll setSelectedIds selectedIds].
      fold shown. rewrite length_map. by destruct shown. }
    rewrite Hclick.
    edestruct (deleteMany_confirmed
                 (setDeleteModalOpen true
                    (setDeleteTarget
                       (Some {| dt_type := DeleteBatch; dt_id := None |})
                       (handleSelectAll true ui)))
                 c {| dt_type := DeleteBatch; dt_id := None |} (map id shown))
      as (ui' & c' & Hrun & Hlog & _ & _ & _ & _ & Hsel); [done..|].
    exists ui', c'. split; [done|]. split; [done|]. by apply Hsel.
Qed.

End PageFacts.
(** * The account list: search, pages and selection *)

Section ListFacts.
Import JsString AccountList ListSpec.

Lemma ceil_div_bounds (n size : nat) :
  0 < size ->
  n <= ceil_div n size * size /\ (0 < n -> (ceil_div n size - 1) * size < n).
Proof.
  intros Hsize. unfold ceil_div.
  pose proof (Nat.div_mod_eq (n + size - 1) size) as Hdm.
  pose proof (Nat.mod_upper_bound (n + size - 1) size ltac:(lia)) as Hr.
  generalize dependent ((n + size - 1) / size).
  generalize dependent ((n + size - 1) mod size).
  intros r Hr q Hdm. nia.
Qed.

Lemma pageSize_pos (mode : ViewMode) : 0 < pageSize mode.
Proof. destruct mode; simpl; lia. Qed.

Lemma slice_page {A} (l : list A) (k size : nat) :
  slice l ((S k - 1) * size) (S k * size) = take size (drop (k * size) l).
Proof. unfold slice. f_equal; [lia|f_equal; lia]. Qed.

Lemma concat_pages {A} (l : list A) (size n : nat) :
  concat (map (fun k => slice l ((k - 1) * size) (k * size)) (seq 1 n))
  = take (n * size) l.
Proof.
  induction n as [|n IH]; [done|].
  rewrite seq_S, map_app, concat_app, IH. cbn [map concat].
  rewrite app_nil_r. change (1 + n) with (S n). rewrite slice_page.
  rewrite take_take_drop. f_equal. lia.
Qed.

Lemma totalPages_bounds (st : ListState) (accounts : list KiroAccountItem) :
  1 <= totalPages st accounts /\
  length (filteredAccounts (searchTerm st) accounts)
  <= totalPages st accounts * pageSize (viewMode st) /\
  (0 < length (filteredAccounts (searchTerm st) accounts) ->
   (totalPages st accounts - 1) * pageSize (viewMode st)
   < length (filteredAccounts (searchTerm st) accounts)).
Proof.
  unfold totalPages.
  pose proof (ceil_div_bounds (length (filteredAccounts (searchTerm st) accounts))
                              (pageSize (viewMode st)) (pageSize_pos _)) as [Hup Hlow].
  destruct (Nat.eqb_spec (ceil_div (length (filteredAccounts (searchTerm st) accounts))
                                   (pageSize (viewMode st))) 0) as [E|E].
  - rewrite E in Hup. split; [lia|]. split; lia.
  - split; [lia|]. split; [lia|]. exact Hlow.
Qed.

(** X22. The pages of the account list, from page 1 to the last page, cut
    the accounts that match the search into consecutive pieces: put one
    after the other they give back those accounts in order, every page
    holds at most 15 accounts in the card view and 20 in the table view,
    and when at least one account matches no page is empty. There is
    always at least one page. *)
Theorem pages_partition (st : ListState) (accounts : list KiroAccountItem) :
  concat (pages st accounts) = filteredAccounts (searchTerm st) accounts /\
  Forall (fun p => length p <= pageSize (viewMode st)) (pages st accounts) /\
  (filteredAccounts (searchTerm st) accounts <> [] ->
   Forall (fun p => p <> []) (pages st accounts)) /\
  1 <= length (pages st accounts) /\
  pageSize (viewMode st) = match viewMode st with CardView => 15 | TableView => 20 end.
Proof.
  pose proof (totalPages_bounds st accounts) as (Hone & Hup & Hlow).
  pose proof (pageSize_pos (viewMode st)) as Hsize.
  unfold pages, paginatedAccounts. cbn [at_page searchTerm currentPage viewMode].
  set (l := filteredAccounts (searchTerm st) accounts) in *.
  set (size := pageSize (viewMode st)) in *.
  split; [|split; [|split; [|split]]].
  - rewrite (concat_pages l size). apply take_ge. lia.
  - apply Forall_map, Forall_forall. intros k _. unfold slice.
    rewrite length_take. simpl. nia.
  - intros Hne. apply Forall_map, Forall_forall. intros k Hk.
    apply elem_of_seq in Hk. unfold slice. simpl.
    assert (0 < length l) by (destruct l; [done|simpl; lia]).
    intros Hnil. apply (f_equal length) in Hnil.
    rewrite length_take, length_drop in Hnil. simpl in Hnil. nia.
  - rewrite length_map, length_seq. lia.
  - subst size. by destruct (viewMode st).
Qed.

Lemma totalPages_same_search (st st' : ListState) (accounts : list KiroAccountItem) :
  searchTerm st' = searchTerm st -> viewMode st' = viewMode st ->
  totalPages st' accounts = totalPages st accounts.
Proof. unfold totalPages. by intros -> ->. Qed.

(** X23. The page buttons and the search box keep the list on one of its
    pages: from a state whose current page is between 1 and the last
    page, the previous-page button, the next-page button and a new search
    term lead to such a state again, and so does the switch from the table
    view to the card view. On such a page at least one account is shown
    when any account matches the search. *)
Theorem navigation_stays_on_a_page
        (st : ListState) (accounts : list KiroAccountItem) (value : string) :
  on_a_page initialList accounts /\
  on_a_page (onSearch value st) accounts /\
  (on_a_page st accounts ->
   on_a_page (onPrev st accounts) accounts /\
   on_a_page (onNext st accounts) accounts /\
   (viewMode st = TableView -> on_a_page (setViewMode CardView st) accounts) /\
   (filteredAccounts (searchTerm st) accounts <> [] ->
    paginatedAccounts st accounts <> [])).
Proof.
  unfold on_a_page.
  split; [|split].
  - pose proof (totalPages_bounds initialList accounts) as (H1 & _). simpl. lia.
  - pose proof (totalPages_bounds (onSearch value st) accounts) as (H1 & _).
    simpl. lia.
  - intros [Hlo Hhi]. split; [|split; [|split]].
    + unfold onPrev.
      destruct (_ && _) eqn:E; [|done].
      apply andb_true_iff in E as [_ Hne]. apply negb_true_iff, Nat.eqb_neq in Hne.
      rewrite (totalPages_same_search st) by done. simpl. lia.
    + unfold onNext.
      destruct (_ && _) eqn:E; [|done].
      apply andb_true_iff in E as [_ Hne]. apply negb_true_iff, Nat.eqb_neq in Hne.
      rewrite (totalPages_same_search st) by done. simpl. lia.
    + intros Htable. simpl. split; [done|].
      pose proof (totalPages_bounds st accounts) as (_ & _ & Hlow).
      pose proof (totalPages_bounds (setViewMode CardView st) accounts) as (H1 & Hup & _).
      rewrite Htable in Hlow. simpl in *.
      destruct (filteredAccounts (searchTerm st) accounts) as [|a l] eqn:E.
      * assert (Ht : totalPages st accounts = 1).
        { unfold totalPages. by rewrite E, Htable. }
        lia.
      * simpl in *. specialize (Hlow ltac:(lia)). nia.
    + intros Hne.
      pose proof (totalPages_bounds st accounts) as (_ & _ & Hlow).
      pose proof (pageSize_pos (viewMode st)) as Hsize.
      unfold paginatedAccounts, slice.
      set (l := filteredAccounts (searchTerm st) accounts) in *.
      assert (0 < length l) by (destruct l; [done|simpl; lia]).
      specialize (Hlow ltac:(done)).
      intros Hnil. apply (f_equal length) in Hnil.
      rewrite length_take, length_drop in Hnil. simpl in Hnil. nia.
Qed.

(** X24. A current page beyond the last page shows no account, although
    accounts may match the search; when there is only one page the page
    buttons are not there to leave it. The switch from the card view to the
    table view keeps the current page and can lead there. *)
Theorem page_beyond_last_is_empty (st : ListState) (accounts : list KiroAccountItem) :
  totalPages st accounts < currentPage st ->
  paginatedAccounts st accounts = [] /\
  (totalPages st accounts = 1 ->
   onPrev st accounts = st /\ onNext st accounts = st).
Proof.
  intros Hbeyond.
  pose proof (totalPages_bounds st accounts) as (_ & Hup & _).
  split.
  - unfold paginatedAccounts, slice. apply nil_length_inv.
    rewrite length_take, length_drop. nia.
  - intros Hone. unfold onPrev, onNext. by rewrite Hone.
Qed.

Lemma lower_ascii_idempotent (c : ascii) : lower_ascii (lower_ascii c) = lower_ascii c.
Proof. destruct c as [[] [] [] [] [] [] [] []]; reflexivity. Qed.

Lemma toLowerCase_idempotent (s : string) : toLowerCase (toLowerCase s) = toLowerCase s.
Proof.
  induction s as [|c s IH]; simpl; [done|]. by rewrite lower_ascii_idempotent, IH.
Qed.

Lemma is_space_lower_ascii (c : ascii) : is_space (lower_ascii c) = is_space c.
Proof. destruct c as [[] [] [] [] [] [] [] []]; reflexivity. Qed.

Lemma blank_toLowerCase (s : string) : blank (toLowerCase s) = blank s.
Proof.
  unfold blank. induction s as [|c s IH]; simpl; [done|].
  rewrite is_space_lower_ascii. by destruct (is_space c).
Qed.

Lemma List_filter_sublist {A} (p : A -> bool) (l : list A) :
  List.filter p l `sublist_of` l.
Proof.
  induction l as [|a l IH]; simpl; [constructor|].
  destruct (p a); by constructor.
Qed.


End ListFacts.
(** * The login page: leaving it, the manual import, and the pages opened *)

Section OAuthFacts.
Import JsString OAuthPage OAuthCleanup OAuthSpec Reference.

Lemma foldr_clearInterval (l : list positive) (b : Browser) :
  intervals (foldr clearInterval b l) = intervals b ∖ list_to_set l /\
  timers (foldr clearInterval b l) = timers b /\
  states (foldr clearInterval b l) = states b /\
  kiroState (foldr clearInterval b l) = kiroState b /\
  effects (foldr clearInterval b l) = effects b.
Proof.
  induction l as [|t l (Hi & Ht & Hs & Hk & He)]; simpl.
  - split; [|done]. apply set_eq. intros x.
    rewrite elem_of_difference, elem_of_empty. tauto.
  - split; [|done]. rewrite Hi. apply set_eq. intros x.
    rewrite !elem_of_difference, elem_of_union, elem_of_singleton. tauto.
Qed.

Lemma clear_registered_stops (b : Browser) :
  polling_invariant b -> intervals (clear_registered b) = ∅.
Proof.
  intros [_ Hreg _]. unfold clear_registered.
  destruct (foldr_clearInterval (map_to_list (timers b)).*2 b) as (-> & _).
  apply set_eq. intros t. rewrite elem_of_difference, elem_of_empty.
  split; [|done]. intros [Hin Hnot]. apply Hnot.
  destruct (Hreg t Hin) as (c & _ & Htimer).
  apply elem_of_list_to_set, list_elem_of_fmap.
  exists (timer_key (p_kind c), t). split; [done|].
  by apply elem_of_map_to_list.
Qed.

(** X27. Leaving the login page stops the polling: when no status response
    arrives late (every interval callback runs to its end before the next
    action), the cleanup on unmount leaves no interval active. So does a
    manual import of the Kiro token that succeeds: it clears and forgets the
    timers of every provider, not only the Kiro timer, and leaves the
    interface state of the other providers as it was. A manual import that
    fails changes no timer. *)
Theorem leaving_stops_polling
        (actions : list AtomicAction) (error message : option string)
        (status : string) :
  intervals (unmount (fold_left atomic_step actions initial)) = ∅ /\
  intervals (manualImportSettled (ImportTokenResolved "ok" error)
                                 (fold_left atomic_step actions initial)) = ∅ /\
  timers (manualImportSettled (ImportTokenResolved "ok" error)
                              (fold_left atomic_step actions initial)) = ∅ /\
  states (manualImportSettled (ImportTokenResolved "ok" error)
                              (fold_left atomic_step actions initial))
  = states (fold_left atomic_step actions initial) /\
  ui_polling (kiroState (manualImportSettled
                           (ImportTokenResolved "ok" error)
                           (fold_left atomic_step actions initial))) = false /\
  (status <> "ok" ->
   intervals (manualImportSettled (ImportTokenResolved status error)
                                  (fold_left atomic_step actions initial))
   = intervals (fold_left atomic_step actions initial) /\
   timers (manualImportSettled (ImportTokenResolved status error)
                               (fold_left atomic_step actions initial))
   = timers (fold_left atomic_step actions initial)) /\
  intervals (manualImportSettled (ImportTokenRejected message)
                                 (fold_left atomic_step actions initial))
  = intervals (fold_left atomic_step actions initial).
Proof.
  pose proof (atomic_run_invariant actions initial polling_invariant_initial) as Hinv.
  set (b := fold_left atomic_step actions initial) in *.
  split; [by apply clear_registered_stops|].
  assert (Hinv' : polling_invariant
                    (add_effect (Notify "success") (setKiroState ui_success b))).
  { apply (same_timers_invariant b); try done. simpl. by destruct Hinv. }
  unfold manualImportSettled. cbn [String.eqb Ascii.eqb Bool.eqb].
  cbn [set_timers intervals timers states kiroState].
  split; [by apply clear_registered_stops|]. split; [done|].
  unfold clear_registered.
  destruct (foldr_clearInterval
              (map_to_list (timers (add_effect (Notify "success")
                                      (setKiroState ui_success b)))).*2
              (add_effect (Notify "success") (setKiroState ui_success b)))
    as (_ & _ & -> & -> & _).
  split; [done|]. split; [done|]. split; [|done].
  intros Hne. apply String.eqb_neq in Hne. by rewrite Hne.
Qed.

Lemma open_invariant_initial : open_invariant initial.
Proof.
  split.
  - intros t [c Hc]. simpl in Hc. by rewrite lookup_empty in Hc.
  - unfold opened_count, opened_timers. simpl. by rewrite map_filter_empty.
Qed.

(** A change that creates no timer and opens no page. *)
Lemma same_view_open_invariant (b b' : Browser) :
  closures b' = closures b -> next_timer b' = next_timer b ->
  List.filter is_window_open (effects b') = List.filter is_window_open (effects b) ->
  open_invariant b -> open_invariant b'.
Proof.
  intros Hc Hn He [Hfresh Hcount].
  split; unfold opened_count, opened_timers in *; by rewrite ?Hc, ?Hn, ?He.
Qed.

Lemma filter_window_open_app (l : list Effect) (e : Effect) :
  List.filter is_window_open (l ++ [e])
  = List.filter is_window_open l ++ (if is_window_open e then [e] else []).
Proof. rewrite List.filter_app. simpl. by destruct (is_window_open e). Qed.

Ltac same_view b :=
  apply (same_view_open_invariant b); simpl;
  rewrite ?filter_window_open_app; simpl; rewrite ?app_nil_r; done.

(** Installing a timer, as both polling functions do. *)
Lemma install_open_invariant (kind : PollKind) (state : string) (b : Browser) :
  open_invariant b ->
  let b1 := match timers b !! timer_key kind with
            | Some old => clearInterval old b
            | None => b
            end in
  open_invariant
    (set_timers <[timer_key kind := next_timer b1]>
       (snd (setInterval {| p_kind := kind; p_state := state;
                            p_delay := POLL_INTERVAL; authUrlOpened := false |} b1))).
Proof.
  intros [Hfresh Hcount] b1.
  assert (Hproj : closures b1 = closures b /\ next_timer b1 = next_timer b /\
                  effects b1 = effects b).
  { subst b1. by destruct (timers b !! timer_key kind). }
  destruct Hproj as (Hc & Hn & He).
  split; unfold opened_count, opened_timers; simpl; rewrite ?Hc, ?Hn, ?He.
  - intros t [c Hlookup]. destruct (decide (t = next_timer b)) as [->|Hne]; [lia|].
    rewrite lookup_insert_ne in Hlookup by done.
    specialize (Hfresh t (ex_intro _ c Hlookup)). lia.
  - rewrite map_filter_insert_not'; [done|done|].
    intros y Hy. specialize (Hfresh (next_timer b) (ex_intro _ y Hy)). lia.
Qed.

Lemma open_auth_url_open_invariant (timer : positive) (url : string) (b : Browser) :
  open_invariant b -> open_invariant (open_auth_url timer url b).
Proof.
  intros [Hfresh Hcount]. unfold open_auth_url.
  destruct (closures b !! timer) as [c|] eqn:Hc; [|done].
  destruct (authUrlOpened c) eqn:Hopened; [done|].
  split; unfold opened_count, opened_timers in *; simpl.
  - intros t [c' Hlookup]. destruct (decide (t = timer)) as [->|Hne].
    + apply Hfresh. by exists c.
    + rewrite lookup_insert_ne in Hlookup by done. apply Hfresh. by exists c'.
  - rewrite filter_window_open_app, length_app, Hcount. simpl.
    rewrite map_filter_insert_True by done.
    rewrite map_size_insert_None; [lia|].
    apply map_lookup_filter_None. right. intros c' Hc'. simpl.
    rewrite Hc in Hc'. injection Hc' as <-. by rewrite Hopened.
Qed.

Lemma settle_open_invariant (n : nat) (outcome : Outcome) (b : Browser) :
  open_invariant b -> open_invariant (settle n outcome b).
Proof.
  intros Hinv. unfold settle.
  destruct (in_flight b !! n) as [timer|]; [|done].
  assert (H1 : open_invariant (set_in_flight (delete n (in_flight b)) b))
    by same_view b.
  revert H1. generalize (set_in_flight (delete n (in_flight b)) b). intros b1 H1.
  destruct (closures b !! timer) as [c|]; [|done].
  destruct (p_kind c) as [provider|].
  - unfold provider_settled.
    destruct outcome as [message|res];
      repeat match goal with
             | |- context [if ?x then _ else _] => destruct x
             end;
      try done; same_view b1.
  - unfold kiro_settled.
    destruct outcome as [message|res];
      repeat match goal with
             | |- context [if ?x then _ else _] => destruct x
             end;
      try done;
      try (by apply open_auth_url_open_invariant);
      same_view b1.
Qed.

Lemma step_open_invariant (b : Browser) (a : Action) :
  open_invariant b -> open_invariant (step b a).
Proof.
  intros Hinv. destruct a as [provider state|stateParam|timer|n outcome|provider|n outcome];
    simpl.
  - exact (install_open_invariant (ProviderPolling provider) state b Hinv).
  - exact (install_open_invariant KiroPolling stateParam b Hinv).
  - unfold fire. destruct (bool_decide _); [|done].
    destruct (closures b !! timer); [|done].
    same_view b.
  - by apply settle_open_invariant.
  - unfold clickKiroLogin. destruct (ui_polling _); [done|].
    same_view b.
  - unfold kiroLoginSettled. destruct (starting b !! n); [|done].
    destruct outcome as [message|[res|]];
      try same_view b.
    assert (H2 : open_invariant
                   (setKiroState (ui_started res)
                      (set_starting (delete n (starting b)) b)))
      by same_view b.
    destruct (sr_state res) as [state|]; [|done].
    destruct (truthy state); [|done].
    exact (install_open_invariant KiroPolling state _ H2).
Qed.

(** X28. The authorisation page is opened at most once per polling timer,
    in every run of the login page, late status responses included: the
    number of pages opened is the number of timers whose callbacks have
    seen an authorisation URL, however many responses carried one. *)
Theorem auth_url_opened_once_per_timer (actions : list Action) :
  opened_count (run actions initial) = size (opened_timers (run actions initial)) /\
  opened_count (run actions initial) <= size (closures (run actions initial)) /\
  forall t c, opened_timers (run actions initial) !! t = Some c ->
              (t < next_timer (run actions initial))%positive.
Proof.
  assert (Hinv : open_invariant (run actions initial)).
  { unfold run. generalize open_invariant_initial. generalize initial.
    induction actions as [|a actions IH]; intros b Hb; simpl; [done|].
    by apply IH, step_open_invariant. }
  destruct Hinv as [Hfresh Hcount].
  split; [done|]. split.
  - rewrite Hcount. unfold opened_timers. apply map_subseteq_size, map_filter_subseteq.
  - intros t c Hc. apply Hfresh. apply map_lookup_filter_Some in Hc as [Hc _]. by exists c.
Qed.

(** X29. A Kiro login request that resolves without a state starts no
    polling and reports nothing: no timer is installed, no notification is
    shown, and the Kiro state stays [waiting] with [polling] set, so that
    the login buttons stay disabled and a click on one of them does
    nothing. *)
Theorem kiro_login_without_state_blocks
        (n : nat) (res : AuthStartResponse) (b : Browser) (provider : string) :
  is_Some (starting b !! n) ->
  KiroApi.truthy_opt (sr_state res) = false ->
  ui_polling (kiroState (kiroLoginSettled n (StartResolved (Some res)) b)) = true /\
  ui_status (kiroState (kiroLoginSettled n (StartResolved (Some res)) b)) = "waiting" /\
  timers (kiroLoginSettled n (StartResolved (Some res)) b) = timers b /\
  intervals (kiroLoginSettled n (StartResolved (Some res)) b) = intervals b /\
  effects (kiroLoginSettled n (StartResolved (Some res)) b) = effects b /\
  clickKiroLogin provider (kiroLoginSettled n (StartResolved (Some res)) b)
  = kiroLoginSettled n (StartResolved (Some res)) b.
Proof.
  intros [p Hp] Hstate. unfold kiroLoginSettled. rewrite Hp.
  assert (Hsame : match sr_state res with
                  | Some state =>
                      if truthy state
                      then startKiroPolling state
                             (setKiroState (ui_started res)
                                (set_starting (delete n (starting b)) b))
                      else setKiroState (ui_started res)
                             (set_starting (delete n (starting b)) b)
                  | None => setKiroState (ui_started res)
                              (set_starting (delete n (starting b)) b)
                  end
                  = setKiroState (ui_started res)
                      (set_starting (delete n (starting b)) b)).
  { destruct (sr_state res) as [state|]; [|done]. simpl in Hstate. by rewrite Hstate. }
  rewrite Hsame. done.
Qed.

End OAuthFacts.
(** * The import modal *)

Section ModalFacts.
Import JsString ImportModal ImportFlow ModalSpec.
Variable JSON_parse : string -> option json.

Local Abbreviation modal_step := (modal_step JSON_parse).
Local Abbreviation modal_run := (modal_run JSON_parse).

Lemma has_valid_nonempty (result : option ParseResult) :
  has_valid result = true -> exists r, result = Some r /\ valid r <> [].
Proof.
  destruct result as [r|]; [|done]. simpl. intros H. exists r. split; [done|].
  by destruct (valid r).
Qed.

Lemma accept_text_consistent (text : string) (st : ModalState) :
  phase st = PhaseUpload ->
  phase_consistent (accept_text JSON_parse text st).
Proof.
  intros Hphase. unfold phase_consistent, accept_text. simpl.
  destruct (has_valid _) eqn:E; [by apply has_valid_nonempty|by rewrite Hphase].
Qed.

Lemma handleImport_consistent (outcome : ImportOutcome) (st : ModalState) :
  phase_consistent st -> phase_consistent (handleImport outcome st).
Proof.
  intros Hst. unfold handleImport.
  destruct (has_valid (parseResult st)) eqn:E; [|done]. simpl.
  apply has_valid_nonempty in E.
  destruct outcome as [msg| |response]; try done.
  unfold phase_consistent.
  repeat match goal with
         | |- context [if ?b then _ else _] => destruct b
         end; simpl; eauto.
Qed.

Lemma modal_step_consistent (st : ModalState) (a : ModalAction) :
  phase_consistent st -> phase_consistent (modal_step st a).
Proof.
  intros Hst. destruct a as [text|name text|name text| |outcome|]; simpl.
  - unfold in_upload. destruct (phase st) eqn:E; try done.
    by apply accept_text_consistent.
  - unfold in_upload. destruct (phase st) eqn:E; try done.
    by apply accept_text_consistent.
  - unfold in_upload. destruct (phase st) eqn:E; try done.
    unfold handleDrop. destruct (endsWith name ".json"); [|done].
    by apply accept_text_consistent.
  - by destruct (in_preview st).
  - destruct (in_preview st); [|done]. by apply handleImport_consistent.
  - done.
Qed.

Lemma filter_three_statuses (l : list BatchImportResult) :
  length (List.filter (fun r => String.eqb (bir_status r) "success") l)
  + length (List.filter (fun r => String.eqb (bir_status r) "duplicate") l)
  + length (List.filter (fun r => String.eqb (bir_status r) "failed") l)
  <= length l.
Proof.
  induction l as [|r l IH]; simpl; [done|].
  destruct (String.eqb_spec (bir_status r) "success") as [->|]; simpl; [lia|].
  destruct (String.eqb_spec (bir_status r) "duplicate") as [->|]; simpl; [lia|].
  destruct (String.eqb (bir_status r) "failed"); simpl; lia.
Qed.


End ModalFacts.

Lemma card_without_breakdown_shows_full_sample :
  Stats.getQuota Samples.alice = Stats.minus_one.
Proof.
  apply (card_without_breakdown_shows_full Samples.alice). reflexivity.
Defined.

Lemma apply_usage_ok_read_back_sample :
  Stats.getQuota (KiroPage.apply_usage Samples.usage_ok Samples.alice) = Q2Qc 550.
Proof.
  apply (apply_usage_ok_read_back Samples.usage_ok Samples.alice 0%Z). reflexivity.
Defined.

Lemma getDaysUntilReset_rounds_up_sample :
  exists d : Z,
    StatsView.getDaysUntilReset
      1000 (Samples.alice_with (Samples.resets_at (Q2Qc (inject_Z 86401000))))
    = Days (Q2Qc (inject_Z d)) /\
    ((d - 1) * StatsView.MS_PER_DAY
     < StatsView.truncate (Q2Qc (inject_Z 86401000)) - 1000
     <= d * StatsView.MS_PER_DAY)%Z.
Proof.
  apply (getDaysUntilReset_rounds_up
           1000 (Samples.alice_with (Samples.resets_at (Q2Qc (inject_Z 86401000))))
           (Samples.resets_at (Q2Qc (inject_Z 86401000)))
           (Q2Qc (inject_Z 86401000)));
    try reflexivity; by vm_compute.
Defined.

Lemma listed_account_id_addresses_its_file_sample :
  af_name Samples.alice_file = "kiro-google-alice" +:+ ".json" /\
  JsString.includes "kiro-google-alice" ".json" = false /\
  KiroApi.fileName_of_id (id (KiroApi.account_of_file Samples.alice_file))
  = af_name Samples.alice_file.
Proof.
  split; [reflexivity|]. split; [reflexivity|].
  apply (listed_account_id_addresses_its_file
           Samples.offline Samples.offline (fun s => s) (fun _ => None)
           (fun _ => None) (fun _ => 0%Z)
           "kiro-google-alice" Samples.alice_file Samples.start); reflexivity.
Defined.

Lemma listing_and_file_agree_on_provider_sample :
  JsString.startsWith (af_name Samples.alice_file) "kiro-google-" = true /\
  KiroApi.isKiroAuthFile (af_name Samples.alice_file) = true.
Proof.
  split; [reflexivity|].
  apply (listing_and_file_agree_on_provider
           (fun _ => None) Samples.alice_file 0%Z empty_content "kiro-google-");
    [by vm_compute; left|reflexivity].
Defined.

Lemma listing_and_file_differ_on_builder_id_sample :
  JsString.startsWith (af_name Samples.aws_file) "kiro-aws-" = true /\
  provider (KiroApi.account_of_file Samples.aws_file) <> "BuilderId".
Proof.
  split; [reflexivity|].
  apply (proj1 (listing_and_file_differ_on_builder_id
                  (fun _ => None) Samples.aws_file 0%Z empty_content)).
  reflexivity.
Defined.

Lemma extractIdFromFileName_parts_sample :
  JsString.includes "kiro" "-" = false /\
  JsString.includes "google" "-" = false /\
  JsString.includes "kiro-google-alice-1" ".json" = false /\
  KiroApi.extractIdFromFileName "kiro-google-alice-1.json" = "alice-1".
Proof.
  split; [reflexivity|]. split; [reflexivity|]. split; [reflexivity|].
  apply (extractIdFromFileName_parts "kiro" "google" "alice-1"); reflexivity.
Defined.

Lemma handleRefresh_resolved_sample :
  st_accounts
    (page (KiroPageHandlers.handleRefresh
             (fun _ => None) Samples.resolves_ok "kiro-google-alice"
             (Samples.showing [Samples.alice; Samples.carol])))
  = [KiroPage.apply_usage Samples.usage_ok Samples.alice; Samples.carol].
Proof.
  apply (handleRefresh_resolved
           (fun _ => None) Samples.resolves_ok "kiro-google-alice"
           (Samples.showing [Samples.alice; Samples.carol])
           Samples.alice "kiro-google-alice.json" Samples.usage_ok);
    reflexivity.
Defined.

Lemma handleRefresh_rejected_sample :
  refreshingId
    (KiroPageHandlers.handleRefresh
       (fun _ => None) Samples.rejects_401 "kiro-google-alice"
       (Samples.showing [Samples.alice; Samples.carol]))
  = None.
Proof.
  apply (handleRefresh_rejected
           (fun _ => None) Samples.rejects_401 "kiro-google-alice"
           (Samples.showing [Samples.alice; Samples.carol])
           Samples.alice "kiro-google-alice.json"
           "Request failed with status code 401");
    reflexivity.
Defined.


Lemma handleDeleteConfirm_single_sample :
  exists ui' c',
    KiroPageHandlers.handleDeleteConfirm
      (fun _ => None) Samples.offline Samples.offline (fun s => s) (fun _ => None)
      (Samples.deleting "kiro-github-carol" [Samples.alice; Samples.carol])
      Samples.start
    = (ui', c') /\
    deleteModalOpen ui' = false.
Proof.
  destruct (handleDeleteConfirm_single
              (fun _ => None) Samples.offline Samples.offline (fun s => s)
              (fun _ => None)
              (Samples.deleting "kiro-github-carol" [Samples.alice; Samples.carol])
              Samples.start "kiro-github-carol")
    as (ui' & c' & Hrun & Hmodal & _); [reflexivity|reflexivity|].
  by exists ui', c'.
Defined.

Lemma page_beyond_last_is_empty_sample :
  AccountList.paginatedAccounts
    (AccountList.setViewMode
       TableView (AccountList.onNext AccountList.initialList Samples.sixteen))
    Samples.sixteen
  = [].
Proof.
  apply (page_beyond_last_is_empty
           (AccountList.setViewMode
              TableView (AccountList.onNext AccountList.initialList Samples.sixteen))
           Samples.sixteen).
  vm_compute. lia.
Defined.

Lemma kiro_login_without_state_blocks_sample :
  is_Some (starting Samples.login_clicked !! 0) /\
  ui_polling
    (kiroState (OAuthPage.kiroLoginSettled
                  0 (StartResolved (Some Samples.no_state)) Samples.login_clicked))
  = true.
Proof.
  split; [by eexists|].
  apply (kiro_login_without_state_blocks
           0 Samples.no_state Samples.login_clicked "google");
    [by eexists|reflexivity].
Defined.
